(** * IsoWeather: the card stack and view-state engine of [App.tsx]

    A shallow embedding of the stateful core of the [App] component
    (cyclic card index, gesture handlers, layout engine, render window,
    preview / expanded view modes, search, fantasy creation, refresh and
    removal), followed by the properties of the specification proved or
    refuted against it.

    Numbers.  JavaScript numbers that the code only ever uses as integers
    ([activeIndex], array lengths, window offsets, [location.id]) are [Z].
    Pixel quantities ([dragX], pointer coordinates, [screenWidth]) and the
    layout outputs are exact rationals [Q]: every finite double is a
    rational, and the model computes the arithmetic of the source without
    rounding.

    State.  The [useState] cells and the [dragStartX] ref of the component
    are the fields of one record [App]; a handler is a function from the
    state it closes over to the state after its setters have been applied.
    An [async] handler is a pair of such functions, with the closure it
    leaves suspended at its [await] passed from one to the other. *)

From Stdlib Require Import ZArith QArith Qround Qabs Qminmax Lqa Lia.
From stdpp Require Import base decidable option list strings.

Local Open Scope Z_scope.

(** ** Types ([types.ts]) *)

Inductive AppState : Set :=
| IDLE
| FETCHING_WEATHER
| GENERATING_IMAGE
| EDITING_IMAGE
| SUCCESS
| ERROR.

Record LocationData : Set := {
  location_id : Z;
  location_name : string
}.

Record ViewConfig : Set := {
  view_x : Q;
  view_y : Q;
  view_scale : Q
}.

(** [WeatherData]: the fields the component reads ([id], [isFictional],
    [location]) and the names it copies; the meteorological payload is not
    inspected by [App.tsx]. *)
Record WeatherData : Set := {
  id : string;
  city : string;
  nativeCity : string;
  country : string;
  isFictional : bool;
  location : LocationData
}.

Record GeneratedImage : Set := {
  url : string;
  prompt : string;
  generatedAt : string;
  viewConfig : option ViewConfig
}.

Record WeatherCardData : Set := {
  weather : WeatherData;
  image : GeneratedImage
}.

(** ** JavaScript primitives used by the component *)

(** Truthiness of a [string | null] cell: [null] and the empty string are
    falsy. *)
Definition truthy (o : option string) : bool :=
  match o with
  | None => false
  | Some s => negb (String.eqb s "")
  end.

(** Truthiness of an object-or-null cell. *)
Definition nonNull {A : Type} (o : option A) : bool :=
  match o with
  | None => false
  | Some _ => true
  end.

(** [a % b] on integers: the remainder takes the sign of the dividend. *)
Definition js_rem (a b : Z) : Z := Z.rem a b.

(** [arr[i]] for an integer [i]: [undefined] outside the array. *)
Definition js_index {A : Type} (arr : list A) (i : Z) : option A :=
  if i <? 0 then None else arr !! Z.to_nat i.

(** [a < b] on numbers. *)
Definition Qltb (a b : Q) : bool := negb (Qle_bool b a).

(** [Math.round]: nearest integer, halves rounded towards +infinity. *)
Definition Math_round (q : Q) : Z := Qfloor (q + (1 # 2))%Q.

(** [Math.ceil]. *)
Definition Math_ceil (q : Q) : Z := Qceiling q.

Definition SWIPE_THRESHOLD : Q := 100%Q.
Definition DRAG_THRESHOLD : Q := 5%Q.

(** ** Component state *)

Record App : Type := {
  state : AppState;
  savedCards : list WeatherCardData;
  homeBg : option string;
  activeIndex : Z;
  dragX : Q;
  isDragging : bool;
  dragStartX : option Q;
  screenWidth : Q;
  previewCard : option WeatherCardData;
  previewDragOffset : Q;
  expandedCardId : option string;
  refreshingCardId : option string;
  showFantasy : bool;
  errorMsg : string;
  isScrolled : bool
}.

(** The values passed to [useState] / [useRef] on mount. *)
Definition initialApp : App := {|
  state := IDLE;
  savedCards := [];
  homeBg := None;
  activeIndex := 0;
  dragX := 0%Q;
  isDragging := false;
  dragStartX := None;
  screenWidth := 375%Q;
  previewCard := None;
  previewDragOffset := 0%Q;
  expandedCardId := None;
  refreshingCardId := None;
  showFantasy := false;
  errorMsg := "";
  isScrolled := false
|}.

(** Setters, one per state cell. *)
Definition setState (v : AppState) (a : App) : App :=
  {| state := v; savedCards := savedCards a; homeBg := homeBg a;
     activeIndex := activeIndex a; dragX := dragX a;
     isDragging := isDragging a; dragStartX := dragStartX a;
     screenWidth := screenWidth a; previewCard := previewCard a;
     previewDragOffset := previewDragOffset a;
     expandedCardId := expandedCardId a;
     refreshingCardId := refreshingCardId a; showFantasy := showFantasy a;
     errorMsg := errorMsg a; isScrolled := isScrolled a |}.

Definition setSavedCards (v : list WeatherCardData) (a : App) : App :=
  {| state := state a; savedCards := v; homeBg := homeBg a;
     activeIndex := activeIndex a; dragX := dragX a;
     isDragging := isDragging a; dragStartX := dragStartX a;
     screenWidth := screenWidth a; previewCard := previewCard a;
     previewDragOffset := previewDragOffset a;
     expandedCardId := expandedCardId a;
     refreshingCardId := refreshingCardId a; showFantasy := showFantasy a;
     errorMsg := errorMsg a; isScrolled := isScrolled a |}.

Definition setHomeBg (v : option string) (a : App) : App :=
  {| state := state a; savedCards := savedCards a; homeBg := v;
     activeIndex := activeIndex a; dragX := dragX a;
     isDragging := isDragging a; dragStartX := dragStartX a;
     screenWidth := screenWidth a; previewCard := previewCard a;
     previewDragOffset := previewDragOffset a;
     expandedCardId := expandedCardId a;
     refreshingCardId := refreshingCardId a; showFantasy := showFantasy a;
     errorMsg := errorMsg a; isScrolled := isScrolled a |}.

Definition setActiveIndex (v : Z) (a : App) : App :=
  {| state := state a; savedCards := savedCards a; homeBg := homeBg a;
     activeIndex := v; dragX := dragX a;
     isDragging := isDragging a; dragStartX := dragStartX a;
     screenWidth := screenWidth a; previewCard := previewCard a;
     previewDragOffset := previewDragOffset a;
     expandedCardId := expandedCardId a;
     refreshingCardId := refreshingCardId a; showFantasy := showFantasy a;
     errorMsg := errorMsg a; isScrolled := isScrolled a |}.

Definition setDragX (v : Q) (a : App) : App :=
  {| state := state a; savedCards := savedCards a; homeBg := homeBg a;
     activeIndex := activeIndex a; dragX := v;
     isDragging := isDragging a; dragStartX := dragStartX a;
     screenWidth := screenWidth a; previewCard := previewCard a;
     previewDragOffset := previewDragOffset a;
     expandedCardId := expandedCardId a;
     refreshingCardId := refreshingCardId a; showFantasy := showFantasy a;
     errorMsg := errorMsg a; isScrolled := isScrolled a |}.

Definition setIsDragging (v : bool) (a : App) : App :=
  {| state := state a; savedCards := savedCards a; homeBg := homeBg a;
     activeIndex := activeIndex a; dragX := dragX a;
     isDragging := v; dragStartX := dragStartX a;
     screenWidth := screenWidth a; previewCard := previewCard a;
     previewDragOffset := previewDragOffset a;
     expandedCardId := expandedCardId a;
     refreshingCardId := refreshingCardId a; showFantasy := showFantasy a;
     errorMsg := errorMsg a; isScrolled := isScrolled a |}.

(** Assignment to [dragStartX.current]. *)
Definition setDragStartX (v : option Q) (a : App) : App :=
  {| state := state a; savedCards := savedCards a; homeBg := homeBg a;
     activeIndex := activeIndex a; dragX := dragX a;
     isDragging := isDragging a; dragStartX := v;
     screenWidth := screenWidth a; previewCard := previewCard a;
     previewDragOffset := previewDragOffset a;
     expandedCardId := expandedCardId a;
     refreshingCardId := refreshingCardId a; showFantasy := showFantasy a;
     errorMsg := errorMsg a; isScrolled := isScrolled a |}.

Definition setScreenWidth (v : Q) (a : App) : App :=
  {| state := state a; savedCards := savedCards a; homeBg := homeBg a;
     activeIndex := activeIndex a; dragX := dragX a;
     isDragging := isDragging a; dragStartX := dragStartX a;
     screenWidth := v; previewCard := previewCard a;
     previewDragOffset := previewDragOffset a;
     expandedCardId := expandedCardId a;
     refreshingCardId := refreshingCardId a; showFantasy := showFantasy a;
     errorMsg := errorMsg a; isScrolled := isScrolled a |}.

Definition setPreviewCard (v : option WeatherCardData) (a : App) : App :=
  {| state := state a; savedCards := savedCards a; homeBg := homeBg a;
     activeIndex := activeIndex a; dragX := dragX a;
     isDragging := isDragging a; dragStartX := dragStartX a;
     screenWidth := screenWidth a; previewCard := v;
     previewDragOffset := previewDragOffset a;
     expandedCardId := expandedCardId a;
     refreshingCardId := refreshingCardId a; showFantasy := showFantasy a;
     errorMsg := errorMsg a; isScrolled := isScrolled a |}.

Definition setPreviewDragOffset (v : Q) (a : App) : App :=
  {| state := state a; savedCards := savedCards a; homeBg := homeBg a;
     activeIndex := activeIndex a; dragX := dragX a;
     isDragging := isDragging a; dragStartX := dragStartX a;
     screenWidth := screenWidth a; previewCard := previewCard a;
     previewDragOffset := v;
     expandedCardId := expandedCardId a;
     refreshingCardId := refreshingCardId a; showFantasy := showFantasy a;
     errorMsg := errorMsg a; isScrolled := isScrolled a |}.

Definition setExpandedCardId (v : option string) (a : App) : App :=
  {| state := state a; savedCards := savedCards a; homeBg := homeBg a;
     activeIndex := activeIndex a; dragX := dragX a;
     isDragging := isDragging a; dragStartX := dragStartX a;
     screenWidth := screenWidth a; previewCard := previewCard a;
     previewDragOffset := previewDragOffset a;
     expandedCardId := v;
     refreshingCardId := refreshingCardId a; showFantasy := showFantasy a;
     errorMsg := errorMsg a; isScrolled := isScrolled a |}.

Definition setRefreshingCardId (v : option string) (a : App) : App :=
  {| state := state a; savedCards := savedCards a; homeBg := homeBg a;
     activeIndex := activeIndex a; dragX := dragX a;
     isDragging := isDragging a; dragStartX := dragStartX a;
     screenWidth := screenWidth a; previewCard := previewCard a;
     previewDragOffset := previewDragOffset a;
     expandedCardId := expandedCardId a;
     refreshingCardId := v; showFantasy := showFantasy a;
     errorMsg := errorMsg a; isScrolled := isScrolled a |}.

Definition setShowFantasy (v : bool) (a : App) : App :=
  {| state := state a; savedCards := savedCards a; homeBg := homeBg a;
     activeIndex := activeIndex a; dragX := dragX a;
     isDragging := isDragging a; dragStartX := dragStartX a;
     screenWidth := screenWidth a; previewCard := previewCard a;
     previewDragOffset := previewDragOffset a;
     expandedCardId := expandedCardId a;
     refreshingCardId := refreshingCardId a; showFantasy := v;
     errorMsg := errorMsg a; isScrolled := isScrolled a |}.

Definition setErrorMsg (v : string) (a : App) : App :=
  {| state := state a; savedCards := savedCards a; homeBg := homeBg a;
     activeIndex := activeIndex a; dragX := dragX a;
     isDragging := isDragging a; dragStartX := dragStartX a;
     screenWidth := screenWidth a; previewCard := previewCard a;
     previewDragOffset := previewDragOffset a;
     expandedCardId := expandedCardId a;
     refreshingCardId := refreshingCardId a; showFantasy := showFantasy a;
     errorMsg := v; isScrolled := isScrolled a |}.

Definition setIsScrolled (v : bool) (a : App) : App :=
  {| state := state a; savedCards := savedCards a; homeBg := homeBg a;
     activeIndex := activeIndex a; dragX := dragX a;
     isDragging := isDragging a; dragStartX := dragStartX a;
     screenWidth := screenWidth a; previewCard := previewCard a;
     previewDragOffset := previewDragOffset a;
     expandedCardId := expandedCardId a;
     refreshingCardId := refreshingCardId a; showFantasy := showFantasy a;
     errorMsg := errorMsg a; isScrolled := v |}.

(** [savedCards.length] as the number the source compares and adds. *)
Definition cardCount (a : App) : Z := Z.of_nat (length (savedCards a)).

(** ** Infinite data helpers *)

(** The Euclidean modulo written out in [getCardData] (and again in
    [handleSearch]). *)
Definition wrappedIndex (index len : Z) : Z :=
  js_rem (js_rem index len + len) len.

Definition getCardData (a : App) (index : Z) : option WeatherCardData :=
  if cardCount a =? 0 then None
  else js_index (savedCards a) (wrappedIndex index (cardCount a)).

(** ** Gesture handlers

    The event argument is reduced to the [clientX] the handler reads from
    it. *)

Definition handleTouchStart (clientX : Q) (a : App) : App :=
  if truthy (expandedCardId a) || nonNull (previewCard a)
     || (cardCount a =? 0)
  then a
  else setDragStartX (Some clientX) a.

Definition handleTouchMove (clientX : Q) (a : App) : App :=
  match dragStartX a with
  | None => a
  | Some start =>
      if truthy (expandedCardId a) || nonNull (previewCard a) then a
      else
        let delta := (clientX - start)%Q in
        (* both tests read the [isDragging] of the render the handler
           closes over *)
        let a1 :=
          if negb (isDragging a) && Qltb DRAG_THRESHOLD (Qabs delta)
          then setIsDragging true a else a in
        if isDragging a then setDragX delta a1 else a1
  end.

Definition handleTouchEnd (a : App) : App :=
  match dragStartX a with
  | None => a
  | Some _ =>
      let a1 :=
        if isDragging a then
          if Qltb SWIPE_THRESHOLD (Qabs (dragX a)) then
            if Qltb 0 (dragX a)
            then setActiveIndex (activeIndex a - 1) a
            else setActiveIndex (activeIndex a + 1) a
          else a
        else a in
      setIsDragging false (setDragStartX None (setDragX 0%Q a1))
  end.

(** ** Layout engine *)

Record CardStyle : Set := {
  top : string;
  translateX : Q;        (* the x of [translate3d(x px, -50%, 0)] *)
  scale : Q;             (* the argument of [scale(...)] *)
  zIndex : Z;
  opacity : Q;
  transition : string
}.

(** [progress] of [getCardStyle]: the offset shifted by the normalised
    drag.  [screenWidth] is [window.innerWidth]; the quotient is the
    source's for every non-zero width.  At width 0 the source divides by
    zero and gets [NaN] or an infinity, which this quotient (0 there) does
    not model: what is proved of the style is proved for a non-zero
    width. *)
Definition progressOf (a : App) (relativeOffset : Q) : Q :=
  (relativeOffset + dragX a / screenWidth a)%Q.

Definition getCardStyle (a : App) (relativeOffset : Q) : CardStyle :=
  let cardWidth := Qmin 340 (screenWidth a * 0.9)%Q in
  let progress := progressOf a relativeOffset in
  let peekAmount := 20%Q in
  let parkX := (- (screenWidth a / 2) - (cardWidth / 2) + peekAmount)%Q in
  let '(x, scale0, zIndex0, opacity0) :=
    if Qltb progress 0 then
      ((progress * Qabs parkX)%Q,
       (1 + Qmax progress (-1) * 0.05)%Q,
       200 + Math_round (Qabs progress * 10)%Q,
       if Qltb progress (-0.2)%Q
       then Qmax 0 (1 - (Qabs progress - 0.2) * 1.5)%Q
       else 1%Q)
    else
      ((progress * 20)%Q,
       (1 - progress * 0.05)%Q,
       100 - Math_ceil progress,
       if Qltb 3 progress
       then Qmax 0 (1 - (progress - 3))%Q
       else 1%Q) in
  {| top := "50%";
     translateX := x;
     scale := Qmax 0.5 scale0;
     zIndex := zIndex0;
     opacity := opacity0;
     transition :=
       if isDragging a then "none"
       else "transform 0.5s cubic-bezier(0.2, 0.8, 0.2, 1.0), opacity 0.4s ease-out" |}.

(** ** Actions *)

Definition cardId (c : WeatherCardData) : string := id (weather c).

(** [handleRemoveCard]: the updater passed to [setSavedCards], with the
    two setters it calls when the filtered collection is empty. *)
Definition handleRemoveCard (rid : string) (a : App) : App :=
  let newCards := filter (fun c => cardId c ≠ rid) (savedCards a) in
  let a1 :=
    if Z.of_nat (length newCards) =? 0
    then setActiveIndex 0 (setState IDLE a)
    else a in
  setSavedCards newCards a1.

Definition handleSavePreview (a : App) : App :=
  match previewCard a with
  | Some card =>
      setState IDLE
        (setIsScrolled false
           (setPreviewDragOffset 0%Q
              (setPreviewCard None
                 (setActiveIndex (cardCount a)
                    (setSavedCards (savedCards a ++ [card]) a)))))
  | None => a
  end.

(** [onToggleExpand] of the preview overlay: cancel. *)
Definition cancelPreview (a : App) : App :=
  setIsScrolled false (setPreviewDragOffset 0%Q (setPreviewCard None a)).

(** [onToggleExpand] of the expanded overlay: close. *)
Definition closeExpanded (a : App) : App :=
  setIsScrolled false (setExpandedCardId None a).

(** [savedCards.find(c => c.weather.id === expandedCardId)]. *)
Definition expandedCard (a : App) : option WeatherCardData :=
  match expandedCardId a with
  | None => None
  | Some eid => snd <$> list_find (fun c => cardId c = eid) (savedCards a)
  end.

Definition replaceCard (target : string) (updated : WeatherCardData)
    (cards : list WeatherCardData) : list WeatherCardData :=
  (fun c => if decide (cardId c = target) then updated else c) <$> cards.

(** The target card of [handleImageUpdate] and [handleUpdateView]. *)
Definition targetCard (a : App) : option WeatherCardData :=
  match previewCard a with
  | Some c => Some c
  | None => if truthy (expandedCardId a) then expandedCard a else None
  end.

Definition applyCardUpdate (updatedCard : WeatherCardData) (a : App) : App :=
  if nonNull (previewCard a) then setPreviewCard (Some updatedCard) a
  else
    match expandedCardId a with
    | Some eid =>
        if truthy (expandedCardId a)
        then setSavedCards (replaceCard eid updatedCard (savedCards a)) a
        else a
    | None => a
    end.

Definition handleImageUpdate (newImage : GeneratedImage) (a : App) : App :=
  match targetCard a with
  | None => a
  | Some target =>
      applyCardUpdate {| weather := weather target; image := newImage |} a
  end.

Definition handleUpdateView (vc : ViewConfig) (a : App) : App :=
  match targetCard a with
  | None => a
  | Some target =>
      applyCardUpdate
        {| weather := weather target;
           image := {| url := url (image target);
                       prompt := prompt (image target);
                       generatedAt := generatedAt (image target);
                       viewConfig := Some vc |} |} a
  end.

(** ** Render window *)

Record RenderedCard : Set := {
  key : Z;                       (* [absoluteIndex] *)
  offset : Z;
  cardData : WeatherCardData;
  style : CardStyle;
  isCenter : bool
}.

Definition windowOffsets : list Z := [-2; -1; 0; 1; 2; 3; 4].

(** The body of the [map] over the window: [None] where it returns
    [null]. *)
Definition renderOffset (a : App) (off : Z) : option RenderedCard :=
  let activeLength := cardCount a in
  let visibleStackLimit := Z.min activeLength 3 in
  if (0 <? off) && (visibleStackLimit <=? off) then None
  else if (activeLength =? 1) && negb (off =? 0) then None
  else
    let absoluteIndex := activeIndex a + off in
    match getCardData a absoluteIndex with
    | None => None
    | Some card =>
        Some {| key := absoluteIndex;
                offset := off;
                cardData := card;
                style := getCardStyle a (inject_Z off);
                isCenter := off =? 0 |}
    end.

(** [savedCards.length > 0 && !expandedCardId]: the stack container, and
    with it the gesture and click handlers, is part of the tree. *)
Definition stackMounted (a : App) : bool :=
  (0 <? cardCount a) && negb (truthy (expandedCardId a)).

Definition renderStack (a : App) : list RenderedCard :=
  if stackMounted a then omap (renderOffset a) windowOffsets else [].

(** [onClick] of a rendered card. *)
Definition cardOnClick (rc : RenderedCard) (a : App) : App :=
  if isCenter rc && negb (isDragging a)
  then setExpandedCardId (Some (cardId (cardData rc))) a
  else if negb (isCenter rc) && negb (isDragging a)
  then setActiveIndex (activeIndex a + offset rc) a
  else a.

(** ** Asynchronous flows

    An [async] handler is split at its [await]: the part that runs at the
    call, which returns the closure left suspended, and the part that runs
    when the awaited promises settle.  The collaborators are a record of
    functions; [Rejected] is a rejected promise. *)

Inductive Result (A : Type) : Type :=
| Ok (value : A)
| Rejected (message : string).
Arguments Ok {A} value.
Arguments Rejected {A} message.

Inductive FantasyMode : Set := fantasy | historical.

Record FantasyConfig : Set := {
  mode : FantasyMode;
  cityName : string;
  universe : string;
  fantasyWeather : string;
  fantasyTime : string;
  aesthetic : string;
  description : string
}.

Record Services : Type := {
  getWeatherData : LocationData -> Result WeatherData;
  generateWeatherScene : WeatherData -> Result GeneratedImage;
  getCityNativeName : string -> string -> Result string;
  regenerateFantasyScene : WeatherData -> Result GeneratedImage;
  generateCreativeWeatherData : FantasyConfig -> Result WeatherData;
  generateFantasyScene : FantasyConfig -> Result GeneratedImage
}.

(** What a suspended [handleRefresh] holds: its argument and the
    [previewCard] of the render it was created in. *)
Record RefreshClosure : Set := {
  refreshed : WeatherCardData;
  closedPreview : option WeatherCardData
}.

(** [handleRefresh] up to its first [await]. *)
Definition handleRefresh (card : WeatherCardData) (a : App)
    : App * option RefreshClosure :=
  if truthy (refreshingCardId a) then (a, None)
  else (setRefreshingCardId (Some (cardId card)) a,
        Some {| refreshed := card; closedPreview := previewCard a |}).

Definition withNativeCity (w : WeatherData) (name : string) : WeatherData :=
  {| id := id w; city := city w; nativeCity := name; country := country w;
     isFictional := isFictional w; location := location w |}.

(** The card the [try] block of [handleRefresh] builds, if no promise
    rejects. *)
Definition refreshedCard (sv : Services) (card : WeatherCardData)
    : option WeatherCardData :=
  if isFictional (weather card) then
    match regenerateFantasyScene sv (weather card) with
    | Ok updatedImage => Some {| weather := weather card; image := updatedImage |}
    | Rejected _ => None
    end
  else
    match getWeatherData sv (location (weather card)) with
    | Ok weatherData =>
        match generateWeatherScene sv weatherData,
              getCityNativeName sv (city weatherData) (country weatherData) with
        | Ok generatedImage, Ok nativeName =>
            Some {| weather := withNativeCity weatherData nativeName;
                    image := generatedImage |}
        | _, _ => None
        end
    | Rejected _ => None
    end.

(** [previewCard?.weather.id === card.weather.id], on the closed-over
    preview. *)
Definition previewIs (p : option WeatherCardData) (card : WeatherCardData) : bool :=
  match p with
  | Some pc => String.eqb (cardId pc) (cardId card)
  | None => false
  end.

(** The rest of [handleRefresh]: [try] / [catch] / [finally]. *)
Definition handleRefresh_resume (sv : Services) (k : RefreshClosure) (a : App) : App :=
  let card := refreshed k in
  let a1 :=
    match refreshedCard sv card with
    | Some updatedCard =>
        if previewIs (closedPreview k) card
        then setPreviewCard (Some updatedCard) a
        else setSavedCards (replaceCard (cardId card) updatedCard (savedCards a)) a
    | None => a
    end in
  setRefreshingCardId None a1.

(** [handleFantasyCreate] up to its [await]. *)
Definition handleFantasyCreate (config : FantasyConfig) (a : App) : App :=
  setShowFantasy false (setErrorMsg "" (setState GENERATING_IMAGE a)).

(** The rest of [handleFantasyCreate]. *)
Definition handleFantasyCreate_resume (sv : Services) (config : FantasyConfig)
    (a : App) : App :=
  match generateCreativeWeatherData sv config, generateFantasyScene sv config with
  | Ok weatherData, Ok img =>
      setState SUCCESS
        (setPreviewCard (Some {| weather := weatherData; image := img |}) a)
  | _, _ =>
      setState ERROR
        (setErrorMsg
           "Failed to construct fantasy world. The simulation grid may be unstable."
           a)
  end.

(** What a suspended [handleSearch] holds: the [setTimeout] callback of
    the duplicate path, with the [savedCards] and [activeIndex] of the
    render it was created in; or the location whose weather is awaited; or
    the weather whose scene and native name are awaited. *)
Inductive SearchClosure : Type :=
| SearchExisting (closedCards : list WeatherCardData) (closedActiveIndex : Z)
    (existingIndex : Z)
| SearchFetching (loc : LocationData)
| SearchGenerating (weatherData : WeatherData).

(** [handleSearch] up to its [return] or first [await]. *)
Definition handleSearch (loc : LocationData) (a : App) : App * SearchClosure :=
  let a1 :=
    setPreviewDragOffset 0%Q
      (setPreviewCard None
         (setIsScrolled false
            (setErrorMsg "" (setState FETCHING_WEATHER a)))) in
  match list_find (fun c => location_id (location (weather c)) = location_id loc)
          (savedCards a) with
  | Some (existingIndex, _) =>
      (a1, SearchExisting (savedCards a) (activeIndex a) (Z.of_nat existingIndex))
  | None => (a1, SearchFetching loc)
  end.

(** The [catch] block of [handleSearch]: [err.message || "Something went
    wrong."]. *)
Definition searchFailed (message : string) (a : App) : App :=
  setState ERROR
    (setErrorMsg
       (if String.eqb message "" then "Something went wrong." else message) a).

(** The next step of a suspended [handleSearch]. *)
Definition handleSearch_resume (sv : Services) (k : SearchClosure) (a : App)
    : App * option SearchClosure :=
  match k with
  | SearchExisting cards closedIndex existingIndex =>
      let currentMod := wrappedIndex closedIndex (Z.of_nat (length cards)) in
      let diff := existingIndex - currentMod in
      let a1 := setActiveIndex (activeIndex a + diff) a in
      match js_index cards existingIndex with
      | Some c => (setState IDLE (setExpandedCardId (Some (cardId c)) a1), None)
      | None => (a1, None)
      end
  | SearchFetching loc =>
      match getWeatherData sv loc with
      | Ok weatherData =>
          (setState GENERATING_IMAGE a, Some (SearchGenerating weatherData))
      | Rejected message => (searchFailed message a, None)
      end
  | SearchGenerating weatherData =>
      match generateWeatherScene sv weatherData,
            getCityNativeName sv (city weatherData) (country weatherData) with
      | Ok generatedImage, Ok nativeName =>
          (setState SUCCESS
             (setPreviewCard
                (Some {| weather := withNativeCity weatherData nativeName;
                         image := generatedImage |}) a),
           None)
      | Rejected message, _ => (searchFailed message a, None)
      | _, Rejected message => (searchFailed message a, None)
      end
  end.

(** ** The component as a transition system

    The state of a running component is the [App] record together with the
    closures of the asynchronous handlers that are suspended.  An [Event]
    is a user action on an element, the next step of a suspended handler,
    or the arrival of the home background; [dispatch] delivers it to the
    handler the JSX attaches, provided the element is part of the rendered
    tree.  The search box and the fantasy button sit in the header, which
    every render contains; the suggestion list of the search box keeps its
    own state, so [Search] is taken to be possible in every state.
    [dispatch] tests whether an element is mounted, not whether the
    pointer can get at it: it also delivers the events of an element that
    is mounted but moved off the screen or covered (the stack under the
    preview overlay, the header while a card is expanded), so the states
    it reaches include every state of a real run. *)

Record Machine : Type := {
  app : App;
  refreshes : list RefreshClosure;
  creations : list FantasyConfig;
  searches : list SearchClosure
}.

Definition initialMachine : Machine :=
  {| app := initialApp; refreshes := []; creations := []; searches := [] |}.

Inductive Event : Type :=
| Resize (w : Q)                 (* updateWidth *)
| HomeBackground (bg : string)   (* the background effect, when [bg] is truthy *)
| PointerDown (clientX : Q)      (* onTouchStart, onMouseDown *)
| PointerMove (clientX : Q)      (* onTouchMove, onMouseMove *)
| PointerUp                      (* onTouchEnd, onMouseUp, onMouseLeave *)
| CardClick (off : Z)
| RemoveClick
| RefreshStack (off : Z)
| RefreshExpanded
| RefreshPreview
| RefreshSettled (i : nat) (sv : Services)
| CloseExpanded
| CancelPreview
| SavePreview
| PreviewDrag (off : Q)
| Scroll (scrolled : bool)
| ImageUpdate (newImage : GeneratedImage)
| UpdateView (vc : ViewConfig)
| OpenFantasy
| CancelFantasy
| FantasyCreate (config : FantasyConfig)
| FantasySettled (i : nat) (sv : Services)
| Search (loc : LocationData)
| SearchSettled (i : nat) (sv : Services)
| DismissError.

Definition onApp (f : App -> App) (m : Machine) : Machine :=
  {| app := f (app m); refreshes := refreshes m; creations := creations m;
     searches := searches m |}.

(** The card rendered at a window offset, if any. *)
Definition renderedAt (a : App) (off : Z) : option RenderedCard :=
  if stackMounted a && bool_decide (off ∈ windowOffsets)
  then renderOffset a off else None.

(** [expandedCardId && expandedCard]: the expanded overlay is mounted. *)
Definition expandedMounted (a : App) : bool :=
  truthy (expandedCardId a) && nonNull (expandedCard a).

(** [previewCard && ...]: the preview overlay is mounted. *)
Definition previewMounted (a : App) : bool := nonNull (previewCard a).

Definition startRefresh (card : option WeatherCardData) (m : Machine) : Machine :=
  match card with
  | None => m
  | Some c =>
      let '(a', k) := handleRefresh c (app m) in
      {| app := a';
         refreshes := refreshes m ++ option_list k;
         creations := creations m;
         searches := searches m |}
  end.

Definition isERROR (s : AppState) : bool :=
  match s with ERROR => true | _ => false end.

Definition dispatch (m : Machine) (e : Event) : Machine :=
  let a := app m in
  match e with
  | Resize w => onApp (setScreenWidth w) m
  | HomeBackground bg =>
      if truthy (Some bg) then onApp (setHomeBg (Some bg)) m else m
  | PointerDown x =>
      if stackMounted a then onApp (handleTouchStart x) m else m
  | PointerMove x =>
      if stackMounted a then onApp (handleTouchMove x) m else m
  | PointerUp =>
      if stackMounted a then onApp handleTouchEnd m else m
  | CardClick off =>
      match renderedAt a off with
      | Some rc => onApp (cardOnClick rc) m
      | None => m
      end
  | RemoveClick =>
      match renderedAt a 0 with
      | Some rc => onApp (handleRemoveCard (cardId (cardData rc))) m
      | None => m
      end
  | RefreshStack off => startRefresh (cardData <$> renderedAt a off) m
  | RefreshExpanded =>
      if expandedMounted a then startRefresh (expandedCard a) m else m
  | RefreshPreview => startRefresh (previewCard a) m
  | RefreshSettled i sv =>
      match refreshes m !! i with
      | Some k =>
          {| app := handleRefresh_resume sv k a;
             refreshes := delete i (refreshes m);
             creations := creations m;
             searches := searches m |}
      | None => m
      end
  | CloseExpanded =>
      if expandedMounted a then onApp closeExpanded m else m
  | CancelPreview =>
      if previewMounted a then onApp cancelPreview m else m
  | SavePreview =>
      if previewMounted a then onApp handleSavePreview m else m
  | PreviewDrag off =>
      if previewMounted a then onApp (setPreviewDragOffset off) m else m
  | Scroll scrolled =>
      if expandedMounted a || previewMounted a
      then onApp (setIsScrolled scrolled) m else m
  | ImageUpdate newImage =>
      if expandedMounted a || previewMounted a
      then onApp (handleImageUpdate newImage) m else m
  | UpdateView vc =>
      if expandedMounted a || previewMounted a
      then onApp (handleUpdateView vc) m else m
  | OpenFantasy =>
      if negb (isScrolled a) || negb (nonNull (previewCard a))
      then onApp (setShowFantasy true) m else m
  | CancelFantasy =>
      if showFantasy a then onApp (setShowFantasy false) m else m
  | FantasyCreate config =>
      if showFantasy a
      then {| app := handleFantasyCreate config a;
              refreshes := refreshes m;
              creations := creations m ++ [config];
              searches := searches m |}
      else m
  | FantasySettled i sv =>
      match creations m !! i with
      | Some config =>
          {| app := handleFantasyCreate_resume sv config a;
             refreshes := refreshes m;
             creations := delete i (creations m);
             searches := searches m |}
      | None => m
      end
  | Search loc =>
      let '(a', k) := handleSearch loc a in
      {| app := a';
         refreshes := refreshes m;
         creations := creations m;
         searches := searches m ++ [k] |}
  | SearchSettled i sv =>
      match searches m !! i with
      | Some k =>
          let '(a', k') := handleSearch_resume sv k a in
          {| app := a';
             refreshes := refreshes m;
             creations := creations m;
             searches := delete i (searches m) ++ option_list k' |}
      | None => m
      end
  | DismissError =>
      if isERROR (state a) then onApp (setState IDLE) m else m
  end.

Definition run (events : list Event) : Machine :=
  foldl dispatch initialMachine events.

Definition reachable (m : Machine) : Prop := exists events, run events = m.

(** The events delivered one after the other, from [m] on. *)
Definition runFrom (m : Machine) (events : list Event) : Machine :=
  foldl dispatch m events.

(** A gesture on the stack up to its release: the pointer goes down at
    [start] and moves to each of [moves] in turn. *)
Definition gesture (start : Q) (moves : list Q) : list Event :=
  PointerDown start :: (PointerMove <$> moves).

(** The view mode shown: [Expanded] hides the stack, [Preview] covers it. *)
Definition expandedActive (a : App) : bool := truthy (expandedCardId a).
Definition previewActive (a : App) : bool := nonNull (previewCard a).

(** The offsets and the cards the stack shows, in window order. *)
Definition renderedOffsets (a : App) : list Z := offset <$> renderStack a.
Definition renderedCards (a : App) : list WeatherCardData :=
  cardData <$> renderStack a.

(** ** Sample data for the worked examples *)

Definition sampleLocation (n : Z) (name : string) : LocationData :=
  {| location_id := n; location_name := name |}.

Definition sampleWeather (i : string) (n : Z) (name : string) : WeatherData :=
  {| id := i; city := name; nativeCity := name; country := "";
     isFictional := false; location := sampleLocation n name |}.

Definition sampleImage (u : string) : GeneratedImage :=
  {| url := u; prompt := ""; generatedAt := ""; viewConfig := None |}.

Definition sampleCard (i : string) (n : Z) (name : string) : WeatherCardData :=
  {| weather := sampleWeather i n name; image := sampleImage i |}.

Definition cardA : WeatherCardData := sampleCard "a" 1 "Oslo".
Definition cardB : WeatherCardData := sampleCard "b" 2 "Lima".
Definition cardC : WeatherCardData := sampleCard "c" 3 "Kyoto".

(** A stack holding the given cards, everything else as on mount. *)
Definition stackOf (cards : list WeatherCardData) : App :=
  setSavedCards cards initialApp.

(** A drag in progress over [stackOf cards]: armed at [start], moved by
    [delta]. *)
Definition draggingBy (cards : list WeatherCardData) (start delta : Q) : App :=
  setDragX delta (setIsDragging true (setDragStartX (Some start) (stackOf cards))).

(** Collaborators that answer every request with the parts of [c]. *)
Definition servicesFor (c : WeatherCardData) : Services :=
  {| getWeatherData := fun _ => Ok (weather c);
     generateWeatherScene := fun _ => Ok (image c);
     getCityNativeName := fun _ _ => Ok (nativeCity (weather c));
     regenerateFantasyScene := fun _ => Ok (image c);
     generateCreativeWeatherData := fun _ => Ok (weather c);
     generateFantasyScene := fun _ => Ok (image c) |}.

Definition sampleConfig : FantasyConfig :=
  {| mode := fantasy; cityName := "Minas Tirith"; universe := "Middle-earth";
     fantasyWeather := "Stormy"; fantasyTime := "Sunset";
     aesthetic := "Ethereal"; description := "" |}.

(** Open the creator, submit it, and let the generation settle with [c]:
    the component then shows [c] as a preview. *)
Definition createPreview (c : WeatherCardData) : list Event :=
  [OpenFantasy; FantasyCreate sampleConfig; FantasySettled 0 (servicesFor c)].

(** [cardA] is created and saved, then [cardB] is created: a preview of
    [cardB] over a stack holding [cardA]. *)
Definition previewOverStack : list Event :=
  createPreview cardA ++ [SavePreview] ++ createPreview cardB.

Definition previewOverStackMachine : Machine := run previewOverStack.

(** A preview of [p] over [stackOf cards]. *)
Definition previewing (p : WeatherCardData) (cards : list WeatherCardData) : App :=
  setPreviewCard (Some p) (stackOf cards).

(** The component in state [a] with no handler suspended. *)
Definition machineOf (a : App) : Machine :=
  {| app := a; refreshes := []; creations := []; searches := [] |}.

(** A refresh of the centre card of a two-card stack is in flight. *)
Definition refreshingMachine : Machine :=
  dispatch (machineOf (stackOf [cardA; cardB])) (RefreshStack 0).

(** ** Invariants of the transition system *)

(** A drag in progress belongs to an armed gesture. *)
Definition gestureArmed (a : App) : Prop :=
  isDragging a = true -> is_Some (dragStartX a).

(** The collaborators issue non-empty ids ([crypto.randomUUID()] in
    [getWeatherData] and [generateCreativeWeatherData]). *)
Definition issuesIds (sv : Services) : Prop :=
  (forall l w, getWeatherData sv l = Ok w -> id w <> "")
  /\ (forall c w, generateCreativeWeatherData sv c = Ok w -> id w <> "").

Definition eventOk (e : Event) : Prop :=
  match e with
  | RefreshSettled _ sv | FantasySettled _ sv | SearchSettled _ sv =>
      issuesIds sv
  | _ => True
  end.

Definition searchHasId (k : SearchClosure) : Prop :=
  match k with
  | SearchGenerating weatherData => id weatherData <> ""
  | _ => True
  end.

(** The states reached when every collaborator answer carries an id. *)
Definition reachableWithIds (m : Machine) : Prop :=
  exists events, Forall eventOk events /\ run events = m.

(** Every card the component holds, shown or closed over, has an id. *)
Definition idsPresent (m : Machine) : Prop :=
  Forall (fun c => cardId c <> "") (savedCards (app m))
  /\ (forall p, previewCard (app m) = Some p -> cardId p <> "")
  /\ Forall (fun k => cardId (refreshed k) <> "") (refreshes m)
  /\ Forall searchHasId (searches m).

(** At most one [handleRefresh] is suspended, and [refreshingCardId]
    names its card; none is suspended when [refreshingCardId] is null. *)
Definition singleFlight (m : Machine) : Prop :=
  (refreshes m = [] /\ refreshingCardId (app m) = None)
  \/ (exists k, refreshes m = [k]
                /\ refreshingCardId (app m) = Some (cardId (refreshed k))).

(** A search for the location of [c] whose three requests are answered
    with the parts of [c]: the component then shows [c] as a preview. *)
Definition searchPreview (c : WeatherCardData) : list Event :=
  [Search (location (weather c));
   SearchSettled 0 (servicesFor c); SearchSettled 0 (servicesFor c)].

(** [cardA] is searched for and previewed, and its refresh is requested
    from the preview; the preview is saved and the saved card, now the
    centre card of the stack, is clicked. *)
Definition refreshThenExpand : list Event :=
  searchPreview cardA ++ [RefreshPreview; SavePreview; CardClick 0].

(** The refresh then settles, the weather service answering with the
    weather of [cardC], under a new id. *)
Definition staleRefresh : list Event :=
  refreshThenExpand ++ [RefreshSettled 0 (servicesFor cardC)].

(** Three cards are created and saved; then a gesture on the stack: down
    at 200, a first move past the drag threshold, a move to
    [200 + delta]. *)
Definition threeCards : list Event :=
  createPreview cardA ++ [SavePreview]
  ++ createPreview cardB ++ [SavePreview]
  ++ createPreview cardC ++ [SavePreview; CardClick (-2)].

Definition swipe (delta : Q) : list Event :=
  threeCards ++ [PointerDown 200; PointerMove 210; PointerMove (200 + delta)%Q].

(** Two cards are created and saved, and the refresh of the centre card
    is requested. *)
Definition refreshingRun : list Event :=
  createPreview cardA ++ [SavePreview]
  ++ createPreview cardB ++ [SavePreview; RefreshStack 0].

(** ** Header of the component *)

(** [searchBarProgress]: how far the search bar is revealed while a
    preview is dragged down. *)
Definition searchBarProgress (a : App) : Q :=
  if nonNull (previewCard a)
  then Qmin (Qmax (previewDragOffset a) 0 / 50) 1
  else 1%Q.

Record SearchBarStyle : Set := {
  translateYPercent : Q;         (* the argument of [translateY(...%)] *)
  barOpacity : Q;
  pointerEventsAuto : bool       (* ['auto'], else ['none'] *)
}.

(** [searchBarStyle]: [None] is the empty style object. *)
Definition searchBarStyle (a : App) : option SearchBarStyle :=
  if nonNull (previewCard a)
  then Some {| translateYPercent := (-100 + searchBarProgress a * 100)%Q;
               barOpacity := searchBarProgress a;
               pointerEventsAuto := Qltb 0.8 (searchBarProgress a) |}
  else None.

Definition isIDLE (s : AppState) : bool :=
  match s with IDLE => true | _ => false end.

(** [isWelcome]. *)
Definition isWelcome (a : App) : bool :=
  isIDLE (state a) && (cardCount a =? 0).

(** ** Flows run to their end *)

(** A search followed to its end with nothing in between: the call, then
    each step of the suspended handler. *)
Definition searchToEnd (sv : Services) (loc : LocationData) (a : App) : App :=
  let '(a1, k) := handleSearch loc a in
  let '(a2, k2) := handleSearch_resume sv k a1 in
  match k2 with
  | Some k' => fst (handleSearch_resume sv k' a2)
  | None => a2
  end.

(** A fantasy creation followed to its end. *)
Definition createToEnd (sv : Services) (config : FantasyConfig) (a : App) : App :=
  handleFantasyCreate_resume sv config (handleFantasyCreate config a).

(** A refresh followed to its end. *)
Definition refreshToEnd (sv : Services) (card : WeatherCardData) (a : App) : App :=
  match handleRefresh card a with
  | (a1, Some k) => handleRefresh_resume sv k a1
  | (a1, None) => a1
  end.

(** The first saved card for a location, as [handleSearch] looks it up. *)
Definition findByLocation (loc : LocationData) (a : App)
    : option (nat * WeatherCardData) :=
  list_find (fun c => location_id (location (weather c)) = location_id loc)
    (savedCards a).

Definition cardD : WeatherCardData := sampleCard "d" 4 "Quito".
Definition cardE : WeatherCardData := sampleCard "e" 5 "Turin".

(** Collaborators that reject every request. *)
Definition servicesDown : Services :=
  {| getWeatherData := fun _ => Rejected "Incomplete weather data received";
     generateWeatherScene := fun _ => Rejected "";
     getCityNativeName := fun _ _ => Rejected "";
     regenerateFantasyScene := fun _ => Rejected "";
     generateCreativeWeatherData := fun _ => Rejected "";
     generateFantasyScene := fun _ => Rejected "" |}.

(** [cardA] is created, saved and expanded. *)
Definition expandedRun : list Event :=
  createPreview cardA ++ [SavePreview; CardClick 0].

(** ** Weather service ([weatherService.ts]) *)

Definition directions : list string :=
  ["N"; "NE"; "E"; "SE"; "S"; "SW"; "W"; "NW"].

(** [getWindDirection]: [None] is [undefined]. *)
Definition getWindDirection (degrees : Q) : option string :=
  let index := js_rem (Math_round (degrees / 45)%Q) 8 in
  js_index directions index.

(** [mapWmoCode], on the integer codes of the forecast. *)
Definition mapWmoCode (code : Z) : string :=
  if code =? 0 then "Clear Sky"
  else if code =? 1 then "Mainly Clear"
  else if code =? 2 then "Partly Cloudy"
  else if code =? 3 then "Overcast"
  else if (code =? 45) || (code =? 48) then "Foggy"
  else if (51 <=? code) && (code <=? 57) then "Drizzle"
  else if (61 <=? code) && (code <=? 67) then "Rain"
  else if (71 <=? code) && (code <=? 77) then "Snow"
  else if (80 <=? code) && (code <=? 82) then "Showers"
  else if (95 <=? code) && (code <=? 99) then "Thunderstorm"
  else "Unknown".

(** ** The card component ([WeatherCard.tsx]) *)

(** [toF], on a Celsius reading. *)
Definition toF (c : Q) : Z := Math_round (c * 9 / 5 + 32)%Q.

Inductive Icon : Set :=
| Sun | Cloud | CloudFog | CloudRain | CloudSnow | CloudLightning.

(** [getWeatherIcon]: the icon component and its colour class. *)
Definition getWeatherIcon (code : Z) : Icon * string :=
  if (code =? 0) || (code =? 1) then (Sun, "text-orange-400")
  else if code <=? 3 then (Cloud, "text-zinc-400")
  else if code <=? 48 then (CloudFog, "text-zinc-400")
  else if (code <=? 67) || ((80 <=? code) && (code <=? 82))
  then (CloudRain, "text-blue-400")
  else if (71 <=? code) && (code <=? 77) then (CloudSnow, "text-sky-200")
  else if 95 <=? code then (CloudLightning, "text-purple-400")
  else (Cloud, "text-zinc-400").

(** The props of a [WeatherCard] that its gesture and scroll handlers
    use; a callback not passed is [None]. *)
Record CardProps : Type := {
  isExpanded : bool;
  isPreview : bool;
  onDrag : option (Q -> App -> App);
  onToggleExpand : option (App -> App);
  onScroll : option (bool -> App -> App);
  onUpdateImage : option (GeneratedImage -> App -> App);
  onUpdateView : option (ViewConfig -> App -> App)
}.

(** The three ways [App] renders a card. *)
Definition stackItemProps : CardProps :=
  {| isExpanded := false; isPreview := false;
     onDrag := None; onToggleExpand := None; onScroll := None;
     onUpdateImage := None; onUpdateView := None |}.

Definition expandedProps : CardProps :=
  {| isExpanded := true; isPreview := false;
     onDrag := None;
     onToggleExpand := Some closeExpanded;
     onScroll := Some setIsScrolled;
     onUpdateImage := Some handleImageUpdate;
     onUpdateView := Some handleUpdateView |}.

Definition previewProps : CardProps :=
  {| isExpanded := true; isPreview := true;
     onDrag := Some setPreviewDragOffset;
     onToggleExpand := Some cancelPreview;
     onScroll := Some setIsScrolled;
     onUpdateImage := Some handleImageUpdate;
     onUpdateView := Some handleUpdateView |}.

(** The state cells of the card behind its drag-to-dismiss gesture. *)
Record CardLocal : Set := {
  touchStart : option Q;
  dragOffset : Q;
  isDismissing : bool;
  hasScrolledDown : bool
}.

Definition initialCardLocal : CardLocal :=
  {| touchStart := None; dragOffset := 0%Q; isDismissing := false;
     hasScrolledDown := false |}.

Definition setTouchStart (v : option Q) (l : CardLocal) : CardLocal :=
  {| touchStart := v; dragOffset := dragOffset l;
     isDismissing := isDismissing l; hasScrolledDown := hasScrolledDown l |}.

Definition setDragOffset (v : Q) (l : CardLocal) : CardLocal :=
  {| touchStart := touchStart l; dragOffset := v;
     isDismissing := isDismissing l; hasScrolledDown := hasScrolledDown l |}.

Definition setIsDismissing (v : bool) (l : CardLocal) : CardLocal :=
  {| touchStart := touchStart l; dragOffset := dragOffset l;
     isDismissing := v; hasScrolledDown := hasScrolledDown l |}.

Definition setHasScrolledDown (v : bool) (l : CardLocal) : CardLocal :=
  {| touchStart := touchStart l; dragOffset := dragOffset l;
     isDismissing := isDismissing l; hasScrolledDown := v |}.

(** [if (cb) cb(x)]. *)
Definition callWith {A : Type} (cb : option (A -> App -> App)) (x : A) (a : App)
    : App :=
  match cb with
  | Some f => f x a
  | None => a
  end.

Definition callBack (cb : option (App -> App)) (a : App) : App :=
  match cb with
  | Some f => f a
  | None => a
  end.

(** The gesture handlers of the card.  [scrollTop] is that of the scroll
    container the handlers are attached to, [clientY] that of the first
    touch. *)
Definition onTouchStart (scrollTop clientY : Q) (l : CardLocal) : CardLocal :=
  if isDismissing l then l
  else if Qle_bool scrollTop 2 then setTouchStart (Some clientY) l
  else l.

Definition onTouchMove (props : CardProps) (scrollTop clientY : Q)
    (la : CardLocal * App) : CardLocal * App :=
  let '(l, a) := la in
  if isDismissing l then la
  else
    match touchStart l with
    | Some start =>
        if (isPreview props || isExpanded props) && Qle_bool scrollTop 2 then
          let diff := (clientY - start)%Q in
          let l' :=
            if Qltb 0 diff then setDragOffset (diff * 1.05)%Q l
            else setDragOffset 0%Q l in
          (l', callWith (onDrag props)
                 (if Qltb 0 diff then (diff * 1.05)%Q else 0%Q) a)
        else la
    | None => la
    end.

(** [onTouchEnd]; the third component tells whether the 300 ms timer that
    calls [onToggleExpand] was started.  [innerHeight] is
    [window.innerHeight]. *)
Definition onTouchEnd (props : CardProps) (innerHeight : Q)
    (la : CardLocal * App) : CardLocal * App * bool :=
  let '(l, a) := la in
  if isDismissing l then (l, a, false)
  else
    match touchStart l with
    | Some _ =>
        if Qltb 75 (dragOffset l) then
          (setTouchStart None (setDragOffset innerHeight (setIsDismissing true l)),
           callWith (onDrag props) innerHeight a,
           true)
        else
          (setTouchStart None (setDragOffset 0%Q l),
           callWith (onDrag props) 0%Q a,
           false)
    | None => (setTouchStart None l, a, false)
    end.

(** The callback of the timer started by [onTouchEnd]. *)
Definition dismissTimer (props : CardProps) (a : App) : App :=
  callBack (onToggleExpand props) a.

Definition handleScroll (props : CardProps) (scrollTop : Q)
    (la : CardLocal * App) : CardLocal * App :=
  let '(l, a) := la in
  (if isExpanded props && nonNull (onToggleExpand props) && Qltb 50 scrollTop
   then setHasScrolledDown true l else l,
   callWith (onScroll props) (Qltb 50 scrollTop) a).

(** [scale] of the dragged card. *)
Definition dismissScale (innerHeight : Q) (l : CardLocal) : Q :=
  if Qltb 0 (dragOffset l)
  then Qmax 0.93 (1 - dragOffset l / (innerHeight * 1.5))%Q
  else 1%Q.

(** [borderRadius] of the dragged card, in px. *)
Definition dismissBorderRadius (props : CardProps) (l : CardLocal) : Q :=
  if Qltb 0 (dragOffset l) then Qmin (dragOffset l / 5) 40
  else if isExpanded props then 0%Q else 40%Q.

(** [handleWheel] of the full-screen image viewer: the transform it sets
    and reports. *)
Definition handleWheel (deltaY : Q) (transform : ViewConfig) : ViewConfig :=
  let scaleAmount := (- deltaY * 0.001)%Q in
  let newScale := Qmin (Qmax 1 (view_scale transform + scaleAmount)) 8 in
  if Qeq_bool newScale 1
  then {| view_x := 0%Q; view_y := 0%Q; view_scale := newScale |}
  else {| view_x := view_x transform; view_y := view_y transform;
          view_scale := newScale |}.

(** The edit history of the full-screen image viewer. *)
Record Editor : Set := {
  history : list GeneratedImage;
  historyIndex : Z
}.

(** [arr.slice(0, e)]. *)
Definition js_slice0 {A : Type} (arr : list A) (e : Z) : list A :=
  if e <? 0 then take (Z.to_nat (Z.of_nat (length arr) + e)) arr
  else take (Z.to_nat e) arr.

(** [activeImage]. *)
Definition activeImage (img : GeneratedImage) (ed : Editor)
    : option GeneratedImage :=
  if 0 <? Z.of_nat (length (history ed))
  then js_index (history ed) (historyIndex ed)
  else Some img.

(** The effect on [showFullImage]: opening and closing the viewer. *)
Definition openViewer (img : GeneratedImage) (ed : Editor) : Editor :=
  if Z.of_nat (length (history ed)) =? 0
  then {| history := [img]; historyIndex := 0 |}
  else ed.

Definition closeViewer : Editor := {| history := []; historyIndex := 0 |}.

(** The undo and redo buttons, rendered when the history has more than
    one entry and disabled at its ends. *)
Definition undo (ed : Editor) : Editor :=
  if (1 <? Z.of_nat (length (history ed))) && negb (historyIndex ed =? 0)
  then {| history := history ed; historyIndex := historyIndex ed - 1 |}
  else ed.

Definition redo (ed : Editor) : Editor :=
  if (1 <? Z.of_nat (length (history ed)))
     && negb (historyIndex ed =? Z.of_nat (length (history ed)) - 1)
  then {| history := history ed; historyIndex := historyIndex ed + 1 |}
  else ed.

(** [handleSubmitAdjust] once the edit is generated: [closed] is the
    editor of the render in which the edit was submitted. *)
Definition editSettled (closed : Editor) (newImage : GeneratedImage) : Editor :=
  let newHistory := js_slice0 (history closed) (historyIndex closed + 1)
                    ++ [newImage] in
  {| history := newHistory;
     historyIndex := Z.of_nat (length newHistory) - 1 |}.

(** [handleCloseFullImage]: what it does to the cells of [App], the cells
    of the card apart.  The two callbacks are called one after the other;
    [currentViewConfig] is the transform last reported by the viewer,
    [None] when [undefined]. *)
Definition handleCloseFullImage (props : CardProps) (img : GeneratedImage)
    (currentViewConfig : option ViewConfig) (ed : Editor) (a : App) : App :=
  let a1 :=
    match onUpdateView props, currentViewConfig with
    | Some f, Some vc => f vc a
    | _, _ => a
    end in
  match activeImage img ed, onUpdateImage props with
  | Some active, Some g =>
      if negb (String.eqb (url active) (url img)) then g active a1 else a1
  | _, _ => a1
  end.

(** The events of a mounted card that its gesture and scroll handlers
    serve, and the timer started by [onTouchEnd]. *)
Inductive CardEvent : Set :=
| TouchStart (scrollTop clientY : Q)
| TouchMove (scrollTop clientY : Q)
| TouchEnd (innerHeight : Q)
| ScrollTo (scrollTop : Q).

(** One event on a card: the cells of the card, those of [App], and the
    number of timers started so far. *)
Definition cardStep (props : CardProps) (e : CardEvent)
    (s : CardLocal * App * nat) : CardLocal * App * nat :=
  let '(l, a, timers) := s in
  match e with
  | TouchStart top y => (onTouchStart top y l, a, timers)
  | TouchMove top y =>
      let '(l', a') := onTouchMove props top y (l, a) in (l', a', timers)
  | TouchEnd h =>
      let '(l', a', started) := onTouchEnd props h (l, a) in
      (l', a', if started then S timers else timers)
  | ScrollTo top =>
      let '(l', a') := handleScroll props top (l, a) in (l', a', timers)
  end.

Definition cardRun (props : CardProps) (es : list CardEvent)
    (s : CardLocal * App * nat) : CardLocal * App * nat :=
  foldl (fun s e => cardStep props e s) s es.

(** The editor holds nothing, or its index points into the history. *)
Definition editorOk (ed : Editor) : Prop :=
  (history ed = [] /\ historyIndex ed = 0)
  \/ 0 <= historyIndex ed < Z.of_nat (length (history ed)).

(** Proves [NoDup] of an explicit list, each inequality by [t]. *)
Ltac nodup_by t :=
  repeat (apply NoDup_cons_2;
          [rewrite ?not_elem_of_cons; repeat split;
           solve [t | apply not_elem_of_nil] |]);
  apply NoDup_nil_2.

(** Unfolds the handlers that [dispatch] calls. *)
Ltac unfold_handlers :=
  unfold startRefresh, onApp, handleRefresh, handleRefresh_resume,
    handleFantasyCreate, handleFantasyCreate_resume, handleImageUpdate,
    handleUpdateView, applyCardUpdate, handleSavePreview, cancelPreview,
    closeExpanded, handleRemoveCard, cardOnClick, handleSearch,
    handleSearch_resume, searchFailed.


(** * Properties *)

(** ** Cyclic index *)

Lemma js_rem_congr (i N : Z) : 0 < N -> (js_rem i N) mod N = i mod N.
Proof.
  intros HN. unfold js_rem.
  rewrite (Z.quot_rem i N) at 2 by lia.
  rewrite Z.add_comm, Z.mul_comm, Z.mod_add by lia. reflexivity.
Qed.

Lemma js_rem_above (i N : Z) : 0 < N -> - N < js_rem i N < N.
Proof.
  intros HN. unfold js_rem.
  pose proof (Z.rem_bound_abs i N ltac:(lia)). lia.
Qed.

(** For a positive length the written-out formula is the mathematical
    modulo. *)
Lemma wrappedIndex_mod (i N : Z) : 0 < N -> wrappedIndex i N = i mod N.
Proof.
  intros HN. unfold wrappedIndex.
  pose proof (js_rem_above i N HN) as Hb.
  unfold js_rem at 1.
  rewrite Z.rem_mod_nonneg by (fold (js_rem i N); lia).
  fold (js_rem i N).
  rewrite <- (Z.mul_1_l N) at 2.
  rewrite Z.mod_add by lia. apply js_rem_congr, HN.
Qed.

Lemma wrappedIndex_range (i N : Z) : 0 < N -> 0 <= wrappedIndex i N < N.
Proof.
  intros HN. rewrite wrappedIndex_mod by exact HN. apply Z.mod_pos_bound, HN.
Qed.

Lemma cardCount_pos (a : App) : savedCards a <> [] -> 0 < cardCount a.
Proof.
  unfold cardCount. destruct (savedCards a); [congruence | simpl; lia].
Qed.

Lemma getCardData_lookup (a : App) (i : Z) :
  savedCards a <> [] ->
  getCardData a i = savedCards a !! Z.to_nat (i mod cardCount a).
Proof.
  intros Hne. pose proof (cardCount_pos a Hne) as Hpos.
  unfold getCardData.
  destruct (cardCount a =? 0) eqn:E; [apply Z.eqb_eq in E; lia |].
  rewrite wrappedIndex_mod by exact Hpos.
  unfold js_index.
  pose proof (Z.mod_pos_bound i (cardCount a) Hpos).
  destruct (i mod cardCount a <? 0) eqn:E'; [apply Z.ltb_lt in E'; lia |].
  reflexivity.
Qed.

Lemma getCardData_is_Some (a : App) (i : Z) :
  savedCards a <> [] -> is_Some (getCardData a i).
Proof.
  intros Hne. rewrite getCardData_lookup by exact Hne.
  apply lookup_lt_is_Some.
  pose proof (Z.mod_pos_bound i (cardCount a) (cardCount_pos a Hne)).
  unfold cardCount in *. lia.
Qed.

(** C1.  For every integer index and every positive length the wrapped
    index of [getCardData] lies in [[0, N)] and is unchanged when the index
    is shifted by [N]; on an empty collection [getCardData] returns [null]
    without indexing, and on a non-empty one it returns the card stored at
    the wrapped index. *)
Theorem C1_cyclic_wrap (a : App) (i : Z) :
  (forall N : Z, 0 < N ->
     0 <= wrappedIndex i N < N /\ wrappedIndex (i + N) N = wrappedIndex i N)
  /\ (savedCards a = [] -> getCardData a i = None)
  /\ (savedCards a <> [] ->
      exists c, getCardData a i = Some c
                /\ savedCards a !! Z.to_nat (wrappedIndex i (cardCount a)) = Some c).
Proof.
  split; [| split].
  - intros N HN. split; [apply wrappedIndex_range, HN |].
    rewrite !wrappedIndex_mod by exact HN.
    rewrite <- (Z.mul_1_l N) at 1. apply Z.mod_add. lia.
  - intros Hnil. unfold getCardData, cardCount. rewrite Hnil. reflexivity.
  - intros Hne. destruct (getCardData_is_Some a i Hne) as [c Hc].
    exists c. split; [exact Hc |].
    rewrite wrappedIndex_mod by (apply cardCount_pos, Hne).
    rewrite <- getCardData_lookup by exact Hne. exact Hc.
Qed.

Lemma C1_cyclic_wrap_witness :
  (0 <= wrappedIndex (-4) 3 < 3 /\ wrappedIndex (-4 + 3) 3 = wrappedIndex (-4) 3)
  /\ getCardData initialApp (-4) = None
  /\ getCardData (stackOf [cardA; cardB; cardC]) (-4) = Some cardC.
Proof.
  destruct (C1_cyclic_wrap initialApp (-4)) as (Hwrap & Hempty & _).
  destruct (C1_cyclic_wrap (stackOf [cardA; cardB; cardC]) (-4)) as (_ & _ & Hfull).
  split; [apply Hwrap; lia |].
  split; [apply Hempty; reflexivity |].
  destruct Hfull as (c & Hc & _); [discriminate |].
  reflexivity.
Defined.

(** ** Runs *)

Lemma run_snoc (events : list Event) (e : Event) :
  run (events ++ [e]) = dispatch (run events) e.
Proof. unfold run. rewrite foldl_app. reflexivity. Qed.

Lemma reachable_run (events : list Event) : reachable (run events).
Proof. exists events. reflexivity. Qed.

Lemma reachable_step (m : Machine) (e : Event) :
  reachable m -> reachable (dispatch m e).
Proof. intros [events <-]. exists (events ++ [e]). apply run_snoc. Qed.

(** ** Render window *)

Lemma getCardData_two (a : App) (x y : WeatherCardData) (j : Z) :
  savedCards a = [x; y] ->
  getCardData a j = Some (if j mod 2 =? 0 then x else y).
Proof.
  intros Hs.
  rewrite getCardData_lookup by (rewrite Hs; discriminate).
  unfold cardCount. rewrite Hs. simpl length.
  change (Z.of_nat 2) with 2.
  pose proof (Z.mod_pos_bound j 2 ltac:(lia)) as Hb.
  destruct (j mod 2 =? 0) eqn:E.
  - apply Z.eqb_eq in E. rewrite E. reflexivity.
  - apply Z.eqb_neq in E. replace (j mod 2) with 1 by lia. reflexivity.
Qed.

Lemma mod2_shift (k d : Z) :
  (k + d) mod 2 = (k mod 2 + d mod 2) mod 2.
Proof. apply Z.add_mod. lia. Qed.

(** The cull taken alone: what the two guards of the window let through. *)
Lemma renderOffset_one (a : App) (c : WeatherCardData) :
  savedCards a = [c] ->
  offset <$> omap (renderOffset a) windowOffsets = [0]
  /\ cardData <$> omap (renderOffset a) windowOffsets = [c].
Proof.
  intros Hs.
  assert (Hget : forall j, getCardData a j = Some c).
  { intros j. rewrite getCardData_lookup by (rewrite Hs; discriminate).
    unfold cardCount. rewrite Hs. simpl length. change (Z.of_nat 1) with 1.
    rewrite Z.mod_1_r. reflexivity. }
  unfold windowOffsets, renderOffset. cbn [omap list_omap].
  assert (Hc : cardCount a = 1) by (unfold cardCount; rewrite Hs; reflexivity).
  rewrite !Hc.
  cbn -[getCardData getCardStyle Z.add].
  rewrite Hget. cbn -[getCardStyle]. split; reflexivity.
Qed.

Lemma renderOffset_two (a : App) (x y : WeatherCardData) :
  savedCards a = [x; y] ->
  exists c0 c1,
    [c0; c1] ≡ₚ [x; y]
    /\ offset <$> omap (renderOffset a) windowOffsets = [-2; -1; 0; 1]
    /\ cardData <$> omap (renderOffset a) windowOffsets = [c0; c1; c0; c1].
Proof.
  intros Hs.
  pose proof (getCardData_two a x y) as Hget.
  specialize (fun j => Hget j Hs).
  pose proof (Z.mod_pos_bound (activeIndex a) 2 ltac:(lia)) as Hb.
  exists (if activeIndex a mod 2 =? 0 then x else y),
         (if activeIndex a mod 2 =? 0 then y else x).
  split.
  { destruct (activeIndex a mod 2 =? 0); [reflexivity | apply Permutation_swap]. }
  unfold windowOffsets, renderOffset. cbn [omap list_omap].
  assert (Hc : cardCount a = 2) by (unfold cardCount; rewrite Hs; reflexivity).
  rewrite !Hc.
  cbn -[getCardData getCardStyle Z.add].
  rewrite !Hget.
  rewrite !(mod2_shift (activeIndex a)).
  change ((-2) mod 2) with 0. change ((-1) mod 2) with 1.
  change (0 mod 2) with 0. change (1 mod 2) with 1.
  destruct (activeIndex a mod 2 =? 0) eqn:E.
  - apply Z.eqb_eq in E. rewrite E. cbn -[getCardStyle]. split; reflexivity.
  - apply Z.eqb_neq in E. replace (activeIndex a mod 2) with 1 by lia.
    cbn -[getCardStyle]. split; reflexivity.
Qed.

Lemma cardCount_length (a : App) (n : nat) :
  cardCount a = Z.of_nat n -> length (savedCards a) = n.
Proof. unfold cardCount. lia. Qed.

(** C2, as amended.  With the stack mounted: a collection of one card
    renders offset 0 only; a collection of two renders exactly the offsets
    -2, -1, 0, 1 (the cull removes the positive offsets from 2 on, never a
    negative one), offsets 0 and 1 show the two cards of the collection
    once each (so with different ids when the collection has no duplicate
    id), and offsets -2 and -1 show the same two cards again. *)
Theorem C2_window_cull (a : App) :
  stackMounted a = true ->
  (cardCount a = 1 -> renderedOffsets a = [0])
  /\ (cardCount a = 2 ->
      exists c0 c1,
        [c0; c1] ≡ₚ savedCards a
        /\ renderedOffsets a = [-2; -1; 0; 1]
        /\ renderedCards a = [c0; c1; c0; c1]
        /\ (NoDup (cardId <$> savedCards a) -> cardId c0 <> cardId c1)).
Proof.
  intros Hm. unfold renderedOffsets, renderedCards, renderStack. rewrite Hm.
  split.
  - intros Hc. apply (cardCount_length a 1) in Hc.
    destruct (savedCards a) as [| c [| ? ?]] eqn:Hs; try discriminate.
    apply (renderOffset_one a c Hs).
  - intros Hc. apply (cardCount_length a 2) in Hc.
    destruct (savedCards a) as [| x [| y [| ? ?]]] eqn:Hs; try discriminate.
    destruct (renderOffset_two a x y Hs) as (c0 & c1 & Hp & Ho & Hd).
    exists c0, c1. repeat split; try assumption.
    intros Hnd. rewrite <- Hp in Hnd. cbn in Hnd.
    apply NoDup_cons in Hnd as [Hnin _].
    intros Heq. apply Hnin. rewrite Heq. apply list_elem_of_here.
Qed.

Lemma C2_window_cull_witness :
  renderedOffsets (stackOf [cardA]) = [0]
  /\ exists c0 c1,
       [c0; c1] ≡ₚ [cardA; cardB]
       /\ renderedOffsets (stackOf [cardA; cardB]) = [-2; -1; 0; 1]
       /\ renderedCards (stackOf [cardA; cardB]) = [c0; c1; c0; c1]
       /\ cardId c0 <> cardId c1.
Proof.
  split.
  - apply (C2_window_cull (stackOf [cardA])); reflexivity.
  - destruct (C2_window_cull (stackOf [cardA; cardB])) as [_ H]; [reflexivity |].
    destruct H as (c0 & c1 & Hp & Ho & Hd & Hid); [reflexivity |].
    exists c0, c1. repeat split; try assumption.
    apply Hid. apply (bool_decide_unpack _). vm_compute. exact I.
Defined.

(** C2 as stated fails for two cards: the offsets -2 and -1 are rendered
    as well, and they resolve to the cards already shown at 0 and 1. *)
Lemma C2_counterexample :
  cardCount (stackOf [cardA; cardB]) = 2
  /\ renderedOffsets (stackOf [cardA; cardB]) = [-2; -1; 0; 1]
  /\ renderedOffsets (stackOf [cardA; cardB]) <> [0; 1]
  /\ cardId <$> renderedCards (stackOf [cardA; cardB]) = ["a"; "b"; "a"; "b"]
  /\ ~ NoDup (cardId <$> renderedCards (stackOf [cardA; cardB])).
Proof.
  assert (Ho : renderedOffsets (stackOf [cardA; cardB]) = [-2; -1; 0; 1])
    by (vm_compute; reflexivity).
  assert (Hi : cardId <$> renderedCards (stackOf [cardA; cardB])
               = ["a"; "b"; "a"; "b"]) by (vm_compute; reflexivity).
  split; [reflexivity |]. split; [exact Ho |].
  split; [rewrite Ho; discriminate |]. split; [exact Hi |].
  rewrite Hi. intros Hnd. apply NoDup_cons in Hnd as [Hnin _].
  apply Hnin. apply (bool_decide_unpack _). vm_compute. exact I.
Qed.

(** ** Gestures *)

Lemma Qltb_lt (x y : Q) : Qltb x y = true <-> (x < y)%Q.
Proof.
  unfold Qltb. rewrite negb_true_iff, <- not_true_iff_false, Qle_bool_iff.
  split; [apply Qnot_le_lt | apply Qlt_not_le].
Qed.

Lemma Qltb_ge (x y : Q) : Qltb x y = false <-> (y <= x)%Q.
Proof.
  unfold Qltb. rewrite negb_false_iff. apply Qle_bool_iff.
Qed.

(** Every exit of [handleTouchEnd] on an armed gesture resets the drag
    cells; only [activeIndex] can differ otherwise. *)
Lemma handleTouchEnd_armed (a : App) (start : Q) :
  dragStartX a = Some start ->
  exists k,
    handleTouchEnd a
    = setIsDragging false (setDragStartX None (setDragX 0%Q (setActiveIndex k a)))
    /\ (k = activeIndex a \/ k = activeIndex a - 1 \/ k = activeIndex a + 1).
Proof.
  intros Hs. unfold handleTouchEnd. rewrite Hs.
  destruct (isDragging a) eqn:Hd;
    [destruct (Qltb SWIPE_THRESHOLD (Qabs (dragX a)));
     [destruct (Qltb 0 (dragX a)) |] |].
  - exists (activeIndex a - 1). split; [reflexivity | lia].
  - exists (activeIndex a + 1). split; [reflexivity | lia].
  - exists (activeIndex a). split; [destruct a; reflexivity | lia].
  - exists (activeIndex a). split; [destruct a; reflexivity | lia].
Qed.

Lemma gestureArmed_start (x : Q) (a : App) :
  gestureArmed a -> gestureArmed (handleTouchStart x a).
Proof.
  unfold gestureArmed, handleTouchStart. intros H.
  destruct (truthy (expandedCardId a) || nonNull (previewCard a)
            || (cardCount a =? 0)); [exact H |].
  intros _. cbn. eauto.
Qed.

Lemma gestureArmed_move (x : Q) (a : App) :
  gestureArmed a -> gestureArmed (handleTouchMove x a).
Proof.
  unfold gestureArmed, handleTouchMove. intros H.
  destruct (dragStartX a) as [start |] eqn:Hs; [| rewrite Hs; exact H].
  destruct (truthy (expandedCardId a) || nonNull (previewCard a));
    [rewrite Hs; exact H |].
  intros _.
  destruct (negb (isDragging a) && Qltb DRAG_THRESHOLD (Qabs (x - start)));
    destruct (isDragging a); cbn; rewrite ?Hs; eauto.
Qed.

Lemma gestureArmed_end (a : App) :
  gestureArmed a -> gestureArmed (handleTouchEnd a).
Proof.
  unfold gestureArmed. intros H. destruct (dragStartX a) as [start |] eqn:Hs.
  - destruct (handleTouchEnd_armed a start Hs) as (k & -> & _). discriminate.
  - unfold handleTouchEnd. rewrite Hs. intros Hd. rewrite Hs. exact (H Hd).
Qed.

(** Only the three gesture handlers write [isDragging] and the start
    ref. *)
Lemma dispatch_gestureArmed (m : Machine) (e : Event) :
  gestureArmed (app m) -> gestureArmed (app (dispatch m e)).
Proof.
  intros H.
  destruct e; cbn [dispatch];
    try solve [ destruct (stackMounted (app m)); [| exact H]; cbn [app onApp];
                first [ apply gestureArmed_start
                      | apply gestureArmed_move
                      | apply gestureArmed_end ]; exact H ];
    unfold_handlers; repeat case_match; simplify_eq; cbn; exact H.
Qed.

Lemma gestureArmed_reachable (m : Machine) :
  reachable m -> gestureArmed (app m).
Proof.
  intros [events <-]. induction events as [| e events IH] using rev_ind.
  - discriminate.
  - rewrite run_snoc. apply dispatch_gestureArmed, IH.
Qed.

(** The release reads the [dragX] cell: with a gesture armed and a drag in
    progress, an absolute [dragX] of at most [SWIPE_THRESHOLD] leaves
    [activeIndex], a larger one decrements it for a positive [dragX] and
    increments it for a negative one; the drag cells are reset on every
    path. *)
Lemma release_reads_dragX (a : App) :
  is_Some (dragStartX a) ->
  isDragging a = true ->
  let a' := handleTouchEnd a in
  ((Qabs (dragX a) <= SWIPE_THRESHOLD)%Q -> activeIndex a' = activeIndex a)
  /\ ((SWIPE_THRESHOLD < Qabs (dragX a))%Q -> (0 < dragX a)%Q ->
      activeIndex a' = activeIndex a - 1)
  /\ ((SWIPE_THRESHOLD < Qabs (dragX a))%Q -> (dragX a < 0)%Q ->
      activeIndex a' = activeIndex a + 1)
  /\ dragX a' = 0%Q /\ isDragging a' = false /\ dragStartX a' = None.
Proof.
  intros [start Hs] Hd a'. subst a'.
  split; [| split; [| split]].
  - intros H. apply Qltb_ge in H.
    unfold handleTouchEnd. rewrite Hs, Hd, H. reflexivity.
  - intros Hgt Hpos. apply Qltb_lt in Hgt, Hpos.
    unfold handleTouchEnd. rewrite Hs, Hd, Hgt, Hpos. reflexivity.
  - intros Hgt Hneg. apply Qltb_lt in Hgt.
    assert (Hn : Qltb 0 (dragX a) = false) by (apply Qltb_ge, Qlt_le_weak, Hneg).
    unfold handleTouchEnd. rewrite Hs, Hd, Hgt, Hn. reflexivity.
  - destruct (handleTouchEnd_armed a start Hs) as (k & -> & _).
    repeat split.
Qed.

(** What the moves of a gesture do to a state whose stack takes gestures,
    by the phase of the gesture. *)
Lemma handleTouchMove_stackMounted (x : Q) (a : App) :
  stackMounted (handleTouchMove x a) = stackMounted a.
Proof.
  unfold handleTouchMove. repeat case_match; reflexivity.
Qed.

Lemma moves_keep_stack (moves : list Q) (a : App) :
  stackMounted a = true ->
  stackMounted (foldl (fun a x => handleTouchMove x a) a moves) = true.
Proof.
  revert a. induction moves as [| y moves IH]; intros a Ha; [exact Ha |].
  cbn [foldl]. apply IH. rewrite handleTouchMove_stackMounted. exact Ha.
Qed.

Lemma runFrom_moves (m : Machine) (moves : list Q) :
  stackMounted (app m) = true ->
  app (runFrom m (PointerMove <$> moves))
  = foldl (fun a x => handleTouchMove x a) (app m) moves.
Proof.
  revert m. induction moves as [| x moves IH]; intros m Hm; [reflexivity |].
  cbn [fmap list_fmap runFrom foldl dispatch]. rewrite Hm.
  change (foldl dispatch (onApp (handleTouchMove x) m) (PointerMove <$> moves))
    with (runFrom (onApp (handleTouchMove x) m) (PointerMove <$> moves)).
  rewrite IH; [reflexivity |].
  cbn [app onApp]. rewrite handleTouchMove_stackMounted. exact Hm.
Qed.

Lemma moves_below_threshold (start : Q) (pre : list Q) (a : App) :
  dragStartX a = Some start ->
  isDragging a = false ->
  Forall (fun p => (Qabs (p - start) <= DRAG_THRESHOLD)%Q) pre ->
  foldl (fun a x => handleTouchMove x a) a pre = a.
Proof.
  intros Hs Hd Hpre. induction Hpre as [| p pre Hp _ IH]; [reflexivity |].
  cbn [foldl].
  assert (Hstep : handleTouchMove p a = a).
  { unfold handleTouchMove. rewrite Hs, Hd.
    apply Qltb_ge in Hp. rewrite Hp.
    destruct (truthy (expandedCardId a) || nonNull (previewCard a)); reflexivity. }
  rewrite Hstep. exact IH.
Qed.

Lemma moves_while_dragging (start : Q) (post : list Q) (y : Q) (a : App) :
  dragStartX a = Some start ->
  isDragging a = true ->
  truthy (expandedCardId a) || nonNull (previewCard a) = false ->
  foldl (fun a x => handleTouchMove x a) a (post ++ [y])
  = setDragX (y - start) a.
Proof.
  intros Hs Hd Hg. rewrite foldl_app. cbn [foldl].
  assert (Hinv : exists d,
            foldl (fun a x => handleTouchMove x a) a post = a
            \/ foldl (fun a x => handleTouchMove x a) a post = setDragX d a).
  { induction post as [| p post IH] using rev_ind.
    - exists 0%Q. left. reflexivity.
    - exists (p - start)%Q. right. rewrite foldl_app. cbn [foldl].
      destruct IH as [d [-> | ->]];
        unfold handleTouchMove; cbn [dragStartX isDragging expandedCardId
                                     previewCard setDragX];
        rewrite Hs, Hd, Hg; reflexivity. }
  destruct Hinv as [d [-> | ->]];
    unfold handleTouchMove; cbn [dragStartX isDragging expandedCardId
                                 previewCard setDragX];
    rewrite Hs, Hd, Hg; reflexivity.
Qed.

(** C3.  A gesture on the stack at rest: the pointer goes down, makes any
    number of moves within [DRAG_THRESHOLD] of the start, a move [x]
    beyond it, then the moves [post], and is released.  The gesture ends
    while dragging, and on every path the drag state is reset ([dragX] 0,
    not dragging, start cleared).  When [post] is not empty, [dragX]
    holds the final delta and the release does what the claim says: no
    commit up to [SWIPE_THRESHOLD], [activeIndex] decremented beyond it
    for a positive delta and incremented for a negative one.  When the
    move [x] is the last one, [dragX] is still 0 at the release and
    [activeIndex] is unchanged however large the final delta is: the move
    that starts a drag records no delta, and there the claim fails. *)
Theorem C3_swipe_commit (m : Machine) (start x : Q) (pre post : list Q) :
  stackMounted (app m) = true ->
  previewCard (app m) = None ->
  isDragging (app m) = false ->
  dragX (app m) = 0%Q ->
  Forall (fun p => (Qabs (p - start) <= DRAG_THRESHOLD)%Q) pre ->
  (DRAG_THRESHOLD < Qabs (x - start))%Q ->
  let held := runFrom m (gesture start (pre ++ x :: post)) in
  let released := dispatch held PointerUp in
  let delta := (default x (last post) - start)%Q in
  isDragging (app held) = true
  /\ (post = [] ->
      dragX (app held) = 0%Q
      /\ activeIndex (app released) = activeIndex (app m))
  /\ (post <> [] ->
      dragX (app held) = delta
      /\ ((Qabs delta <= SWIPE_THRESHOLD)%Q ->
          activeIndex (app released) = activeIndex (app m))
      /\ ((SWIPE_THRESHOLD < Qabs delta)%Q -> (0 < delta)%Q ->
          activeIndex (app released) = activeIndex (app m) - 1)
      /\ ((SWIPE_THRESHOLD < Qabs delta)%Q -> (delta < 0)%Q ->
          activeIndex (app released) = activeIndex (app m) + 1))
  /\ dragX (app released) = 0%Q
  /\ isDragging (app released) = false
  /\ dragStartX (app released) = None.
Proof.
  intros Hm Hp Hd Hx Hpre Hcross held released delta.
  assert (Hg : truthy (expandedCardId (app m)) || nonNull (previewCard (app m))
               = false).
  { unfold stackMounted in Hm. apply andb_true_iff in Hm as [_ He].
    apply negb_true_iff in He. rewrite He, Hp. reflexivity. }
  assert (Hn : (cardCount (app m) =? 0) = false).
  { unfold stackMounted in Hm. apply andb_true_iff in Hm as [Hc _].
    apply Z.ltb_lt in Hc. apply Z.eqb_neq. lia. }
  set (armed := setDragStartX (Some start) (app m)).
  set (dragging := setIsDragging true armed).
  assert (Hdown : dispatch m (PointerDown start) = onApp (handleTouchStart start) m
                  /\ handleTouchStart start (app m) = armed).
  { cbn [dispatch]. rewrite Hm. split; [reflexivity |].
    unfold handleTouchStart. rewrite Hg, Hn. reflexivity. }
  destruct Hdown as [Hdown Harmed].
  assert (Hheld : app held
                  = foldl (fun a x => handleTouchMove x a) dragging post
                  /\ stackMounted (app held) = true).
  { subst held. unfold gesture, runFrom. cbn [foldl]. rewrite Hdown.
    change (foldl dispatch (onApp (handleTouchStart start) m)
              (PointerMove <$> pre ++ x :: post))
      with (runFrom (onApp (handleTouchStart start) m)
              (PointerMove <$> pre ++ x :: post)).
    assert (Hm1 : stackMounted (app (onApp (handleTouchStart start) m)) = true).
    { cbn [app onApp]. rewrite Harmed. exact Hm. }
    rewrite (runFrom_moves _ _ Hm1). cbn [app onApp]. rewrite Harmed.
    split.
    - rewrite foldl_app. cbn [foldl].
      rewrite (moves_below_threshold start pre armed eq_refl Hd Hpre).
      assert (Hstart : handleTouchMove x armed = dragging).
      { unfold handleTouchMove.
        cbn [dragStartX isDragging expandedCardId previewCard armed
             setDragStartX].
        rewrite Hd, Hg. apply Qltb_lt in Hcross. rewrite Hcross. reflexivity. }
      rewrite Hstart. reflexivity.
    - apply moves_keep_stack. exact Hm. }
  destruct Hheld as [Hheld Hmounted].
  assert (Hreleased : app released = handleTouchEnd (app held)).
  { subst released. cbn [dispatch]. rewrite Hmounted. reflexivity. }
  assert (Hcases : (post = [] /\ app held = dragging)
                   \/ (post <> [] /\ app held = setDragX delta dragging)).
  { destruct post as [| y post] using rev_ind.
    - left. split; [reflexivity | exact Hheld].
    - right. split; [destruct post; discriminate |].
      rewrite Hheld. subst delta. rewrite last_snoc. cbn [default].
      apply moves_while_dragging; [reflexivity | reflexivity | exact Hg]. }
  rewrite Hreleased.
  destruct Hcases as [[Hpost Hh] | [Hpost Hh]]; rewrite Hh.
  - pose proof (release_reads_dragX dragging (mk_is_Some _ _ eq_refl) eq_refl)
      as (Hle & _ & _ & Hreset).
    cbv zeta in Hle, Hreset.
    split; [reflexivity |]. split; [| split; [intros Hne; contradiction |]].
    + intros _. split; [exact Hx |].
      rewrite Hle; [reflexivity |].
      cbn [dragX dragging armed setIsDragging setDragStartX]. rewrite Hx.
      discriminate.
    + exact Hreset.
  - pose proof (release_reads_dragX (setDragX delta dragging)
                  (mk_is_Some _ _ eq_refl) eq_refl)
      as (Hle & Hright & Hleft & Hreset).
    cbv zeta in Hle, Hright, Hleft, Hreset.
    split; [reflexivity |]. split; [intros He; contradiction |].
    split; [| exact Hreset].
    intros _. split; [reflexivity |].
    split; [exact Hle |]. split; [exact Hright | exact Hleft].
Qed.

Lemma C3_swipe_commit_witness :
  isDragging (app (runFrom (run threeCards) (gesture 200 [203%Q; 350%Q]))) = true
  /\ activeIndex
       (app (dispatch (runFrom (run threeCards) (gesture 200 [203%Q; 350%Q]))
               PointerUp))
     = activeIndex (app (run threeCards))
  /\ activeIndex
       (app (dispatch (runFrom (run threeCards) (gesture 200 [203%Q; 350%Q; 301%Q]))
               PointerUp))
     = activeIndex (app (run threeCards)) - 1.
Proof.
  assert (Hpre : Forall (fun p : Q => (Qabs (p - 200) <= DRAG_THRESHOLD)%Q) [203%Q]).
  { apply Forall_cons_2; [discriminate | apply Forall_nil_2]. }
  pose proof (C3_swipe_commit (run threeCards) 200 350 [203%Q] []
                eq_refl eq_refl eq_refl eq_refl Hpre eq_refl)
    as (Hd & Hone & _).
  pose proof (C3_swipe_commit (run threeCards) 200 350 [203%Q] [301%Q]
                eq_refl eq_refl eq_refl eq_refl Hpre eq_refl)
    as (_ & _ & Htwo & _).
  split; [exact Hd |]. split.
  - apply Hone. reflexivity.
  - destruct Htwo as (_ & _ & Hright & _); [discriminate |].
    apply Hright; reflexivity.
Defined.

(** The release reads [dragX], the last delta [handleTouchMove] recorded.
    The move that takes the gesture over [DRAG_THRESHOLD] sets
    [isDragging] and records nothing: [dragX] follows the pointer from the
    next move on. *)
Lemma first_move_starts_drag :
  isDragging (handleTouchMove 350 (handleTouchStart 200 (stackOf [cardA; cardB]))) = true
  /\ dragX (handleTouchMove 350 (handleTouchStart 200 (stackOf [cardA; cardB]))) = 0%Q
  /\ (dragX (handleTouchMove 351
              (handleTouchMove 350 (handleTouchStart 200 (stackOf [cardA; cardB]))))
      == 151)%Q.
Proof. repeat split. Qed.

(** Taken alone, [handleTouchMove] does not test for an empty collection:
    it is the unarmed start ref, or the unmounted stack, that keeps a move
    from having an effect there. *)
Lemma handleTouchMove_unguarded_when_empty :
  savedCards (setDragStartX (Some 0%Q) initialApp) = []
  /\ isDragging (handleTouchMove 50 (setDragStartX (Some 0%Q) initialApp)) = true
  /\ stackMounted (setDragStartX (Some 0%Q) initialApp) = false.
Proof. repeat split. Qed.

(** ** View modes *)

Lemma stackMounted_expanded (a : App) :
  expandedActive a = true -> stackMounted a = false.
Proof.
  unfold expandedActive, stackMounted. intros ->.
  rewrite andb_false_r. reflexivity.
Qed.

(** C4.  The claim fails on a run of the component.  [cardA] is searched
    for and previewed, and its refresh is requested from the preview; the
    preview is saved, which brings the stack back with no preview shown,
    and the centre card is clicked and expanded.  After each of these
    events at most one of [expandedCardId] and [previewCard] is set, and
    no click is delivered while a preview is shown.  Then the refresh
    settles: [handleRefresh] tests the [previewCard] of the render it was
    called in, which still holds [cardA], and puts the rebuilt card in
    [previewCard].  The card stays expanded, so [expandedCardId] and
    [previewCard] are set together, while the collection still holds the
    card as it was. *)
Theorem C4_stale_refresh_sets_both_modes :
  (forall n : nat,
     let a := app (run (take n refreshThenExpand)) in
     expandedCardId a = None \/ previewCard a = None)
  /\ previewCard (app (run (searchPreview cardA))) = Some cardA
  /\ closedPreview <$> refreshes (run (searchPreview cardA ++ [RefreshPreview]))
     = [Some cardA]
  /\ previewCard (app (run (searchPreview cardA ++ [RefreshPreview; SavePreview])))
     = None
  /\ expandedCardId (app (run refreshThenExpand)) = Some "a"
  /\ previewCard (app (run refreshThenExpand)) = None
  /\ reachable (run staleRefresh)
  /\ expandedCardId (app (run staleRefresh)) = Some "a"
  /\ cardId <$> previewCard (app (run staleRefresh)) = Some "c"
  /\ savedCards (app (run staleRefresh)) = [cardA]
  /\ expandedActive (app (run staleRefresh)) = true
  /\ previewActive (app (run staleRefresh)) = true.
Proof.
  split.
  - intros n.
    assert (Hn : (n = 0 \/ n = 1 \/ n = 2 \/ n = 3 \/ n = 4 \/ n = 5
                  \/ 6 <= n)%nat) by lia.
    destruct Hn as [-> | [-> | [-> | [-> | [-> | [-> | Hn]]]]]];
      try (vm_compute; auto; fail).
    rewrite take_ge by (vm_compute; exact Hn).
    vm_compute. auto.
  - split; [vm_compute; reflexivity |].
    split; [vm_compute; reflexivity |].
    split; [vm_compute; reflexivity |].
    split; [vm_compute; reflexivity |].
    split; [vm_compute; reflexivity |].
    split; [apply reachable_run |].
    vm_compute. repeat split.
Qed.

(** ** Preview *)

Lemma getCardData_last (cards : list WeatherCardData) (c : WeatherCardData) (a : App) :
  savedCards a = cards ++ [c] ->
  getCardData a (Z.of_nat (length cards)) = Some c.
Proof.
  intros Hs.
  rewrite getCardData_lookup by (rewrite Hs; destruct cards; discriminate).
  unfold cardCount. rewrite Hs, length_app. simpl length.
  rewrite Z.mod_small by lia.
  rewrite Nat2Z.id. rewrite lookup_app_r by lia.
  rewrite Nat.sub_diag. reflexivity.
Qed.

(** C5.  Saving a preview appends the preview card, and only it, to the
    collection, sets [activeIndex] to the length before the append, which
    wraps to the last slot of the new collection, where the saved card is;
    the preview is cleared.  Cancelling clears the preview and leaves the
    collection as it was. *)
Theorem C5_save_preview (a : App) (p : WeatherCardData) :
  previewCard a = Some p ->
  let a' := handleSavePreview a in
  savedCards a' = savedCards a ++ [p]
  /\ length (savedCards a') = S (length (savedCards a))
  /\ activeIndex a' = Z.of_nat (length (savedCards a))
  /\ wrappedIndex (activeIndex a') (cardCount a') = cardCount a' - 1
  /\ getCardData a' (activeIndex a') = Some p
  /\ previewCard a' = None
  /\ savedCards (cancelPreview a) = savedCards a
  /\ previewCard (cancelPreview a) = None.
Proof.
  intros Hp a'. subst a'. unfold handleSavePreview. rewrite Hp. cbn.
  split; [reflexivity |].
  split; [rewrite length_app; simpl; lia |].
  split; [reflexivity |].
  split.
  - unfold cardCount. cbn. rewrite length_app. simpl length.
    rewrite wrappedIndex_mod by lia. rewrite Z.mod_small by lia. lia.
  - split; [| repeat split].
    unfold cardCount. apply getCardData_last. reflexivity.
Qed.

Lemma C5_save_preview_witness :
  savedCards (handleSavePreview (previewing cardC [cardA; cardB]))
  = [cardA; cardB; cardC]
  /\ activeIndex (handleSavePreview (previewing cardC [cardA; cardB])) = 2
  /\ getCardData (handleSavePreview (previewing cardC [cardA; cardB])) 2
     = Some cardC
  /\ previewCard (handleSavePreview (previewing cardC [cardA; cardB])) = None
  /\ savedCards (cancelPreview (previewing cardC [cardA; cardB]))
     = [cardA; cardB].
Proof.
  destruct (C5_save_preview (previewing cardC [cardA; cardB]) cardC eq_refl)
    as (Hs & _ & Hi & _ & Hg & Hp & Hc & _).
  split; [exact Hs |]. split; [exact Hi |].
  split; [rewrite Hi in Hg; exact Hg |]. split; [exact Hp | exact Hc].
Defined.

(** ** Layout *)

Local Open Scope Q_scope.

Lemma Qabs_bounds (p : Q) : - Qabs p <= p <= Qabs p.
Proof.
  split; [| apply Qle_Qabs].
  pose proof (Qle_Qabs (- p)) as H. rewrite Qabs_opp in H. lra.
Qed.

Lemma within_product (p M eps : Q) :
  0 <= M -> Qabs p * M < eps -> - eps < p * M < eps.
Proof.
  intros HM H. apply Qabs_Qlt_condition.
  rewrite Qabs_Qmult, (Qabs_pos M) by exact HM. exact H.
Qed.

(** Near [progress = 0] neither fade has started. *)
Lemma fades_off (p : Q) :
  Qabs p < 0.2 -> Qltb p (-0.2) = false /\ Qltb 3 p = false.
Proof.
  intros H. pose proof (Qabs_bounds p).
  split; apply Qltb_ge; lra.
Qed.

(** C6.  For a viewport of positive width, [getCardStyle] is continuous
    at [progress = 0]: for every tolerance there is a neighbourhood of 0
    such that whenever [progress] lies in it, on the discard side
    ([progress < 0]) or on the stack side ([progress >= 0]), [translateX]
    is within the tolerance of 0 and [scale] and [opacity] are within the
    tolerance of 1; at [progress = 0] they are 0, 1 and 1. *)
Theorem C6_layout_continuity (w eps : Q) :
  0 < w -> 0 < eps ->
  exists delta : Q,
    0 < delta
    /\ (forall (a : App) (relativeOffset : Q),
          screenWidth a = w ->
          Qabs (progressOf a relativeOffset) < delta ->
          Qabs (translateX (getCardStyle a relativeOffset) - 0) < eps
          /\ Qabs (scale (getCardStyle a relativeOffset) - 1) < eps
          /\ Qabs (opacity (getCardStyle a relativeOffset) - 1) < eps)
    /\ (forall (a : App) (relativeOffset : Q),
          screenWidth a = w ->
          progressOf a relativeOffset == 0 ->
          translateX (getCardStyle a relativeOffset) == 0
          /\ scale (getCardStyle a relativeOffset) == 1
          /\ opacity (getCardStyle a relativeOffset) == 1).
Proof.
  intros Hw Heps.
  set (P := Qabs (- (w / 2) - Qmin 340 (w * 0.9) / 2 + 20)).
  assert (HP : 0 <= P) by apply Qabs_nonneg.
  assert (Hnear : forall (a : App) (relativeOffset : Q),
            screenWidth a = w ->
            Qabs (progressOf a relativeOffset) < 0.2 ->
            Qabs (progressOf a relativeOffset) * (P + 20) < eps ->
            Qabs (translateX (getCardStyle a relativeOffset) - 0) < eps
            /\ Qabs (scale (getCardStyle a relativeOffset) - 1) < eps
            /\ Qabs (opacity (getCardStyle a relativeOffset) - 1) < eps).
  { intros a off Hsw Hp1 Hmul.
    unfold getCardStyle. rewrite Hsw. fold P.
    set (p := progressOf a off) in *.
    pose proof (Qabs_bounds p) as Hb.
    pose proof (Qabs_nonneg p) as Hn.
    pose proof (Qmult_le_0_compat _ _ Hn HP) as HnP.
    destruct (fades_off p Hp1) as [Hf1 Hf2].
    assert (HpP : - eps < p * P < eps) by (apply within_product; [exact HP | lra]).
    destruct (Qltb p 0) eqn:E; cbv iota beta zeta;
      cbn [translateX scale opacity]; rewrite ?Hf1, ?Hf2.
    - apply Qltb_lt in E.
      split; [apply Qabs_Qlt_condition; lra |].
      split; [| apply Qabs_Qlt_condition; lra].
      apply Qabs_Qlt_condition.
      destruct (Q.max_spec p (-1)) as [[? Hm1] | [? Hm1]];
        destruct (Q.max_spec 0.5 (1 + Qmax p (-1) * 0.05)) as [[? Hm2] | [? Hm2]];
        lra.
    - apply Qltb_ge in E.
      split; [apply Qabs_Qlt_condition; lra |].
      split; [| apply Qabs_Qlt_condition; lra].
      apply Qabs_Qlt_condition.
      destruct (Q.max_spec 0.5 (1 - p * 0.05)) as [[? Hm2] | [? Hm2]]; lra. }
  exists (Qmin 0.2 (eps / (P + 20))).
  split; [| split].
  - apply Q.min_glb_lt; [reflexivity | apply Qlt_shift_div_l; lra].
  - intros a off Hsw Hp.
    apply Q.min_glb_lt_iff in Hp as [Hp1 Hp2].
    apply (Hnear a off Hsw Hp1).
    apply (Qmult_lt_compat_r _ _ (P + 20)) in Hp2; [| lra].
    rewrite (Qmult_comm (eps / (P + 20))), Qmult_div_r in Hp2; [exact Hp2 | lra].
  - intros a off Hsw H0.
    assert (Hz : Qabs (progressOf a off) == 0) by (rewrite H0; reflexivity).
    unfold getCardStyle. rewrite Hsw. fold P.
    set (p := progressOf a off) in *.
    pose proof (Qabs_bounds p) as Hb.
    assert (Hp0 : p == 0) by lra.
    assert (E : Qltb p 0 = false) by (apply Qltb_ge; lra).
    assert (Hf : Qabs p < 0.2) by lra.
    destruct (fades_off p Hf) as [Hf1 Hf2].
    rewrite E. cbv iota beta zeta. cbn [translateX scale opacity].
    rewrite Hf2.
    split; [rewrite Hp0; lra |]. split; [| reflexivity].
    destruct (Q.max_spec 0.5 (1 - p * 0.05)) as [[? Hm2] | [? Hm2]]; lra.
Qed.

Lemma C6_layout_continuity_witness :
  (exists delta : Q,
     0 < delta
     /\ (Qabs (progressOf initialApp 0) < delta ->
         Qabs (translateX (getCardStyle initialApp 0) - 0) < 1 # 1000
         /\ Qabs (scale (getCardStyle initialApp 0) - 1) < 1 # 1000
         /\ Qabs (opacity (getCardStyle initialApp 0) - 1) < 1 # 1000))
  /\ translateX (getCardStyle initialApp 0) == 0
  /\ scale (getCardStyle initialApp 0) == 1
  /\ opacity (getCardStyle initialApp 0) == 1.
Proof.
  destruct (C6_layout_continuity 375 (1 # 1000))
    as (delta & Hd & Hnear & Hat); [reflexivity | reflexivity |].
  split.
  - exists delta. split; [exact Hd |].
    apply (Hnear initialApp 0). reflexivity.
  - apply (Hat initialApp 0); reflexivity.
Defined.

Local Close Scope Q_scope.

(** ** Disabled gestures *)

Lemma onApp_id (f : App -> App) (m : Machine) :
  f (app m) = app m -> onApp f m = m.
Proof. intros H. destruct m. unfold onApp. cbn in *. rewrite H. reflexivity. Qed.

Lemma stackMounted_empty (a : App) :
  savedCards a = [] -> stackMounted a = false.
Proof. unfold stackMounted, cardCount. intros ->. reflexivity. Qed.

(** The guard of [handleTouchStart] covers the three conditions. *)
Lemma handleTouchStart_guard (x : Q) (a : App) :
  expandedActive a = true \/ previewActive a = true \/ savedCards a = [] ->
  handleTouchStart x a = a.
Proof.
  unfold expandedActive, previewActive, handleTouchStart, cardCount.
  intros [-> | [-> | ->]]; [reflexivity | | ].
  - rewrite orb_true_r. reflexivity.
  - rewrite !orb_true_r. reflexivity.
Qed.

(** The guard of [handleTouchMove] tests the two view modes and whether a
    gesture is armed; it does not test the collection. *)
Lemma handleTouchMove_guard (x : Q) (a : App) :
  expandedActive a = true \/ previewActive a = true \/ dragStartX a = None ->
  handleTouchMove x a = a.
Proof.
  unfold expandedActive, previewActive, handleTouchMove.
  intros [-> | [-> | ->]]; [| | reflexivity].
  - destruct (dragStartX a); reflexivity.
  - rewrite orb_true_r. destruct (dragStartX a); reflexivity.
Qed.

(** C7.  While a card is expanded, or a preview is shown, or the
    collection is empty, a pointer-down and a pointer-move on the stack
    change nothing: the state after the event, including the drag cells,
    [activeIndex], [state] and [errorMsg], is the state before it. *)
Theorem C7_gestures_disabled (m : Machine) (x : Q) :
  expandedActive (app m) = true
  \/ previewActive (app m) = true
  \/ savedCards (app m) = [] ->
  dispatch m (PointerDown x) = m
  /\ dispatch m (PointerMove x) = m
  /\ handleTouchStart x (app m) = app m.
Proof.
  intros H. split; [| split].
  - cbn. destruct (stackMounted (app m)); [| reflexivity].
    apply onApp_id, handleTouchStart_guard, H.
  - cbn. destruct H as [H | [H | H]].
    + rewrite (stackMounted_expanded _ H). reflexivity.
    + destruct (stackMounted (app m)); [| reflexivity].
      apply onApp_id, handleTouchMove_guard. auto.
    + rewrite (stackMounted_empty _ H). reflexivity.
  - apply handleTouchStart_guard, H.
Qed.

Lemma C7_gestures_disabled_witness :
  dispatch previewOverStackMachine (PointerDown 10) = previewOverStackMachine
  /\ dispatch previewOverStackMachine (PointerMove 200) = previewOverStackMachine
  /\ dispatch initialMachine (PointerMove 200) = initialMachine.
Proof.
  destruct (C7_gestures_disabled previewOverStackMachine 10) as (Hd & _);
    [right; left; reflexivity |].
  destruct (C7_gestures_disabled previewOverStackMachine 200) as (_ & Hm & _);
    [right; left; reflexivity |].
  destruct (C7_gestures_disabled initialMachine 200) as (_ & He & _);
    [right; right; reflexivity |].
  split; [exact Hd | split; [exact Hm | exact He]].
Defined.

(** ** Refresh *)

Lemma truthy_Some (s : string) : s <> "" -> truthy (Some s) = true.
Proof. intros H. cbn. apply negb_true_iff, String.eqb_neq, H. Qed.

Lemma getCardData_elem (a : App) (i : Z) (c : WeatherCardData) :
  getCardData a i = Some c -> c ∈ savedCards a.
Proof.
  unfold getCardData, js_index. intros H.
  repeat case_match; try discriminate.
  eapply list_elem_of_lookup_2, H.
Qed.

Lemma renderedAt_elem (a : App) (off : Z) (rc : RenderedCard) :
  renderedAt a off = Some rc -> cardData rc ∈ savedCards a.
Proof.
  unfold renderedAt, renderOffset. intros H.
  repeat case_match; simplify_eq. cbn.
  eapply getCardData_elem. eassumption.
Qed.

Lemma expandedCard_elem (a : App) (c : WeatherCardData) :
  expandedCard a = Some c -> c ∈ savedCards a.
Proof.
  unfold expandedCard. intros H.
  destruct (expandedCardId a); [| discriminate].
  destruct (list_find _ (savedCards a)) as [[i c'] |] eqn:Hf; [| discriminate].
  cbn in H. simplify_eq.
  apply list_find_Some in Hf as (Hl & _). eapply list_elem_of_lookup_2, Hl.
Qed.

Lemma targetCard_id (m : Machine) (c : WeatherCardData) :
  idsPresent m -> targetCard (app m) = Some c -> cardId c <> "".
Proof.
  intros (Hs & Hp & _). unfold targetCard. intros H.
  destruct (previewCard (app m)) as [p |] eqn:E.
  - simplify_eq. apply Hp. reflexivity.
  - destruct (truthy (expandedCardId (app m))); [| discriminate].
    apply expandedCard_elem in H.
    rewrite Forall_forall in Hs. apply Hs, H.
Qed.

Lemma replaceCard_ids (target : string) (u : WeatherCardData)
    (cards : list WeatherCardData) :
  cardId u <> "" ->
  Forall (fun c => cardId c <> "") cards ->
  Forall (fun c => cardId c <> "") (replaceCard target u cards).
Proof.
  intros Hu Hc. unfold replaceCard. apply Forall_fmap.
  eapply Forall_impl; [exact Hc |].
  intros c Hid. cbn. destruct (decide (cardId c = target)); assumption.
Qed.

Lemma refreshedCard_id (sv : Services) (card u : WeatherCardData) :
  issuesIds sv -> cardId card <> "" ->
  refreshedCard sv card = Some u -> cardId u <> "".
Proof.
  intros [Hw _] Hc. unfold refreshedCard. intros H.
  destruct (isFictional (weather card)).
  - destruct (regenerateFantasyScene sv (weather card)); simplify_eq. exact Hc.
  - destruct (getWeatherData sv (location (weather card))) as [wd |] eqn:E;
      [| discriminate].
    destruct (generateWeatherScene sv wd); [| discriminate].
    destruct (getCityNativeName sv (city wd) (country wd)); simplify_eq.
    cbn. eapply Hw, E.
Qed.

Lemma applyCardUpdate_ids (m : Machine) (u : WeatherCardData) :
  cardId u <> "" -> idsPresent m ->
  idsPresent (onApp (applyCardUpdate u) m).
Proof.
  intros Hu (Hs & Hp & Hk & Hq). unfold applyCardUpdate, onApp, idsPresent.
  repeat case_match; cbn; repeat split; try assumption.
  - intros p [= <-]. exact Hu.
  - apply replaceCard_ids; assumption.
Qed.

Lemma applyCardUpdate_refreshing (u : WeatherCardData) (a : App) :
  refreshingCardId (applyCardUpdate u a) = refreshingCardId a.
Proof. unfold applyCardUpdate. repeat case_match; reflexivity. Qed.

Lemma startRefresh_inv (m : Machine) (c : WeatherCardData) :
  cardId c <> "" ->
  idsPresent m /\ singleFlight m ->
  idsPresent (startRefresh (Some c) m) /\ singleFlight (startRefresh (Some c) m).
Proof.
  intros Hc [(Hs & Hp & Hk & Hq) Hf]. unfold startRefresh, handleRefresh.
  destruct (truthy (refreshingCardId (app m))) eqn:Ht.
  - cbn [option_list]. rewrite app_nil_r.
    split; [repeat split; assumption | exact Hf].
  - destruct Hf as [[Hnil Hnone] | (k & Hone & Hid)].
    + split.
      * repeat split; cbn; try assumption.
        rewrite Hnil. cbn. repeat constructor. exact Hc.
      * right. eexists. cbn. rewrite Hnil. split; reflexivity.
    + exfalso. rewrite Hone in Hk. apply Forall_cons in Hk as [Hk _].
      rewrite Hid, (truthy_Some _ Hk) in Ht. discriminate.
Qed.

Lemma filter_keeps_ids (rid : string) (cards : list WeatherCardData) :
  Forall (fun c => cardId c <> "") cards ->
  Forall (fun c => cardId c <> "") (filter (fun c => cardId c <> rid) cards).
Proof.
  rewrite !Forall_forall. intros H c Hc.
  apply list_elem_of_filter in Hc as [_ Hc]. apply H, Hc.
Qed.

Lemma saved_id (m : Machine) (c : WeatherCardData) :
  idsPresent m -> c ∈ savedCards (app m) -> cardId c <> "".
Proof. intros (Hs & _) Hc. rewrite Forall_forall in Hs. apply Hs, Hc. Qed.

Lemma dispatch_refreshInv (m : Machine) (e : Event) :
  eventOk e ->
  idsPresent m /\ singleFlight m ->
  idsPresent (dispatch m e) /\ singleFlight (dispatch m e).
Proof.
  intros Hok Hinv.
  destruct e; cbn [dispatch eventOk] in *;
    try solve [ unfold idsPresent, singleFlight in *;
                unfold handleTouchStart, handleTouchMove, handleTouchEnd;
                unfold_handlers; repeat case_match; simplify_eq; cbn;
                exact Hinv ].
  - (* RemoveClick *)
    destruct (renderedAt (app m) 0); [| exact Hinv].
    destruct Hinv as [(Hs & Hp & Hk & Hq) Hf].
    unfold idsPresent, singleFlight, onApp, handleRemoveCard.
    split; [| repeat case_match; exact Hf].
    repeat case_match; cbn; repeat split; try assumption;
      apply filter_keeps_ids, Hs.
  - (* RefreshStack *)
    destruct (renderedAt (app m) off) as [rc |] eqn:Hrc; [| exact Hinv].
    apply startRefresh_inv; [| exact Hinv].
    apply (saved_id m); [apply Hinv | eapply renderedAt_elem, Hrc].
  - (* RefreshExpanded *)
    destruct (expandedMounted (app m)); [| exact Hinv].
    destruct (expandedCard (app m)) as [c |] eqn:Hc; [| exact Hinv].
    apply startRefresh_inv; [| exact Hinv].
    apply (saved_id m); [apply Hinv | apply expandedCard_elem, Hc].
  - (* RefreshPreview *)
    destruct (previewCard (app m)) as [p |] eqn:Hp; [| exact Hinv].
    apply startRefresh_inv; [| exact Hinv].
    destruct Hinv as [(_ & Hpv & _) _]. apply Hpv, Hp.
  - (* RefreshSettled *)
    destruct (refreshes m !! i) as [k |] eqn:Hk; [| exact Hinv].
    destruct Hinv as [(Hs & Hp & Hks & Hq) [[Hnil _] | (k' & Hone & Hid)]];
      [rewrite Hnil in Hk; discriminate |].
    rewrite Hone in Hk, Hks.
    destruct i; [| discriminate]. cbn in Hk. simplify_eq.
    apply Forall_cons in Hks as [Hkid _].
    split; [| left; rewrite Hone; split; reflexivity].
    unfold idsPresent, handleRefresh_resume. rewrite Hone. cbn [delete].
    destruct (refreshedCard sv (refreshed k)) as [u |] eqn:Hu.
    + pose proof (refreshedCard_id sv _ u Hok Hkid Hu) as Huid.
      destruct (previewIs (closedPreview k) (refreshed k)); cbn;
        repeat split; try assumption; try constructor.
      * intros p [= <-]. exact Huid.
      * apply replaceCard_ids; assumption.
    + cbn. repeat split; try assumption. constructor.
  - (* CancelPreview *)
    destruct (previewMounted (app m)); [| exact Hinv].
    destruct Hinv as [(Hs & Hp & Hk & Hq) Hf].
    split; [repeat split; cbn; try assumption; discriminate | exact Hf].
  - (* SavePreview *)
    destruct (previewMounted (app m)); [| exact Hinv].
    destruct Hinv as [(Hs & Hp & Hk & Hq) Hf].
    unfold idsPresent, singleFlight, onApp, handleSavePreview.
    destruct (previewCard (app m)) as [p |] eqn:E; cbn;
      [| split; [repeat split; try assumption; rewrite E; exact Hp | exact Hf]].
    split; [| exact Hf].
    repeat split; try assumption; [| discriminate].
    apply Forall_app. split; [exact Hs |].
    repeat constructor. apply Hp. reflexivity.
  - (* ImageUpdate *)
    destruct (expandedMounted (app m) || previewMounted (app m)); [| exact Hinv].
    destruct (targetCard (app m)) as [t |] eqn:Ht;
      [| rewrite onApp_id by (unfold handleImageUpdate; rewrite Ht; reflexivity);
         exact Hinv].
    replace (onApp (handleImageUpdate newImage) m)
      with (onApp (applyCardUpdate {| weather := weather t; image := newImage |}) m)
      by (unfold onApp, handleImageUpdate; rewrite Ht; reflexivity).
    split.
    + apply applyCardUpdate_ids; [| apply Hinv].
      apply (targetCard_id m t); [apply Hinv | exact Ht].
    + destruct Hinv as [_ Hf]. unfold singleFlight, onApp. cbn.
      rewrite applyCardUpdate_refreshing. exact Hf.
  - (* UpdateView *)
    destruct (expandedMounted (app m) || previewMounted (app m)); [| exact Hinv].
    destruct (targetCard (app m)) as [t |] eqn:Ht;
      [| rewrite onApp_id by (unfold handleUpdateView; rewrite Ht; reflexivity);
         exact Hinv].
    unfold handleUpdateView, onApp. rewrite Ht.
    match goal with
    | |- context [applyCardUpdate ?u (app m)] =>
        change (idsPresent (onApp (applyCardUpdate u) m)
                /\ singleFlight (onApp (applyCardUpdate u) m))
    end.
    split.
    + apply applyCardUpdate_ids; [| apply Hinv].
      apply (targetCard_id m t); [apply Hinv | exact Ht].
    + destruct Hinv as [_ Hf]. unfold singleFlight, onApp. cbn.
      rewrite applyCardUpdate_refreshing. exact Hf.
  - (* FantasySettled *)
    destruct (creations m !! i) as [config |]; [| exact Hinv].
    destruct Hinv as [(Hs & Hp & Hk & Hq) Hf]. destruct Hok as [_ Hc].
    unfold idsPresent, singleFlight, handleFantasyCreate_resume.
    destruct (generateCreativeWeatherData sv config) as [wd |] eqn:E;
      [destruct (generateFantasyScene sv config) |]; cbn;
      (split; [| exact Hf]); repeat split; try assumption.
    intros p [= <-]. cbn. eapply Hc, E.
  - (* Search *)
    destruct Hinv as [(Hs & Hp & Hk & Hq) Hf].
    unfold idsPresent, singleFlight, handleSearch.
    destruct (list_find _ (savedCards (app m))) as [[? ?] |]; cbn;
      (split; [| exact Hf]); repeat split; try assumption; try discriminate;
      apply Forall_app; split; try assumption; repeat constructor.
  - (* SearchSettled *)
    destruct (searches m !! i) as [k |] eqn:Hk'; [| exact Hinv].
    destruct Hinv as [(Hs & Hp & Hk & Hq) Hf]. destruct Hok as [Hw _].
    assert (Hk0 : searchHasId k).
    { rewrite Forall_forall in Hq. eapply Hq, list_elem_of_lookup_2, Hk'. }
    assert (Hq' : Forall searchHasId (delete i (searches m))).
    { apply Forall_delete, Hq. }
    unfold idsPresent, singleFlight, handleSearch_resume, searchFailed.
    destruct k; repeat case_match; simplify_eq; cbn;
      (split; [| exact Hf]); repeat split; try assumption;
      try (apply Forall_app; split; [exact Hq' |]; repeat constructor).
    + cbn. eapply Hw. eassumption.
    + intros p [= <-]. exact Hk0.
Qed.

(** On every run with collaborators that issue ids, at most one
    [handleRefresh] is suspended at any time, and it is the one
    [refreshingCardId] names: two completions of a refresh cannot be
    pending together. *)
Lemma singleFlight_run (events : list Event) :
  Forall eventOk events ->
  idsPresent (run events) /\ singleFlight (run events).
Proof.
  induction events as [| e events IH] using rev_ind; intros Hok.
  - split; [repeat split; try constructor; discriminate |].
    left. split; reflexivity.
  - apply Forall_app in Hok as [Hok He]. apply Forall_cons in He as [He _].
    rewrite run_snoc. apply dispatch_refreshInv; [exact He | apply IH, Hok].
Qed.

(** In such a state a non-null [refreshingCardId] passes the guard's
    truthiness test. *)
Lemma refreshing_set_truthy (m : Machine) :
  reachableWithIds m ->
  refreshingCardId (app m) <> None ->
  truthy (refreshingCardId (app m)) = true.
Proof.
  intros (events & Hok & <-) Hset.
  destruct (singleFlight_run events Hok) as [(_ & _ & Hk & _) Hf].
  destruct Hf as [[_ Hnone] | (k & Hone & Hid)]; [congruence |].
  rewrite Hone in Hk. apply Forall_cons in Hk as [Hk _].
  rewrite Hid. apply truthy_Some, Hk.
Qed.

(** C8.  While [refreshingCardId] is set (non-null in a state the
    component reaches with collaborators that issue ids; in any state,
    truthy, which is what the guard tests), [handleRefresh] returns at
    its guard for every card: it suspends no new request and the state,
    with every card in it, is unchanged; so is the component after a
    click on any of the refresh buttons, and the number of suspended
    refreshes stays what it was. *)
Theorem C8_single_flight (m : Machine) (card : WeatherCardData) (off : Z) :
  (reachableWithIds m /\ refreshingCardId (app m) <> None)
  \/ truthy (refreshingCardId (app m)) = true ->
  handleRefresh card (app m) = (app m, None)
  /\ dispatch m (RefreshStack off) = m
  /\ dispatch m RefreshExpanded = m
  /\ dispatch m RefreshPreview = m.
Proof.
  intros Hset.
  assert (Hr : truthy (refreshingCardId (app m)) = true).
  { destruct Hset as [[Hm Hs] | Ht]; [| exact Ht].
    apply refreshing_set_truthy; assumption. }
  assert (Hh : forall c, handleRefresh c (app m) = (app m, None))
    by (intros c; unfold handleRefresh; rewrite Hr; reflexivity).
  assert (Hs : forall o, startRefresh o m = m).
  { intros [c |]; [| reflexivity]. unfold startRefresh. rewrite Hh.
    destruct m. cbn. rewrite app_nil_r. reflexivity. }
  split; [apply Hh |]. cbn.
  split; [apply Hs |]. split; [| apply Hs].
  destruct (expandedMounted (app m)); [apply Hs | reflexivity].
Qed.

Lemma C8_single_flight_witness :
  handleRefresh cardB (app refreshingMachine) = (app refreshingMachine, None)
  /\ dispatch refreshingMachine (RefreshStack 1) = refreshingMachine
  /\ dispatch (run refreshingRun) (RefreshStack 0) = run refreshingRun.
Proof.
  destruct (C8_single_flight refreshingMachine cardB 1 (or_intror eq_refl))
    as (Hh & Hs & _).
  destruct (C8_single_flight (run refreshingRun) cardB 0) as (_ & Hs0 & _).
  { left. split; [| vm_compute; discriminate].
    exists refreshingRun. split; [| reflexivity].
    unfold refreshingRun, createPreview. cbn [Datatypes.app].
    repeat (apply Forall_cons; split); try apply Forall_nil; try exact I;
      split; intros ? ? [= <-]; vm_compute; discriminate. }
  split; [exact Hh | split; [exact Hs | exact Hs0]].
Defined.

(** ** Removal *)

(** C9.  Removing the only card of the collection by its id leaves the
    collection empty, [activeIndex] 0 and [state] [IDLE]. *)
Theorem C9_remove_sole_card (a : App) (c : WeatherCardData) :
  savedCards a = [c] ->
  savedCards (handleRemoveCard (cardId c) a) = []
  /\ activeIndex (handleRemoveCard (cardId c) a) = 0
  /\ state (handleRemoveCard (cardId c) a) = IDLE.
Proof.
  intros Hs. unfold handleRemoveCard. rewrite Hs.
  rewrite filter_cons_False by (intros H; apply H; reflexivity).
  rewrite filter_nil. cbn. repeat split.
Qed.

Lemma C9_remove_sole_card_witness :
  savedCards (handleRemoveCard "a" (stackOf [cardA])) = []
  /\ activeIndex (handleRemoveCard "a" (stackOf [cardA])) = 0
  /\ state (handleRemoveCard "a" (stackOf [cardA])) = IDLE.
Proof. apply (C9_remove_sole_card (stackOf [cardA]) cardA). reflexivity. Defined.

(** C10.  [handleRemoveCard] keeps the cards whose id differs from the
    given one, in their order, and drops the others and nothing else: the
    new collection is a sublist of the old one, none of its cards has the
    id, and together with the old cards that have the id it is a
    permutation of the old collection.  When the new collection is not
    empty, every other cell ([activeIndex], [state], the view mode, the
    drag state, ...) is unchanged; when it is empty, [activeIndex] and
    [state] are reset and the rest is unchanged. *)
Theorem C10_remove_frame (a : App) (rid : string) :
  let a' := handleRemoveCard rid a in
  savedCards a' `sublist_of` savedCards a
  /\ Forall (fun c => cardId c <> rid) (savedCards a')
  /\ filter (fun c => cardId c = rid) (savedCards a) ++ savedCards a'
     ≡ₚ savedCards a
  /\ (forall c, c ∈ savedCards a' <-> c ∈ savedCards a /\ cardId c <> rid)
  /\ (savedCards a' <> [] ->
      a' = setSavedCards (savedCards a') a
      /\ activeIndex a' = activeIndex a
      /\ state a' = state a
      /\ expandedCardId a' = expandedCardId a
      /\ previewCard a' = previewCard a)
  /\ (savedCards a' = [] ->
      a' = setSavedCards [] (setActiveIndex 0 (setState IDLE a))).
Proof.
  intros a'. subst a'. unfold handleRemoveCard.
  set (newCards := filter (fun c => cardId c <> rid) (savedCards a)).
  assert (Hs : forall b, savedCards (setSavedCards newCards b) = newCards)
    by reflexivity.
  rewrite !Hs.
  split; [apply sublist_filter |].
  split; [apply Forall_forall; intros c Hc;
          apply list_elem_of_filter in Hc; tauto |].
  split; [apply (filter_app_complement (fun c => cardId c = rid)) |].
  split; [intros c; unfold newCards; rewrite list_elem_of_filter; tauto |].
  split.
  - intros Hne.
    destruct (Z.of_nat (length newCards) =? 0) eqn:E.
    + apply Z.eqb_eq in E. destruct newCards; [congruence | simpl in E; lia].
    + repeat split.
  - intros Hnil. rewrite Hnil. reflexivity.
Qed.

Lemma C10_remove_frame_witness :
  savedCards (handleRemoveCard "b" (setActiveIndex 7 (stackOf [cardA; cardB; cardC])))
  = [cardA; cardC]
  /\ activeIndex (handleRemoveCard "b" (setActiveIndex 7 (stackOf [cardA; cardB; cardC])))
     = 7
  /\ state (handleRemoveCard "b" (setActiveIndex 7 (stackOf [cardA; cardB; cardC])))
     = IDLE.
Proof.
  destruct (C10_remove_frame (setActiveIndex 7 (stackOf [cardA; cardB; cardC])) "b")
    as (_ & _ & _ & _ & Hframe & _).
  destruct Hframe as (_ & Hi & Hst & _); [vm_compute; discriminate |].
  split; [vm_compute; reflexivity |]. split; [exact Hi | exact Hst].
Defined.

(** * Further properties of the component *)

(** ** Gesture recognition *)

(** X1.  Drag threshold of [handleTouchMove], for an armed gesture on the
    stack: while not dragging, a move of at most [DRAG_THRESHOLD] changes
    nothing and a larger one only sets [isDragging]; while dragging, every
    move, however small, records its delta in [dragX] and changes nothing
    else. *)
Theorem X1_drag_hysteresis (a : App) (start clientX : Q) :
  dragStartX a = Some start ->
  expandedActive a = false ->
  previewActive a = false ->
  (isDragging a = false ->
   (Qabs (clientX - start) <= DRAG_THRESHOLD)%Q ->
   handleTouchMove clientX a = a)
  /\ (isDragging a = false ->
      (DRAG_THRESHOLD < Qabs (clientX - start))%Q ->
      handleTouchMove clientX a = setIsDragging true a)
  /\ (isDragging a = true ->
      handleTouchMove clientX a = setDragX (clientX - start)%Q a).
Proof.
  unfold expandedActive, previewActive. intros Hs He Hp.
  unfold handleTouchMove. rewrite Hs, He, Hp. cbn [orb].
  split; [| split].
  - intros Hd Hle. apply Qltb_ge in Hle. rewrite Hd, Hle. reflexivity.
  - intros Hd Hgt. apply Qltb_lt in Hgt. rewrite Hd, Hgt. reflexivity.
  - intros Hd. rewrite Hd. reflexivity.
Qed.

Lemma X1_drag_hysteresis_witness :
  handleTouchMove 205 (handleTouchStart 200 (stackOf [cardA; cardB]))
  = handleTouchStart 200 (stackOf [cardA; cardB])
  /\ isDragging (handleTouchMove 206 (handleTouchStart 200 (stackOf [cardA; cardB])))
     = true
  /\ (dragX (handleTouchMove 201 (draggingBy [cardA; cardB] 200 30)) == 1)%Q.
Proof.
  destruct (X1_drag_hysteresis (handleTouchStart 200 (stackOf [cardA; cardB]))
              200 205 eq_refl eq_refl eq_refl) as (Hsmall & _).
  destruct (X1_drag_hysteresis (handleTouchStart 200 (stackOf [cardA; cardB]))
              200 206 eq_refl eq_refl eq_refl) as (_ & Hbig & _).
  destruct (X1_drag_hysteresis (draggingBy [cardA; cardB] 200 30)
              200 201 eq_refl eq_refl eq_refl) as (_ & _ & Hdrag).
  split; [apply Hsmall; [reflexivity | discriminate] |].
  split; [rewrite Hbig; reflexivity |].
  rewrite Hdrag; reflexivity.
Defined.

(** ** Layout engine *)

Local Open Scope Q_scope.

(** [parkX] of [getCardStyle]. *)
Lemma getCardStyle_discard (a : App) (off : Q) :
  progressOf a off < 0 ->
  let p := progressOf a off in
  let s := getCardStyle a off in
  (exists parkX, translateX s = p * Qabs parkX)
  /\ scale s = Qmax 0.5 (1 + Qmax p (-1) * 0.05)
  /\ zIndex s = (200 + Math_round (Qabs p * 10))%Z
  /\ opacity s = (if Qltb p (-0.2)
                  then Qmax 0 (1 - (Qabs p - 0.2) * 1.5) else 1).
Proof.
  intros Hp p s. subst p s. apply Qltb_lt in Hp.
  unfold getCardStyle. rewrite Hp. cbv iota beta zeta.
  cbn [translateX scale zIndex opacity].
  split; [eexists; reflexivity | repeat split].
Qed.

Lemma getCardStyle_stack (a : App) (off : Q) :
  0 <= progressOf a off ->
  let p := progressOf a off in
  let s := getCardStyle a off in
  translateX s = p * 20
  /\ scale s = Qmax 0.5 (1 - p * 0.05)
  /\ zIndex s = (100 - Math_ceil p)%Z
  /\ opacity s = (if Qltb 3 p then Qmax 0 (1 - (p - 3)) else 1).
Proof.
  intros Hp p s. subst p s. apply Qltb_ge in Hp.
  unfold getCardStyle. rewrite Hp. cbv iota beta zeta.
  cbn [translateX scale zIndex opacity]. repeat split.
Qed.

Lemma progress_side (a : App) (off : Q) :
  progressOf a off < 0 \/ 0 <= progressOf a off.
Proof. destruct (Qlt_le_dec (progressOf a off) 0); auto. Qed.

(** X2.  On a viewport of non-zero width, whatever the drag,
    [getCardStyle] yields an opacity between 0 and 1 and a scale between
    0.5 and 1 (at least 0.95 on the discard side); the card is shifted to
    the left on the discard side and to the right on the stack side; and
    [transition] is ["none"] exactly while a drag is in progress. *)
Theorem X2_style_ranges (a : App) (off : Q) :
  ~ screenWidth a == 0 ->
  0 <= opacity (getCardStyle a off) <= 1
  /\ 0.5 <= scale (getCardStyle a off) <= 1
  /\ (progressOf a off < 0 ->
      0.95 <= scale (getCardStyle a off)
      /\ translateX (getCardStyle a off) <= 0)
  /\ (0 <= progressOf a off -> 0 <= translateX (getCardStyle a off))
  /\ (transition (getCardStyle a off) = "none"%string <-> isDragging a = true).
Proof.
  intros _.
  assert (Hd : forall p, p < 0 ->
            0.95 <= Qmax 0.5 (1 + Qmax p (-1) * 0.05) <= 1).
  { intros p Hp.
    destruct (Q.max_spec p (-1)) as [[? Hm1] | [? Hm1]];
      destruct (Q.max_spec 0.5 (1 + Qmax p (-1) * 0.05)) as [[? Hm2] | [? Hm2]];
      lra. }
  assert (Hfade : forall t, 0 <= Qmax 0 t <= 1 \/ 1 < t).
  { intros t. destruct (Q.max_spec 0 t) as [[? Hm] | [? Hm]];
      destruct (Qlt_le_dec 1 t); [right | left | right | left]; lra. }
  split; [| split; [| split; [| split]]].
  - destruct (progress_side a off) as [Hp | Hp].
    + destruct (getCardStyle_discard a off Hp) as (_ & _ & _ & ->).
      destruct (Qltb (progressOf a off) (-0.2)) eqn:E; [| lra].
      apply Qltb_lt in E.
      rewrite Qabs_neg in * by lra.
      destruct (Hfade (1 - (- progressOf a off - 0.2) * 1.5)) as [H | H];
        [exact H | lra].
    + destruct (getCardStyle_stack a off Hp) as (_ & _ & _ & ->).
      destruct (Qltb 3 (progressOf a off)) eqn:E; [| lra].
      apply Qltb_lt in E.
      destruct (Hfade (1 - (progressOf a off - 3))) as [H | H];
        [exact H | lra].
  - destruct (progress_side a off) as [Hp | Hp].
    + destruct (getCardStyle_discard a off Hp) as (_ & -> & _).
      specialize (Hd _ Hp). lra.
    + destruct (getCardStyle_stack a off Hp) as (_ & -> & _).
      destruct (Q.max_spec 0.5 (1 - progressOf a off * 0.05)) as [[? Hm] | [? Hm]];
        lra.
  - intros Hp.
    destruct (getCardStyle_discard a off Hp) as ([parkX ->] & -> & _).
    split; [apply Hd, Hp |].
    pose proof (Qabs_nonneg parkX) as Hn.
    pose proof (Qmult_le_0_compat (- progressOf a off) (Qabs parkX)
                  ltac:(lra) Hn). lra.
  - intros Hp. destruct (getCardStyle_stack a off Hp) as (-> & _). lra.
  - unfold getCardStyle.
    destruct (Qltb (progressOf a off) 0); cbv iota beta zeta;
      cbn [transition]; destruct (isDragging a); split;
      (reflexivity || discriminate).
Qed.

Lemma X2_style_ranges_witness :
  0.95 <= scale (getCardStyle (draggingBy [cardA; cardB] 200 (-100)) 0)
  /\ translateX (getCardStyle (draggingBy [cardA; cardB] 200 (-100)) 0) <= 0
  /\ 0 <= translateX (getCardStyle (draggingBy [cardA; cardB] 200 (-100)) 1).
Proof.
  destruct (X2_style_ranges (draggingBy [cardA; cardB] 200 (-100)) 0
              ltac:(discriminate))
    as (_ & _ & Hleft & _).
  destruct (X2_style_ranges (draggingBy [cardA; cardB] 200 (-100)) 1
              ltac:(discriminate))
    as (_ & _ & _ & Hright & _).
  destruct Hleft as [Hs Hx]; [reflexivity |].
  split; [exact Hs | split; [exact Hx | apply Hright; discriminate]].
Defined.

Lemma Math_round_nonneg (q : Q) : 0 <= q -> (0 <= Math_round q)%Z.
Proof.
  intros Hq. unfold Math_round.
  change 0%Z with (Qfloor 0). apply Qfloor_resp_le. lra.
Qed.

Lemma Math_ceil_nonneg (q : Q) : 0 <= q -> (0 <= Math_ceil q)%Z.
Proof.
  intros Hq. unfold Math_ceil.
  change 0%Z with (Qceiling 0). apply Qceiling_resp_le, Hq.
Qed.

(** X3.  Stacking order, on viewports of non-zero width.  A card on the
    discard side ([progress < 0]) has a z-index of at least 200 and a card
    on the stack side one of at most 100, so a card that is leaving is
    drawn above every card of the stack, in whatever state each was
    styled; on the stack side the z-index does not increase with
    [progress], and on the discard side it does not decrease with the
    distance from the centre. *)
Theorem X3_stacking_order (a b : App) (offA offB : Q) :
  ~ screenWidth a == 0 ->
  ~ screenWidth b == 0 ->
  (progressOf a offA < 0 -> (200 <= zIndex (getCardStyle a offA))%Z)
  /\ (0 <= progressOf b offB -> (zIndex (getCardStyle b offB) <= 100)%Z)
  /\ (0 <= progressOf a offA -> progressOf a offA <= progressOf b offB ->
      (zIndex (getCardStyle b offB) <= zIndex (getCardStyle a offA))%Z)
  /\ (progressOf b offB <= progressOf a offA -> progressOf a offA < 0 ->
      (zIndex (getCardStyle a offA) <= zIndex (getCardStyle b offB))%Z).
Proof.
  intros _ _.
  split; [| split; [| split]].
  - intros Hp. destruct (getCardStyle_discard a offA Hp) as (_ & _ & -> & _).
    pose proof (Math_round_nonneg (Qabs (progressOf a offA) * 10)) as H.
    pose proof (Qabs_nonneg (progressOf a offA)).
    specialize (H ltac:(lra)). lia.
  - intros Hp. destruct (getCardStyle_stack b offB Hp) as (_ & _ & -> & _).
    pose proof (Math_ceil_nonneg _ Hp). lia.
  - intros Ha Hle.
    destruct (getCardStyle_stack a offA Ha) as (_ & _ & -> & _).
    destruct (getCardStyle_stack b offB ltac:(lra)) as (_ & _ & -> & _).
    pose proof (Qceiling_resp_le _ _ Hle). unfold Math_ceil. lia.
  - intros Hle Ha.
    destruct (getCardStyle_discard a offA Ha) as (_ & _ & -> & _).
    destruct (getCardStyle_discard b offB ltac:(lra)) as (_ & _ & -> & _).
    unfold Math_round.
    assert (H : Qabs (progressOf a offA) * 10 + (1 # 2)
                <= Qabs (progressOf b offB) * 10 + (1 # 2)).
    { rewrite !Qabs_neg by lra. lra. }
    apply Qfloor_resp_le in H. lia.
Qed.

Lemma X3_stacking_order_witness :
  (200 <= zIndex (getCardStyle (draggingBy [cardA; cardB] 200 (-100)) 0))%Z
  /\ (zIndex (getCardStyle (draggingBy [cardA; cardB] 200 (-100)) 2)
      <= zIndex (getCardStyle (draggingBy [cardA; cardB] 200 (-100)) 1) <= 100)%Z.
Proof.
  destruct (X3_stacking_order (draggingBy [cardA; cardB] 200 (-100))
              (draggingBy [cardA; cardB] 200 (-100)) 0 1
              ltac:(discriminate) ltac:(discriminate)) as (Hd & Hs & _).
  destruct (X3_stacking_order (draggingBy [cardA; cardB] 200 (-100))
              (draggingBy [cardA; cardB] 200 (-100)) 1 2
              ltac:(discriminate) ltac:(discriminate)) as (_ & _ & Hm & _).
  split; [apply Hd; reflexivity |].
  split; [apply Hm; discriminate | apply Hs; discriminate].
Defined.



Local Close Scope Q_scope.

(** ** Navigation *)

Lemma renderOffset_Some (a : App) (off : Z) (rc : RenderedCard) :
  renderOffset a off = Some rc ->
  key rc = activeIndex a + off
  /\ offset rc = off
  /\ isCenter rc = (off =? 0)
  /\ getCardData a (activeIndex a + off) = Some (cardData rc).
Proof.
  unfold renderOffset. intros H.
  repeat case_match; simplify_eq. cbn. repeat split.
Qed.

Lemma renderedAt_Some (a : App) (off : Z) (rc : RenderedCard) :
  renderedAt a off = Some rc ->
  stackMounted a = true /\ renderOffset a off = Some rc.
Proof.
  unfold renderedAt. intros H.
  destruct (stackMounted a); [| discriminate].
  destruct (bool_decide (off ∈ windowOffsets)); [| discriminate].
  split; [reflexivity | exact H].
Qed.

Lemma stackMounted_nonempty (a : App) :
  stackMounted a = true -> savedCards a <> [].
Proof.
  unfold stackMounted, cardCount. intros H Hnil. rewrite Hnil in H.
  discriminate.
Qed.

(** The centre card of a mounted stack is the card at the wrapped
    [activeIndex]. *)
Lemma renderedAt_centre (a : App) :
  stackMounted a = true ->
  cardData <$> renderedAt a 0 = getCardData a (activeIndex a).
Proof.
  intros Hm. unfold renderedAt, renderOffset. rewrite Hm.
  cbn -[getCardData getCardStyle cardCount Z.min].
  rewrite andb_false_r, Z.add_0_r.
  destruct (getCardData a (activeIndex a)); reflexivity.
Qed.

(** X6.  A click on a rendered card other than the centre one, while no
    drag is in progress, moves [activeIndex] by the card's offset and
    makes the clicked card the centre card; the collection and the view
    mode are unchanged. *)
Theorem X6_click_jumps (a : App) (off : Z) (rc : RenderedCard) :
  renderedAt a off = Some rc ->
  off <> 0 ->
  isDragging a = false ->
  activeIndex (cardOnClick rc a) = activeIndex a + off
  /\ getCardData (cardOnClick rc a) (activeIndex (cardOnClick rc a))
     = Some (cardData rc)
  /\ cardData <$> renderedAt (cardOnClick rc a) 0 = Some (cardData rc)
  /\ savedCards (cardOnClick rc a) = savedCards a
  /\ expandedCardId (cardOnClick rc a) = expandedCardId a
  /\ previewCard (cardOnClick rc a) = previewCard a.
Proof.
  intros Hr Hoff Hd.
  destruct (renderedAt_Some a off rc Hr) as [Hm Hro].
  destruct (renderOffset_Some a off rc Hro) as (_ & Ho & Hc & Hg).
  assert (Hclick : cardOnClick rc a = setActiveIndex (activeIndex a + off) a).
  { unfold cardOnClick. rewrite Hc, Hd, Ho.
    apply Z.eqb_neq in Hoff. rewrite Hoff. reflexivity. }
  rewrite Hclick.
  assert (Hg' : getCardData (setActiveIndex (activeIndex a + off) a)
                  (activeIndex a + off) = Some (cardData rc)) by exact Hg.
  split; [reflexivity |]. split; [exact Hg' |].
  split; [| repeat split].
  rewrite renderedAt_centre by exact Hm. exact Hg'.
Qed.

Lemma X6_click_jumps_witness :
  match renderedAt (stackOf [cardA; cardB; cardC]) 2 with
  | Some rc =>
      activeIndex (cardOnClick rc (stackOf [cardA; cardB; cardC])) = 2
      /\ getCardData (cardOnClick rc (stackOf [cardA; cardB; cardC])) 2
         = Some cardC
  | None => False
  end.
Proof.
  destruct (renderedAt (stackOf [cardA; cardB; cardC]) 2) as [rc |] eqn:Hrc;
    [| vm_compute in Hrc; discriminate].
  destruct (X6_click_jumps _ 2 rc Hrc ltac:(discriminate) eq_refl)
    as (Hi & Hg & _).
  vm_compute in Hrc. injection Hrc as <-.
  split; [exact Hi | exact Hg].
Defined.

(** X7.  Cyclic navigation.  On a non-empty collection of [N] cards,
    every index congruent to [j] modulo [N], for [0 <= j < N], shows the
    card stored at position [j]: going forwards or backwards any number
    of full turns comes back to the same card, and one step past the last
    card is the first. *)
Theorem X7_cyclic_navigation (a : App) (j k : Z) :
  0 <= j < cardCount a ->
  getCardData a (j + k * cardCount a) = savedCards a !! Z.to_nat j
  /\ getCardData a (cardCount a) = savedCards a !! 0%nat
  /\ getCardData a (-1) = savedCards a !! Z.to_nat (cardCount a - 1).
Proof.
  intros Hj.
  assert (Hne : savedCards a <> []).
  { intros Hnil. unfold cardCount in Hj. rewrite Hnil in Hj. simpl in Hj. lia. }
  rewrite !getCardData_lookup by exact Hne.
  rewrite Z.mod_add, Z.mod_small by lia.
  rewrite Z.mod_same by lia.
  replace ((-1) mod cardCount a) with (cardCount a - 1); [repeat split |].
  apply Z.mod_unique with (q := -1); lia.
Qed.

Lemma X7_cyclic_navigation_witness :
  getCardData (stackOf [cardA; cardB; cardC]) (1 + (-4) * 3) = Some cardB
  /\ getCardData (stackOf [cardA; cardB; cardC]) 3 = Some cardA
  /\ getCardData (stackOf [cardA; cardB; cardC]) (-1) = Some cardC.
Proof.
  apply (X7_cyclic_navigation (stackOf [cardA; cardB; cardC]) 1 (-4)).
  split; [discriminate | reflexivity].
Defined.

(** ** Render window on three cards or more *)

Lemma renderOffset_shown (a : App) (off : Z) :
  3 <= cardCount a -> off <= 2 ->
  exists c,
    getCardData a (activeIndex a + off) = Some c
    /\ renderOffset a off
       = Some {| key := activeIndex a + off; offset := off; cardData := c;
                 style := getCardStyle a (inject_Z off);
                 isCenter := off =? 0 |}.
Proof.
  intros HN Hoff.
  assert (Hne : savedCards a <> []).
  { intros Hnil. unfold cardCount in HN. rewrite Hnil in HN. simpl in HN. lia. }
  destruct (getCardData_is_Some a (activeIndex a + off) Hne) as [c Hc].
  exists c. split; [exact Hc |].
  unfold renderOffset. rewrite Hc.
  replace (Z.min (cardCount a) 3) with 3 by lia.
  replace (3 <=? off) with false by (symmetry; apply Z.leb_gt; lia).
  replace (cardCount a =? 1) with false by (symmetry; apply Z.eqb_neq; lia).
  rewrite andb_false_r. reflexivity.
Qed.

Lemma renderOffset_culled (a : App) (off : Z) :
  3 <= off -> renderOffset a off = None.
Proof.
  intros Hoff. unfold renderOffset.
  replace (0 <? off) with true by (symmetry; apply Z.ltb_lt; lia).
  replace (Z.min (cardCount a) 3 <=? off) with true
    by (symmetry; apply Z.leb_le; lia).
  reflexivity.
Qed.

Lemma shifted_position (x d N : Z) :
  0 < d < N -> (x + d) mod N <> x mod N.
Proof.
  intros Hd Heq.
  assert (H : ((x + d) - x) mod N = 0).
  { rewrite Zminus_mod, Heq, Z.sub_diag. apply Z.mod_0_l. lia. }
  replace (x + d - x) with d in H by lia.
  rewrite Z.mod_small in H by lia. lia.
Qed.

(** X5.  With three cards or more and the stack mounted, the window
    renders exactly the offsets -2 to 2: five cards, keyed by the five
    consecutive absolute indices (so no two share a React key), each the
    card at its wrapped index.  With five cards or more the five are at
    five different positions of the collection. *)
Theorem X5_window_three_or_more (a : App) :
  stackMounted a = true ->
  3 <= cardCount a ->
  renderedOffsets a = [-2; -1; 0; 1; 2]
  /\ key <$> renderStack a
     = [activeIndex a + -2; activeIndex a + -1; activeIndex a + 0;
        activeIndex a + 1; activeIndex a + 2]
  /\ NoDup (key <$> renderStack a)
  /\ Forall (fun rc => getCardData a (key rc) = Some (cardData rc)) (renderStack a)
  /\ (5 <= cardCount a ->
      NoDup ((fun rc => wrappedIndex (key rc) (cardCount a)) <$> renderStack a)).
Proof.
  intros Hm HN. unfold renderedOffsets, renderStack. rewrite Hm.
  destruct (renderOffset_shown a (-2) HN ltac:(lia)) as (c1 & Hc1 & H1).
  destruct (renderOffset_shown a (-1) HN ltac:(lia)) as (c2 & Hc2 & H2).
  destruct (renderOffset_shown a 0 HN ltac:(lia)) as (c3 & Hc3 & H3).
  destruct (renderOffset_shown a 1 HN ltac:(lia)) as (c4 & Hc4 & H4).
  destruct (renderOffset_shown a 2 HN ltac:(lia)) as (c5 & Hc5 & H5).
  unfold windowOffsets. cbn [omap list_omap].
  rewrite H1, H2, H3, H4, H5.
  rewrite (renderOffset_culled a 3), (renderOffset_culled a 4) by lia.
  cbn [fmap list_fmap key offset cardData].
  split; [reflexivity |]. split; [reflexivity |].
  split; [| split].
  - nodup_by lia.
  - repeat (apply Forall_cons_2; [cbn; assumption |]). apply Forall_nil_2.
  - intros H5N.
    rewrite !wrappedIndex_mod by lia.
    pose proof (shifted_position (activeIndex a + -2) 1 (cardCount a) ltac:(lia)).
    pose proof (shifted_position (activeIndex a + -2) 2 (cardCount a) ltac:(lia)).
    pose proof (shifted_position (activeIndex a + -2) 3 (cardCount a) ltac:(lia)).
    pose proof (shifted_position (activeIndex a + -2) 4 (cardCount a) ltac:(lia)).
    pose proof (shifted_position (activeIndex a + -1) 1 (cardCount a) ltac:(lia)).
    pose proof (shifted_position (activeIndex a + -1) 2 (cardCount a) ltac:(lia)).
    pose proof (shifted_position (activeIndex a + -1) 3 (cardCount a) ltac:(lia)).
    pose proof (shifted_position (activeIndex a + 0) 1 (cardCount a) ltac:(lia)).
    pose proof (shifted_position (activeIndex a + 0) 2 (cardCount a) ltac:(lia)).
    pose proof (shifted_position (activeIndex a + 1) 1 (cardCount a) ltac:(lia)).
    replace (activeIndex a + -2 + 1) with (activeIndex a + -1) in * by lia.
    replace (activeIndex a + -2 + 2) with (activeIndex a + 0) in * by lia.
    replace (activeIndex a + -2 + 3) with (activeIndex a + 1) in * by lia.
    replace (activeIndex a + -2 + 4) with (activeIndex a + 2) in * by lia.
    replace (activeIndex a + -1 + 1) with (activeIndex a + 0) in * by lia.
    replace (activeIndex a + -1 + 2) with (activeIndex a + 1) in * by lia.
    replace (activeIndex a + -1 + 3) with (activeIndex a + 2) in * by lia.
    replace (activeIndex a + 0 + 1) with (activeIndex a + 1) in * by lia.
    replace (activeIndex a + 0 + 2) with (activeIndex a + 2) in * by lia.
    replace (activeIndex a + 1 + 1) with (activeIndex a + 2) in * by lia.
    nodup_by congruence.
Qed.

Lemma X5_window_three_or_more_witness :
  renderedOffsets (stackOf [cardA; cardB; cardC; cardD; cardE]) = [-2; -1; 0; 1; 2]
  /\ NoDup ((fun rc => wrappedIndex (key rc) 5)
            <$> renderStack (stackOf [cardA; cardB; cardC; cardD; cardE])).
Proof.
  destruct (X5_window_three_or_more (stackOf [cardA; cardB; cardC; cardD; cardE]))
    as (Ho & _ & _ & _ & Hp); [reflexivity | discriminate |].
  split; [exact Ho | apply Hp; discriminate].
Defined.

(** ** Search *)

Lemma unwrap_index (i j N : Z) :
  0 <= j < N -> (i + (j - i mod N)) mod N = j.
Proof.
  intros Hj.
  replace (i + (j - i mod N)) with (j + (i / N) * N).
  - rewrite Z.mod_add by lia. apply Z.mod_small, Hj.
  - pose proof (Z.div_mod i N ltac:(lia)). lia.
Qed.

(** X8.  A search for a location that a saved card already has: the call
    shows the loading state and drops any preview; when its timer fires
    (nothing else having happened), [activeIndex] has moved so that it
    wraps to the first card with that location, that card's id is in
    [expandedCardId], [state] is [IDLE], no preview is shown, and the
    collection is what it was. *)
Theorem X8_search_existing (sv : Services) (loc : LocationData) (a : App)
    (i : nat) (c : WeatherCardData) :
  findByLocation loc a = Some (i, c) ->
  state (fst (handleSearch loc a)) = FETCHING_WEATHER
  /\ previewCard (fst (handleSearch loc a)) = None
  /\ state (searchToEnd sv loc a) = IDLE
  /\ expandedCardId (searchToEnd sv loc a) = Some (cardId c)
  /\ wrappedIndex (activeIndex (searchToEnd sv loc a)) (cardCount a) = Z.of_nat i
  /\ getCardData (searchToEnd sv loc a) (activeIndex (searchToEnd sv loc a))
     = Some c
  /\ savedCards (searchToEnd sv loc a) = savedCards a
  /\ previewCard (searchToEnd sv loc a) = None
  /\ savedCards a !! i = Some c
  /\ location_id (location (weather c)) = location_id loc.
Proof.
  unfold findByLocation. intros Hf.
  pose proof Hf as Hf'. apply list_find_Some in Hf' as (Hl & Hloc & _).
  pose proof (lookup_lt_Some _ _ _ Hl) as Hlt.
  assert (Hne : savedCards a <> []) by (intros E; rewrite E in Hl; discriminate).
  assert (Hidx : js_index (savedCards a) (Z.of_nat i) = Some c).
  { unfold js_index. destruct (Z.of_nat i <? 0) eqn:E;
      [apply Z.ltb_lt in E; lia |]. rewrite Nat2Z.id. exact Hl. }
  unfold searchToEnd, handleSearch. rewrite Hf.
  cbn [fst snd handleSearch_resume]. rewrite Hidx. cbn.
  repeat split; try assumption.
  - rewrite wrappedIndex_mod by (apply cardCount_pos, Hne).
    fold (cardCount a).
    rewrite wrappedIndex_mod by (apply cardCount_pos, Hne).
    apply unwrap_index. unfold cardCount. lia.
  - rewrite getCardData_lookup by exact Hne.
    unfold cardCount. cbn. fold (cardCount a).
    rewrite wrappedIndex_mod by (apply cardCount_pos, Hne).
    rewrite unwrap_index by (unfold cardCount; lia).
    rewrite Nat2Z.id. exact Hl.
Qed.

Lemma X8_search_existing_witness :
  expandedCardId
    (searchToEnd servicesDown (sampleLocation 3 "Kyoto")
       (setActiveIndex (-5) (stackOf [cardA; cardB; cardC])))
  = Some "c"
  /\ getCardData
       (searchToEnd servicesDown (sampleLocation 3 "Kyoto")
          (setActiveIndex (-5) (stackOf [cardA; cardB; cardC])))
       (activeIndex
          (searchToEnd servicesDown (sampleLocation 3 "Kyoto")
             (setActiveIndex (-5) (stackOf [cardA; cardB; cardC]))))
     = Some cardC.
Proof.
  destruct (X8_search_existing servicesDown (sampleLocation 3 "Kyoto")
              (setActiveIndex (-5) (stackOf [cardA; cardB; cardC])) 2 cardC
              eq_refl) as (_ & _ & _ & He & _ & Hg & _).
  split; [exact He | exact Hg].
Defined.

(** X9.  A search for a location no saved card has, followed to its end,
    never touches the collection, the expanded card or [activeIndex].
    When every request is answered, [state] is [SUCCESS], no error message
    is set and the preview is the fetched weather under its native name
    with the generated image.  When the weather request is rejected, or
    the weather is fetched and the scene or the native name is rejected,
    [state] is [ERROR], there is a non-empty error message (the message of
    the rejection when the weather request is the one rejected with a
    non-empty message) and no preview. *)
Theorem X9_search_fresh (sv : Services) (loc : LocationData) (a : App) :
  findByLocation loc a = None ->
  let a' := searchToEnd sv loc a in
  savedCards a' = savedCards a
  /\ expandedCardId a' = expandedCardId a
  /\ activeIndex a' = activeIndex a
  /\ (forall weatherData generatedImage nativeName,
        getWeatherData sv loc = Ok weatherData ->
        generateWeatherScene sv weatherData = Ok generatedImage ->
        getCityNativeName sv (city weatherData) (country weatherData)
        = Ok nativeName ->
        state a' = SUCCESS
        /\ errorMsg a' = ""
        /\ previewCard a'
           = Some {| weather := withNativeCity weatherData nativeName;
                     image := generatedImage |})
  /\ (forall message,
        getWeatherData sv loc = Rejected message ->
        state a' = ERROR /\ errorMsg a' <> "" /\ previewCard a' = None
        /\ (message <> "" -> errorMsg a' = message))
  /\ (forall weatherData,
        getWeatherData sv loc = Ok weatherData ->
        (exists message, generateWeatherScene sv weatherData = Rejected message)
        \/ (exists message,
              getCityNativeName sv (city weatherData) (country weatherData)
              = Rejected message) ->
        state a' = ERROR /\ errorMsg a' <> "" /\ previewCard a' = None).
Proof.
  intros Hf a'. subst a'. unfold findByLocation in Hf.
  assert (Hmsg : forall m : string,
            (if String.eqb m "" then "Something went wrong." else m) <> "").
  { intros m. destruct (String.eqb m "") eqn:E; [discriminate |].
    apply String.eqb_neq, E. }
  unfold searchToEnd, handleSearch. rewrite Hf.
  cbn [handleSearch_resume].
  destruct (getWeatherData sv loc) as [wd | msg] eqn:Ew.
  - cbn [fst handleSearch_resume].
    destruct (generateWeatherScene sv wd) as [img | msg] eqn:Es;
      [destruct (getCityNativeName sv (city wd) (country wd)) as [name | msg] eqn:En |].
    + cbn.
      split; [reflexivity |]. split; [reflexivity |]. split; [reflexivity |].
      split; [| split].
      * intros wd' img' name' Hw Hi Hn. simplify_eq.
        rewrite Es in Hi. rewrite En in Hn. simplify_eq. auto.
      * intros message Hr. discriminate Hr.
      * intros wd' Hw [[message Hr] | [message Hr]]; simplify_eq;
          [rewrite Es in Hr | rewrite En in Hr]; discriminate Hr.
    + cbn.
      split; [reflexivity |]. split; [reflexivity |]. split; [reflexivity |].
      split; [| split].
      * intros wd' img' name' Hw Hi Hn. simplify_eq.
        rewrite En in Hn. discriminate Hn.
      * intros message Hr. discriminate Hr.
      * intros wd' Hw _. split; [reflexivity |]. split; [apply Hmsg | reflexivity].
    + cbn.
      split; [reflexivity |]. split; [reflexivity |]. split; [reflexivity |].
      split; [| split].
      * intros wd' img' name' Hw Hi Hn. simplify_eq.
        rewrite Es in Hi. discriminate Hi.
      * intros message Hr. discriminate Hr.
      * intros wd' Hw _. split; [reflexivity |]. split; [apply Hmsg | reflexivity].
  - cbn.
    split; [reflexivity |]. split; [reflexivity |]. split; [reflexivity |].
    split; [| split].
    + intros wd' img' name' Hw. discriminate Hw.
    + intros message Hr. simplify_eq.
      split; [reflexivity |]. split; [apply Hmsg |]. split; [reflexivity |].
      intros Hne. apply String.eqb_neq in Hne. rewrite Hne. reflexivity.
    + intros wd' Hw. discriminate Hw.
Qed.

Lemma X9_search_fresh_witness :
  previewCard (searchToEnd (servicesFor cardC) (sampleLocation 3 "Kyoto")
                 (stackOf [cardA; cardB]))
  = Some cardC
  /\ state (searchToEnd servicesDown (sampleLocation 3 "Kyoto")
              (stackOf [cardA; cardB])) = ERROR
  /\ savedCards (searchToEnd servicesDown (sampleLocation 3 "Kyoto")
                   (stackOf [cardA; cardB])) = [cardA; cardB].
Proof.
  destruct (X9_search_fresh (servicesFor cardC) (sampleLocation 3 "Kyoto")
              (stackOf [cardA; cardB]) eq_refl) as (_ & _ & _ & Hok & _).
  destruct (X9_search_fresh servicesDown (sampleLocation 3 "Kyoto")
              (stackOf [cardA; cardB]) eq_refl) as (Hs & _ & _ & _ & Hdown & _).
  split; [| split; [| exact Hs]].
  - destruct (Hok (weather cardC) (image cardC) (nativeCity (weather cardC))
                eq_refl eq_refl eq_refl) as (_ & _ & Hp).
    rewrite Hp. reflexivity.
  - destruct (Hdown "Incomplete weather data received" eq_refl) as (He & _).
    exact He.
Defined.

(** ** Fantasy creation *)

(** X10.  A fantasy creation followed to its end closes the creator and
    never touches the collection, the expanded card or [activeIndex];
    when both generations are answered the preview is the generated
    weather with the generated image and [state] is [SUCCESS]; when
    either is rejected [state] is [ERROR] with the fixed message, and the
    preview is whatever it was before the creation. *)
Theorem X10_fantasy_creation (sv : Services) (config : FantasyConfig) (a : App) :
  let a' := createToEnd sv config a in
  savedCards a' = savedCards a
  /\ expandedCardId a' = expandedCardId a
  /\ activeIndex a' = activeIndex a
  /\ showFantasy a' = false
  /\ (forall weatherData img,
        generateCreativeWeatherData sv config = Ok weatherData ->
        generateFantasyScene sv config = Ok img ->
        state a' = SUCCESS
        /\ previewCard a' = Some {| weather := weatherData; image := img |})
  /\ ((exists msg, generateCreativeWeatherData sv config = Rejected msg)
      \/ (exists msg, generateFantasyScene sv config = Rejected msg) ->
      state a' = ERROR
      /\ errorMsg a'
         = "Failed to construct fantasy world. The simulation grid may be unstable."
      /\ previewCard a' = previewCard a).
Proof.
  intros a'. subst a'. unfold createToEnd, handleFantasyCreate_resume.
  destruct (generateCreativeWeatherData sv config) as [wd | m1];
    destruct (generateFantasyScene sv config) as [img | m2]; cbn;
    (split; [reflexivity |]); (split; [reflexivity |]);
    (split; [reflexivity |]); (split; [reflexivity |]); split;
    try (intros ? ? [= <-] [= <-]; split; reflexivity);
    try (intros; discriminate);
    try (intros [[msg H] | [msg H]]; discriminate);
    try (intros _; repeat split).
Qed.

Lemma X10_fantasy_creation_witness :
  previewCard (createToEnd (servicesFor cardA) sampleConfig initialApp) = Some cardA
  /\ state (createToEnd servicesDown sampleConfig (previewing cardB [cardA])) = ERROR
  /\ previewCard (createToEnd servicesDown sampleConfig (previewing cardB [cardA]))
     = Some cardB.
Proof.
  destruct (X10_fantasy_creation (servicesFor cardA) sampleConfig initialApp)
    as (_ & _ & _ & _ & Hok & _).
  destruct (X10_fantasy_creation servicesDown sampleConfig (previewing cardB [cardA]))
    as (_ & _ & _ & _ & _ & Hdown).
  destruct (Hok (weather cardA) (image cardA) eq_refl eq_refl) as [_ Hp].
  destruct Hdown as (He & _ & Hp'); [left; eexists; reflexivity |].
  split; [exact Hp | split; [exact He | exact Hp']].
Defined.

(** ** Refresh *)

Lemma refresh_round_trip (i : string) (a : App) :
  refreshingCardId a = None ->
  setRefreshingCardId None (setRefreshingCardId (Some i) a) = a.
Proof. intros H. destruct a. cbn in *. subst. reflexivity. Qed.

Lemma replaceCard_length (target : string) (u : WeatherCardData)
    (cards : list WeatherCardData) :
  length (replaceCard target u cards) = length cards.
Proof. unfold replaceCard. apply length_fmap. Qed.

Lemma replaceCard_keeps (target : string) (u c : WeatherCardData)
    (cards : list WeatherCardData) :
  c ∈ cards -> cardId c <> target -> c ∈ replaceCard target u cards.
Proof.
  intros Hc Hne. unfold replaceCard. apply list_elem_of_fmap.
  exists c. split; [| exact Hc].
  destruct (decide (cardId c = target)); [contradiction | reflexivity].
Qed.

(** X11.  A refresh started with none in flight and followed to its end
    clears [refreshingCardId] and keeps the number of saved cards.  If a
    request is rejected the state is exactly what it was before the
    refresh.  Otherwise the rebuilt card replaces the preview, when the
    refreshed card was the preview, and else every saved card with the
    refreshed card's id, all other saved cards staying as they are; for a
    fictional card the rebuilt card has the old weather (and so the old
    id) and a new image only. *)
Theorem X11_refresh_outcome (sv : Services) (card : WeatherCardData) (a : App) :
  refreshingCardId a = None ->
  let a' := refreshToEnd sv card a in
  refreshingCardId a' = None
  /\ length (savedCards a') = length (savedCards a)
  /\ (refreshedCard sv card = None -> a' = a)
  /\ (forall u, refreshedCard sv card = Some u ->
        (previewIs (previewCard a) card = true ->
         previewCard a' = Some u /\ savedCards a' = savedCards a)
        /\ (previewIs (previewCard a) card = false ->
            previewCard a' = previewCard a
            /\ savedCards a' = replaceCard (cardId card) u (savedCards a)
            /\ forall c, c ∈ savedCards a -> cardId c <> cardId card ->
                         c ∈ savedCards a')
        /\ (isFictional (weather card) = true -> weather u = weather card)).
Proof.
  intros Hn a'. subst a'. unfold refreshToEnd, handleRefresh.
  rewrite Hn. cbn [truthy]. unfold handleRefresh_resume.
  cbn [refreshed closedPreview].
  destruct (refreshedCard sv card) as [u |] eqn:Hu.
  - assert (Hfict : isFictional (weather card) = true -> weather u = weather card).
    { intros Hf. unfold refreshedCard in Hu. rewrite Hf in Hu.
      destruct (regenerateFantasyScene sv (weather card)); simplify_eq.
      reflexivity. }
    destruct (previewIs (previewCard a) card) eqn:Hp; cbn -[replaceCard].
    + split; [reflexivity |]. split; [reflexivity |]. split; [discriminate |].
      intros u' [= <-]. split; [intros _; split; reflexivity |].
      split; [discriminate | exact Hfict].
    + split; [reflexivity |]. split; [apply replaceCard_length |].
      split; [discriminate |].
      intros u' [= <-]. split; [discriminate |]. split; [| exact Hfict].
      intros _. split; [reflexivity |]. split; [reflexivity |].
      intros c Hc Hne. apply replaceCard_keeps; assumption.
  - split; [reflexivity |]. split; [reflexivity |].
    split; [intros _; apply refresh_round_trip, Hn | discriminate].
Qed.

Lemma X11_refresh_outcome_witness :
  refreshToEnd servicesDown cardA (stackOf [cardA; cardB]) = stackOf [cardA; cardB]
  /\ savedCards (refreshToEnd (servicesFor cardC) cardA (stackOf [cardA; cardB]))
     = [cardC; cardB].
Proof.
  destruct (X11_refresh_outcome servicesDown cardA (stackOf [cardA; cardB]) eq_refl)
    as (_ & _ & Hfail & _).
  destruct (X11_refresh_outcome (servicesFor cardC) cardA (stackOf [cardA; cardB])
              eq_refl) as (_ & _ & _ & Hok).
  destruct (Hok cardC eq_refl) as (_ & Hsaved & _).
  destruct (Hsaved eq_refl) as (_ & Hs & _).
  split; [apply Hfail; reflexivity | rewrite Hs; reflexivity].
Defined.

Lemma replaceCard_removes_id (eid : string) (u : WeatherCardData)
    (cards : list WeatherCardData) :
  cardId u <> eid ->
  list_find (fun c => cardId c = eid) (replaceCard eid u cards) = None.
Proof.
  intros Hu. apply list_find_None, Forall_forall.
  intros c Hc. unfold replaceCard in Hc.
  apply list_elem_of_fmap in Hc as (c0 & -> & _).
  destruct (decide (cardId c0 = eid)); assumption.
Qed.

(** X12.  Refreshing the expanded card when the rebuilt card comes back
    under another id (the weather service issues a new id for every
    fetch): the saved card is replaced, [expandedCardId] keeps the old
    id, and no saved card has that id any more; the expanded overlay is
    then not mounted, and neither is the stack. *)
Theorem X12_refresh_renames_expanded (sv : Services) (a : App)
    (eid : string) (c u : WeatherCardData) :
  expandedCardId a = Some eid ->
  eid <> "" ->
  previewCard a = None ->
  refreshingCardId a = None ->
  expandedCard a = Some c ->
  refreshedCard sv c = Some u ->
  cardId u <> eid ->
  let a' := refreshToEnd sv c a in
  expandedCardId a' = Some eid
  /\ u ∈ savedCards a'
  /\ expandedCard a' = None
  /\ expandedMounted a' = false
  /\ stackMounted a' = false.
Proof.
  intros He Hne Hp Hn Hc Hu Hid a'. subst a'.
  assert (Hcid : cardId c = eid /\ c ∈ savedCards a).
  { unfold expandedCard in Hc. rewrite He in Hc.
    destruct (list_find _ (savedCards a)) as [[i c'] |] eqn:Hf; [| discriminate].
    cbn in Hc. simplify_eq. apply list_find_Some in Hf as (Hl & Heq & _).
    split; [exact Heq | eapply list_elem_of_lookup_2, Hl]. }
  destruct Hcid as [Hcid Hin].
  unfold refreshToEnd, handleRefresh. rewrite Hn. cbn [truthy].
  unfold handleRefresh_resume. cbn [refreshed closedPreview].
  rewrite Hu, Hp. cbn [previewIs].
  change (savedCards (setRefreshingCardId (Some (cardId c)) a))
    with (savedCards a).
  assert (Hsaved : forall b, savedCards
            (setRefreshingCardId None
               (setSavedCards (replaceCard (cardId c) u (savedCards a)) b))
            = replaceCard (cardId c) u (savedCards a)) by reflexivity.
  assert (Hex : expandedCard
            (setRefreshingCardId None
               (setSavedCards (replaceCard (cardId c) u (savedCards a))
                  (setRefreshingCardId (Some (cardId c)) a))) = None).
  { unfold expandedCard. cbn. rewrite He, Hcid.
    rewrite replaceCard_removes_id by exact Hid. reflexivity. }
  split; [exact He |]. split; [| split; [exact Hex | split]].
  - rewrite Hsaved. unfold replaceCard. apply list_elem_of_fmap.
    exists c. split; [| exact Hin].
    destruct (decide (cardId c = cardId c)); [reflexivity | contradiction].
  - unfold expandedMounted. rewrite Hex. apply andb_false_r.
  - unfold stackMounted. cbn. rewrite He. cbn.
    apply String.eqb_neq in Hne. rewrite Hne. apply andb_false_r.
Qed.

Lemma X12_refresh_renames_expanded_witness :
  expandedCardId (refreshToEnd (servicesFor cardC) cardA (app (run expandedRun)))
  = Some "a"
  /\ savedCards (refreshToEnd (servicesFor cardC) cardA (app (run expandedRun)))
     = [cardC]
  /\ expandedMounted (refreshToEnd (servicesFor cardC) cardA (app (run expandedRun)))
     = false
  /\ stackMounted (refreshToEnd (servicesFor cardC) cardA (app (run expandedRun)))
     = false.
Proof.
  destruct (X12_refresh_renames_expanded (servicesFor cardC) (app (run expandedRun))
              "a" cardA cardC eq_refl ltac:(discriminate) eq_refl eq_refl
              eq_refl eq_refl ltac:(discriminate))
    as (He & _ & _ & Hm & Hs).
  split; [exact He |]. split; [reflexivity |]. split; [exact Hm | exact Hs].
Defined.

(** ** What changes the collection *)

Lemma applyCardUpdate_ids_kept (a : App) (t u : WeatherCardData) :
  targetCard a = Some t ->
  cardId u = cardId t ->
  cardId <$> savedCards (applyCardUpdate u a) = cardId <$> savedCards a.
Proof.
  intros Ht Hu. unfold applyCardUpdate.
  destruct (nonNull (previewCard a)) eqn:Hp; [reflexivity |].
  destruct (expandedCardId a) as [eid |] eqn:He; [| reflexivity].
  destruct (truthy (Some eid)) eqn:Htr; [| reflexivity].
  assert (Hid : cardId t = eid).
  { unfold targetCard in Ht. destruct (previewCard a); [discriminate |].
    rewrite He, Htr in Ht. unfold expandedCard in Ht. rewrite He in Ht.
    destruct (list_find _ (savedCards a)) as [[i c'] |] eqn:Hf; [| discriminate].
    cbn in Ht. simplify_eq. apply list_find_Some in Hf as (_ & Heq & _).
    exact Heq. }
  cbn [savedCards setSavedCards]. unfold replaceCard.
  rewrite <- list_fmap_compose. apply list_fmap_ext.
  intros i c _. cbn. destruct (decide (cardId c = eid)); congruence.
Qed.

Lemma centre_rendered (a : App) :
  stackMounted a = true ->
  exists rc, renderedAt a 0 = Some rc /\ cardData rc ∈ savedCards a.
Proof.
  intros Hm. pose proof (renderedAt_centre a Hm) as Hc.
  destruct (getCardData_is_Some a (activeIndex a) (stackMounted_nonempty a Hm))
    as [c Hg].
  rewrite Hg in Hc.
  destruct (renderedAt a 0) as [rc |] eqn:Hr; [| discriminate].
  exists rc. split; [reflexivity |]. eapply renderedAt_elem, Hr.
Qed.

(** X13.  Of all the events of the component, only saving a preview makes
    the collection longer, by exactly the previewed card, at the end;
    only the remove button makes it shorter, keeping the other cards in
    order (and it does remove a card whenever the stack is mounted); a
    settled refresh keeps its length; an image or view update keeps every
    card's id; every other event leaves the collection as it is. *)
Theorem X13_collection_changes (m : Machine) (e : Event) :
  match e with
  | SavePreview =>
      savedCards (app (dispatch m e))
      = savedCards (app m) ++ option_list (previewCard (app m))
  | RemoveClick =>
      savedCards (app (dispatch m e)) `sublist_of` savedCards (app m)
      /\ (stackMounted (app m) = true ->
          (length (savedCards (app (dispatch m e)))
           < length (savedCards (app m)))%nat)
  | RefreshSettled _ _ =>
      length (savedCards (app (dispatch m e))) = length (savedCards (app m))
  | ImageUpdate _ | UpdateView _ =>
      cardId <$> savedCards (app (dispatch m e)) = cardId <$> savedCards (app m)
  | _ => savedCards (app (dispatch m e)) = savedCards (app m)
  end.
Proof.
  destruct e; cbn [dispatch];
    try solve [ unfold handleTouchStart, handleTouchMove, handleTouchEnd;
                unfold_handlers; repeat case_match; simplify_eq; reflexivity ].
  - (* RemoveClick *)
    split.
    + destruct (renderedAt (app m) 0); [| reflexivity].
      unfold onApp, handleRemoveCard. cbn. apply sublist_filter.
    + intros Hm. destruct (centre_rendered (app m) Hm) as (rc & -> & Hin).
      unfold onApp, handleRemoveCard. cbn.
      eapply length_filter_lt; [exact Hin |]. intros H. apply H. reflexivity.
  - (* RefreshSettled *)
    destruct (refreshes m !! i); [| reflexivity].
    unfold handleRefresh_resume. cbn -[replaceCard].
    repeat case_match; cbn -[replaceCard];
      rewrite ?replaceCard_length; reflexivity.
  - (* SavePreview *)
    unfold previewMounted, onApp, handleSavePreview.
    destruct (previewCard (app m)); cbn; [reflexivity |].
    rewrite app_nil_r. reflexivity.
  - (* ImageUpdate *)
    destruct (expandedMounted (app m) || previewMounted (app m)); [| reflexivity].
    unfold onApp, handleImageUpdate. cbn [app].
    destruct (targetCard (app m)) as [t |] eqn:Ht; [| reflexivity].
    apply (applyCardUpdate_ids_kept _ t); [exact Ht | reflexivity].
  - (* UpdateView *)
    destruct (expandedMounted (app m) || previewMounted (app m)); [| reflexivity].
    unfold onApp, handleUpdateView. cbn [app].
    destruct (targetCard (app m)) as [t |] eqn:Ht; [| reflexivity].
    apply (applyCardUpdate_ids_kept _ t); [exact Ht | reflexivity].
Qed.

Lemma X13_collection_changes_witness :
  (length (savedCards (app (dispatch (machineOf (stackOf [cardA; cardB])) RemoveClick)))
   < 2)%nat
  /\ savedCards (app (dispatch previewOverStackMachine SavePreview))
     = [cardA; cardB].
Proof.
  pose proof (X13_collection_changes (machineOf (stackOf [cardA; cardB])) RemoveClick)
    as [_ Hlt].
  pose proof (X13_collection_changes previewOverStackMachine SavePreview) as Hs.
  split; [apply Hlt; reflexivity | rewrite Hs; reflexivity].
Defined.

(** ** Search bar *)

Local Open Scope Q_scope.

(** X14.  The search bar: with no preview it is fully shown and carries
    no inline style.  During a preview its progress is the downward drag
    of the preview over 50 px, cut to the range from 0 to 1: 0 for no or
    an upward drag, 1 from 50 px on; its vertical shift is between -100%
    and 0; and it takes pointer events exactly when the drag exceeds
    40 px. *)
Theorem X14_search_bar (a : App) :
  0 <= searchBarProgress a <= 1
  /\ (previewCard a = None -> searchBarProgress a = 1 /\ searchBarStyle a = None)
  /\ (previewCard a <> None ->
      (previewDragOffset a <= 0 -> searchBarProgress a == 0)
      /\ (0 <= previewDragOffset a <= 50 ->
          searchBarProgress a == previewDragOffset a / 50)
      /\ (50 <= previewDragOffset a -> searchBarProgress a == 1)
      /\ exists st,
           searchBarStyle a = Some st
           /\ -100 <= translateYPercent st <= 0
           /\ barOpacity st = searchBarProgress a
           /\ (pointerEventsAuto st = true <-> 40 < previewDragOffset a)).
Proof.
  assert (Hcut : forall d : Q,
            0 <= Qmin (Qmax d 0 / 50) 1 <= 1
            /\ (d <= 0 -> Qmin (Qmax d 0 / 50) 1 == 0)
            /\ (0 <= d <= 50 -> Qmin (Qmax d 0 / 50) 1 == d / 50)
            /\ (50 <= d -> Qmin (Qmax d 0 / 50) 1 == 1)
            /\ (0.8 < Qmin (Qmax d 0 / 50) 1 <-> 40 < d)).
  { intros d. unfold Qdiv. change (/ 50) with (1 # 50).
    destruct (Q.max_spec d 0) as [[Ho Hm] | [Ho Hm]];
      destruct (Q.min_spec (Qmax d 0 * (1 # 50)) 1) as [[Hc Hn] | [Hc Hn]];
      repeat split; intros; lra. }
  unfold searchBarProgress, searchBarStyle.
  destruct (previewCard a) as [p |] eqn:Hp; cbn [nonNull].
  - destruct (Hcut (previewDragOffset a)) as (Hr & H0 & Hmid & H1 & Hpe).
    split; [exact Hr |]. split; [discriminate |]. intros _.
    split; [exact H0 |]. split; [exact Hmid |]. split; [exact H1 |].
    eexists. split; [reflexivity |].
    cbn [translateYPercent barOpacity pointerEventsAuto].
    assert (Hsp : searchBarProgress a
                  = Qmin (Qmax (previewDragOffset a) 0 / 50) 1)
      by (unfold searchBarProgress; rewrite Hp; reflexivity).
    rewrite Hsp.
    set (R := Qmin (Qmax (previewDragOffset a) 0 / 50) 1) in *. clearbody R.
    split; [lra |]. split; [reflexivity |].
    rewrite Qltb_lt. exact Hpe.
  - split; [lra |]. split; [intros _; split; reflexivity | congruence].
Qed.

Lemma X14_search_bar_witness :
  searchBarProgress (setPreviewDragOffset 100 (previewing cardB [cardA])) == 1
  /\ searchBarProgress (setPreviewDragOffset 25 (previewing cardB [cardA]))
     == 25 / 50
  /\ searchBarStyle (stackOf [cardA]) = None.
Proof.
  destruct (X14_search_bar (setPreviewDragOffset 100 (previewing cardB [cardA])))
    as (_ & _ & Hfull).
  destruct (X14_search_bar (setPreviewDragOffset 25 (previewing cardB [cardA])))
    as (_ & _ & Hhalf).
  destruct (X14_search_bar (stackOf [cardA])) as (_ & Hnone & _).
  destruct Hfull as (_ & _ & H1 & _); [discriminate |].
  destruct Hhalf as (_ & Hmid & _); [discriminate |].
  split; [apply H1; discriminate |].
  split; [apply Hmid; split; discriminate | apply Hnone; reflexivity].
Defined.

Local Close Scope Q_scope.

(** ** Saving and removing *)

Lemma filter_all (P : WeatherCardData -> Prop) `{!forall c, Decision (P c)}
    (cards : list WeatherCardData) :
  Forall P cards -> filter P cards = cards.
Proof.
  induction 1 as [| c cards Hc _ IH]; [reflexivity |].
  rewrite filter_cons_True by exact Hc. rewrite IH. reflexivity.
Qed.

(** X15.  Saving a preview whose id no saved card has, and then removing
    the card with that id, gives back the collection as it was; after the
    two steps [activeIndex] is the length of the collection, so the
    active card is the first one (and on an empty collection the state is
    the welcome state: [IDLE], [activeIndex] 0). *)
Theorem X15_save_then_remove (a : App) (p : WeatherCardData) :
  previewCard a = Some p ->
  Forall (fun c => cardId c <> cardId p) (savedCards a) ->
  let a' := handleRemoveCard (cardId p) (handleSavePreview a) in
  savedCards a' = savedCards a
  /\ activeIndex a' = cardCount a
  /\ getCardData a' (activeIndex a') = savedCards a !! 0%nat
  /\ previewCard a' = None
  /\ state a' = IDLE.
Proof.
  intros Hp Hfresh a'. subst a'.
  assert (Hs : savedCards (handleRemoveCard (cardId p) (handleSavePreview a))
               = savedCards a).
  { unfold handleRemoveCard, handleSavePreview. rewrite Hp. cbn.
    rewrite filter_app, (filter_all _ _ Hfresh).
    rewrite filter_cons_False by (intros H; apply H; reflexivity).
    rewrite filter_nil. apply app_nil_r. }
  assert (Hi : activeIndex (handleRemoveCard (cardId p) (handleSavePreview a))
               = cardCount a).
  { unfold handleRemoveCard, handleSavePreview. rewrite Hp. cbn.
    rewrite filter_app, (filter_all _ _ Hfresh).
    rewrite filter_cons_False by (intros H; apply H; reflexivity).
    rewrite filter_nil, app_nil_r. unfold cardCount.
    destruct (savedCards a); reflexivity. }
  split; [exact Hs |]. split; [exact Hi |].
  split; [| split].
  - rewrite Hi. destruct (decide (savedCards a = [])) as [E | E].
    + unfold getCardData, cardCount. rewrite Hs, E. reflexivity.
    + rewrite getCardData_lookup by (rewrite Hs; exact E).
      unfold cardCount. rewrite Hs. fold (cardCount a).
      rewrite Z.mod_same by (pose proof (cardCount_pos a E); lia).
      reflexivity.
  - unfold handleRemoveCard, handleSavePreview. rewrite Hp.
    repeat case_match; reflexivity.
  - unfold handleRemoveCard, handleSavePreview. rewrite Hp.
    repeat case_match; reflexivity.
Qed.

Lemma X15_save_then_remove_witness :
  savedCards (handleRemoveCard "c" (handleSavePreview (previewing cardC [cardA; cardB])))
  = [cardA; cardB]
  /\ getCardData
       (handleRemoveCard "c" (handleSavePreview (previewing cardC [cardA; cardB])))
       2 = Some cardA.
Proof.
  destruct (X15_save_then_remove (previewing cardC [cardA; cardB]) cardC eq_refl)
    as (Hs & Hi & Hg & _).
  { repeat (apply Forall_cons_2; [discriminate |]). apply Forall_nil_2. }
  split; [exact Hs |]. rewrite Hi in Hg. exact Hg.
Defined.

Lemma filter_is_delete (cards : list WeatherCardData) (j : nat)
    (c : WeatherCardData) :
  NoDup (cardId <$> cards) ->
  cards !! j = Some c ->
  filter (fun x => cardId x <> cardId c) cards = delete j cards.
Proof.
  revert j. induction cards as [| x cards IH]; intros j Hnd Hl; [discriminate |].
  cbn in Hnd. apply NoDup_cons in Hnd as [Hnin Hnd].
  destruct j as [| j]; cbn in Hl.
  - simplify_eq.
    rewrite filter_cons_False by (intros H; apply H; reflexivity).
    cbn. apply filter_all, Forall_forall. intros y Hy Heq.
    apply Hnin. rewrite <- Heq. apply list_elem_of_fmap. eauto.
  - assert (Hne : cardId x <> cardId c).
    { intros Heq. apply Hnin. rewrite Heq. apply list_elem_of_fmap.
      exists c. split; [reflexivity | eapply list_elem_of_lookup_2, Hl]. }
    rewrite filter_cons_True by exact Hne.
    cbn. f_equal. apply IH; assumption.
Qed.

(** X16.  Removing the active card.  When the ids of the collection are
    distinct, it holds two cards or more and [activeIndex] is within
    [[0, N)], removing the active card deletes that one card, leaves
    [activeIndex] as it is, and makes the card that followed it
    (cyclically) the active one. *)
Theorem X16_remove_active (a : App) (c : WeatherCardData) :
  NoDup (cardId <$> savedCards a) ->
  2 <= cardCount a ->
  0 <= activeIndex a < cardCount a ->
  getCardData a (activeIndex a) = Some c ->
  let a' := handleRemoveCard (cardId c) a in
  savedCards a' = delete (Z.to_nat (activeIndex a)) (savedCards a)
  /\ activeIndex a' = activeIndex a
  /\ state a' = state a
  /\ getCardData a' (activeIndex a') = getCardData a (activeIndex a + 1).
Proof.
  intros Hnd HN Hi Hg a'. subst a'.
  assert (Hne : savedCards a <> []).
  { intros E. unfold cardCount in HN. rewrite E in HN. simpl in HN. lia. }
  assert (Hl : savedCards a !! Z.to_nat (activeIndex a) = Some c).
  { rewrite getCardData_lookup in Hg by exact Hne.
    rewrite Z.mod_small in Hg by lia. exact Hg. }
  assert (Hlen : length (delete (Z.to_nat (activeIndex a)) (savedCards a))
                 = (length (savedCards a) - 1)%nat).
  { apply length_delete. eauto. }
  assert (Hf := filter_is_delete _ _ _ Hnd Hl).
  unfold handleRemoveCard. rewrite Hf.
  assert (Hpos : (Z.of_nat (length (delete (Z.to_nat (activeIndex a)) (savedCards a)))
                  =? 0) = false).
  { apply Z.eqb_neq. rewrite Hlen. unfold cardCount in HN. lia. }
  rewrite Hpos.
  split; [reflexivity |]. split; [reflexivity |]. split; [reflexivity |].
  set (l' := delete (Z.to_nat (activeIndex a)) (savedCards a)) in *.
  assert (Hne' : savedCards (setSavedCards l' a) <> []).
  { cbn. intros E. rewrite E in Hlen. unfold cardCount in HN. simpl in Hlen. lia. }
  rewrite (getCardData_lookup (setSavedCards l' a)) by exact Hne'.
  rewrite (getCardData_lookup a) by exact Hne.
  assert (Hc' : cardCount (setSavedCards l' a) = cardCount a - 1).
  { unfold cardCount. cbn. rewrite Hlen. unfold cardCount in HN. lia. }
  rewrite Hc'. cbn [savedCards setSavedCards activeIndex].
  destruct (Z.eq_dec (activeIndex a) (cardCount a - 1)) as [Elast | Enot].
  - rewrite Elast, Z.mod_same by lia.
    replace (cardCount a - 1 + 1) with (cardCount a) by lia.
    rewrite Z.mod_same by lia.
    subst l'. rewrite list_lookup_delete_lt by lia. reflexivity.
  - rewrite !Z.mod_small by lia.
    subst l'. rewrite list_lookup_delete_ge by lia.
    f_equal. lia.
Qed.

Lemma X16_remove_active_witness :
  savedCards (handleRemoveCard "b" (setActiveIndex 1 (stackOf [cardA; cardB; cardC])))
  = [cardA; cardC]
  /\ getCardData
       (handleRemoveCard "b" (setActiveIndex 1 (stackOf [cardA; cardB; cardC]))) 1
     = Some cardC.
Proof.
  destruct (X16_remove_active (setActiveIndex 1 (stackOf [cardA; cardB; cardC])) cardB)
    as (Hs & _ & _ & Hg).
  - cbn. nodup_by discriminate.
  - discriminate.
  - split; [discriminate | reflexivity].
  - reflexivity.
  - split; [exact Hs | exact Hg].
Defined.

(** ** Expanding and closing *)

Lemma expand_round_trip (i : string) (a : App) :
  expandedCardId a = None ->
  closeExpanded (setExpandedCardId (Some i) a) = setIsScrolled false a.
Proof. intros H. destruct a. cbn in *. subst. reflexivity. Qed.

(** X17.  A click on the centre card of the stack, with no drag in
    progress and no card expanded, puts its id in [expandedCardId]; the
    expanded overlay is then mounted, showing a saved card with that id,
    and the stack is not; closing the overlay leads back to the state
    before the click, with the scroll flag cleared, where the stack is
    mounted again. *)
Theorem X17_expand_then_close (a : App) (rc : RenderedCard) :
  renderedAt a 0 = Some rc ->
  isDragging a = false ->
  expandedCardId a = None ->
  cardId (cardData rc) <> "" ->
  let a1 := cardOnClick rc a in
  expandedCardId a1 = Some (cardId (cardData rc))
  /\ (exists c, expandedCard a1 = Some c
                /\ c ∈ savedCards a /\ cardId c = cardId (cardData rc))
  /\ expandedMounted a1 = true
  /\ stackMounted a1 = false
  /\ closeExpanded a1 = setIsScrolled false a
  /\ stackMounted (closeExpanded a1) = true.
Proof.
  intros Hr Hd He Hid a1. subst a1.
  destruct (renderedAt_Some a 0 rc Hr) as [Hm Hro].
  destruct (renderOffset_Some a 0 rc Hro) as (_ & _ & Hc & _).
  pose proof (renderedAt_elem a 0 rc Hr) as Hin.
  assert (Hclick : cardOnClick rc a
                   = setExpandedCardId (Some (cardId (cardData rc))) a).
  { unfold cardOnClick. rewrite Hc, Hd. reflexivity. }
  rewrite Hclick.
  assert (Hfound : exists c,
            expandedCard (setExpandedCardId (Some (cardId (cardData rc))) a) = Some c
            /\ c ∈ savedCards a /\ cardId c = cardId (cardData rc)).
  { unfold expandedCard. cbn.
    destruct (list_find_elem_of
                (fun c => cardId c = cardId (cardData rc))
                (savedCards a) (cardData rc) Hin eq_refl) as [[i c] Hf].
    rewrite Hf. exists c. split; [reflexivity |].
    apply list_find_Some in Hf as (Hl & Heq & _).
    split; [eapply list_elem_of_lookup_2, Hl | exact Heq]. }
  assert (Htr : truthy (Some (cardId (cardData rc))) = true)
    by (apply truthy_Some, Hid).
  split; [reflexivity |]. split; [exact Hfound |].
  split; [| split; [| split]].
  - destruct Hfound as (c & Hf & _). unfold expandedMounted. rewrite Hf.
    cbn [expandedCardId setExpandedCardId]. rewrite Htr. reflexivity.
  - unfold stackMounted. cbn [expandedCardId setExpandedCardId].
    rewrite Htr. apply andb_false_r.
  - apply expand_round_trip, He.
  - rewrite expand_round_trip by exact He. exact Hm.
Qed.

Lemma X17_expand_then_close_witness :
  match renderedAt (stackOf [cardA; cardB]) 0 with
  | Some rc =>
      expandedCardId (cardOnClick rc (stackOf [cardA; cardB])) = Some "a"
      /\ expandedMounted (cardOnClick rc (stackOf [cardA; cardB])) = true
      /\ closeExpanded (cardOnClick rc (stackOf [cardA; cardB]))
         = stackOf [cardA; cardB]
  | None => False
  end.
Proof.
  destruct (renderedAt (stackOf [cardA; cardB]) 0) as [rc |] eqn:Hrc;
    [| vm_compute in Hrc; discriminate].
  assert (Hid : cardId (cardData rc) = "a")
    by (vm_compute in Hrc; injection Hrc as <-; reflexivity).
  destruct (X17_expand_then_close _ rc Hrc eq_refl eq_refl)
    as (He & _ & Hm & _ & Hc & _); [rewrite Hid; discriminate |].
  rewrite Hid in He. split; [exact He |]. split; [exact Hm | exact Hc].
Defined.

(** ** Invariants of every run *)

Lemma restDrag_start (x : Q) (a : App) :
  (isDragging a = false -> dragX a = 0%Q) ->
  isDragging (handleTouchStart x a) = false -> dragX (handleTouchStart x a) = 0%Q.
Proof.
  unfold handleTouchStart. intros H.
  destruct (truthy (expandedCardId a) || nonNull (previewCard a)
            || (cardCount a =? 0)); exact H.
Qed.

Lemma restDrag_move (x : Q) (a : App) :
  (isDragging a = false -> dragX a = 0%Q) ->
  isDragging (handleTouchMove x a) = false -> dragX (handleTouchMove x a) = 0%Q.
Proof.
  unfold handleTouchMove. intros H.
  destruct (dragStartX a) as [start |]; [| exact H].
  destruct (truthy (expandedCardId a) || nonNull (previewCard a)); [exact H |].
  destruct (isDragging a) eqn:Hd; cbn [negb andb].
  - cbn. rewrite Hd. discriminate.
  - destruct (Qltb DRAG_THRESHOLD (Qabs (x - start))); cbn.
    + discriminate.
    + intros _. apply H. reflexivity.
Qed.

Lemma restDrag_end (a : App) :
  (isDragging a = false -> dragX a = 0%Q) ->
  isDragging (handleTouchEnd a) = false -> dragX (handleTouchEnd a) = 0%Q.
Proof.
  intros H. destruct (dragStartX a) as [start |] eqn:Hs.
  - destruct (handleTouchEnd_armed a start Hs) as (k & -> & _). reflexivity.
  - unfold handleTouchEnd. rewrite Hs. exact H.
Qed.

Lemma dispatch_restDrag (m : Machine) (e : Event) :
  (isDragging (app m) = false -> dragX (app m) = 0%Q) ->
  isDragging (app (dispatch m e)) = false -> dragX (app (dispatch m e)) = 0%Q.
Proof.
  intros H.
  destruct e; cbn [dispatch];
    try solve [ destruct (stackMounted (app m)); [| exact H]; cbn [app onApp];
                first [ apply restDrag_start
                      | apply restDrag_move
                      | apply restDrag_end ]; exact H ];
    unfold_handlers; repeat case_match; simplify_eq; cbn; exact H.
Qed.

(** X18.  In every state the component reaches, a drag in progress has
    its start position recorded, and [dragX] is 0 whenever no drag is in
    progress: the cards are laid out at their resting places unless the
    stack is being dragged. *)
Theorem X18_gesture_invariants (m : Machine) :
  reachable m ->
  (isDragging (app m) = true -> is_Some (dragStartX (app m)))
  /\ (isDragging (app m) = false -> dragX (app m) = 0%Q).
Proof.
  intros Hr. split; [apply gestureArmed_reachable, Hr |].
  destruct Hr as [events <-].
  induction events as [| e events IH] using rev_ind; [reflexivity |].
  rewrite run_snoc. apply dispatch_restDrag, IH.
Qed.

Lemma X18_gesture_invariants_witness :
  is_Some (dragStartX (app (run (swipe 150))))
  /\ dragX (app (dispatch (run (swipe 150)) PointerUp)) = 0%Q.
Proof.
  destruct (X18_gesture_invariants (run (swipe 150)) (reachable_run _)) as [Ha _].
  destruct (X18_gesture_invariants (dispatch (run (swipe 150)) PointerUp)
              (reachable_step _ _ (reachable_run _))) as [_ Hz].
  split; [apply Ha; reflexivity | apply Hz; reflexivity].
Defined.

(** X19.  On every run in which the collaborators issue non-empty ids, at
    most one refresh is suspended at any time; one is suspended exactly
    when [refreshingCardId] is non-null, and [refreshingCardId] is then
    the (non-empty) id of the card being refreshed. *)
Theorem X19_one_refresh_in_flight (events : list Event) :
  Forall eventOk events ->
  (length (refreshes (run events)) <= 1)%nat
  /\ (refreshes (run events) = [] <-> refreshingCardId (app (run events)) = None)
  /\ (forall k, k ∈ refreshes (run events) ->
        refreshingCardId (app (run events)) = Some (cardId (refreshed k))
        /\ cardId (refreshed k) <> "").
Proof.
  intros Hok.
  destruct (singleFlight_run events Hok) as [(_ & _ & Hk & _) Hf].
  destruct Hf as [[Hnil Hnone] | (k & Hone & Hid)].
  - rewrite Hnil, Hnone. split; [simpl; lia |].
    split; [split; reflexivity |]. intros k Hin.
    apply elem_of_nil in Hin. contradiction.
  - rewrite Hone in *. rewrite Hid. split; [simpl; lia |].
    split; [split; discriminate |]. intros k' Hin.
    apply list_elem_of_singleton in Hin. subst k'.
    apply Forall_cons in Hk as [Hk _]. split; [reflexivity | exact Hk].
Qed.

Lemma X19_one_refresh_in_flight_witness :
  (length (refreshes (run refreshingRun)) <= 1)%nat
  /\ (refreshes (run refreshingRun) = []
      <-> refreshingCardId (app (run refreshingRun)) = None).
Proof.
  destruct (X19_one_refresh_in_flight refreshingRun) as (Hl & Hiff & _).
  { unfold refreshingRun, createPreview. cbn [Datatypes.app].
    repeat (apply Forall_cons; split); try apply Forall_nil; try exact I;
      split; intros ? ? [= <-]; vm_compute; discriminate. }
  split; [exact Hl | exact Hiff].
Defined.

(** ** The weather service and the unit conversion *)

Lemma Math_round_ratio (n : Z) (d : positive) :
  Math_round (inject_Z n / inject_Z (Z.pos d))%Q
  = (2 * n + Z.pos d) / (2 * Z.pos d).
Proof.
  unfold Math_round, Qfloor, Qdiv, Qplus, Qmult, Qinv, inject_Z. cbn.
  f_equal; lia.
Qed.

Lemma getWindDirection_sector (d k : Z) :
  45 * k - 22 <= d <= 45 * k + 22 ->
  Math_round (inject_Z d / 45)%Q = k.
Proof.
  intros H. change 45%Q with (inject_Z (Z.pos 45)).
  rewrite Math_round_ratio. symmetry.
  apply (Z.div_unique_pos _ _ k (2 * d + 45 - 90 * k)); lia.
Qed.

(** X20.  [getWindDirection] on a whole number of degrees: a bearing within
    22 degrees of the k-th multiple of 45, for k from 0 to 8, is named by
    compass point number k modulo 8, so that 360 wraps back to N and every
    bearing from 0 to 360 has a name; a bearing from -337 to -23 has none
    (the function returns [undefined]). *)
Theorem X20_wind_direction (d : Z) :
  (forall k : Z, 0 <= k <= 8 -> 45 * k - 22 <= d <= 45 * k + 22 ->
     getWindDirection (inject_Z d) = directions !! Z.to_nat (k mod 8))
  /\ (0 <= d <= 360 ->
      exists s, getWindDirection (inject_Z d) = Some s /\ s ∈ directions)
  /\ (-337 <= d <= -23 -> getWindDirection (inject_Z d) = None).
Proof.
  assert (Hsec : forall k : Z, 0 <= k <= 8 ->
            45 * k - 22 <= d <= 45 * k + 22 ->
            getWindDirection (inject_Z d) = directions !! Z.to_nat (k mod 8)).
  { intros k Hk Hd. unfold getWindDirection.
    rewrite (getWindDirection_sector d k Hd).
    assert (Hc : k = 0 \/ k = 1 \/ k = 2 \/ k = 3 \/ k = 4 \/ k = 5
                 \/ k = 6 \/ k = 7 \/ k = 8) by lia.
    repeat (destruct Hc as [-> | Hc]; [reflexivity |]). subst k. reflexivity. }
  split; [exact Hsec |]. split.
  - intros Hd.
    assert (Hk : 0 <= (d + 22) / 45 <= 8).
    { split; [apply Z.div_pos; lia |].
      apply Z.lt_succ_r, Z.div_lt_upper_bound; lia. }
    assert (Hm := Z.div_mod (d + 22) 45 ltac:(lia)).
    assert (Hr := Z.mod_pos_bound (d + 22) 45 ltac:(lia)).
    rewrite (Hsec ((d + 22) / 45) Hk) by lia.
    assert (Hlt : (Z.to_nat (((d + 22) / 45) mod 8) < length directions)%nat).
    { assert (Hb := Z.mod_pos_bound ((d + 22) / 45) 8 ltac:(lia)).
      cbn [length directions]. lia. }
    destruct (lookup_lt_is_Some_2 _ _ Hlt) as [s Hs].
    exists s. split; [exact Hs |]. eapply list_elem_of_lookup_2; exact Hs.
  - intros Hd. unfold getWindDirection.
    set (k := - ((22 - d) / 45)).
    assert (Hm := Z.div_mod (22 - d) 45 ltac:(lia)).
    assert (Hr := Z.mod_pos_bound (22 - d) 45 ltac:(lia)).
    assert (Hk : -7 <= k <= -1).
    { subst k. split.
      - enough ((22 - d) / 45 < 8) by lia. apply Z.div_lt_upper_bound; lia.
      - enough (1 <= (22 - d) / 45) by lia. apply Z.div_le_lower_bound; lia. }
    rewrite (getWindDirection_sector d k) by (subst k; lia).
    assert (Hc : k = -1 \/ k = -2 \/ k = -3 \/ k = -4 \/ k = -5
                 \/ k = -6 \/ k = -7) by lia.
    clearbody k.
    repeat (destruct Hc as [-> | Hc]; [reflexivity |]). subst k. reflexivity.
Qed.

Lemma X20_wind_direction_witness :
  getWindDirection (inject_Z 350) = directions !! Z.to_nat (8 mod 8)
  /\ getWindDirection (inject_Z (-90)) = None.
Proof.
  destruct (X20_wind_direction 350) as (Hs & _ & _).
  destruct (X20_wind_direction (-90)) as (_ & _ & Hn).
  split.
  - apply Hs; lia.
  - apply Hn; lia.
Defined.

(** X21.  The condition label of the service and the icon of the card
    agree on every code the service names: clear skies get the sun,
    cloudy skies the cloud, fog the fog cloud, drizzle, rain and showers
    the rain cloud, snow the snow cloud and thunderstorms the lightning
    cloud.  A code the service calls Unknown still gets an icon, which is
    the lightning cloud from 100 on and the fog cloud from 4 to 44. *)
Theorem X21_label_and_icon (code : Z) :
  let label := mapWmoCode code in
  let icon := fst (getWeatherIcon code) in
  (label = "Clear Sky" \/ label = "Mainly Clear" -> icon = Sun)
  /\ (label = "Partly Cloudy" \/ label = "Overcast" -> icon = Cloud)
  /\ (label = "Foggy" -> icon = CloudFog)
  /\ (label = "Drizzle" \/ label = "Rain" \/ label = "Showers" ->
      icon = CloudRain)
  /\ (label = "Snow" -> icon = CloudSnow)
  /\ (label = "Thunderstorm" -> icon = CloudLightning)
  /\ (100 <= code -> label = "Unknown" /\ icon = CloudLightning)
  /\ (4 <= code <= 44 -> label = "Unknown" /\ icon = CloudFog).
Proof.
  cbv zeta. unfold mapWmoCode, getWeatherIcon.
  repeat match goal with |- _ /\ _ => split end; intros Hl;
    repeat (case_match; try lia; try discriminate; cbn [fst] in *);
    try reflexivity;
    try (split; reflexivity);
    try (exfalso; repeat destruct Hl as [Hl | Hl]; try discriminate Hl; lia).
Qed.

Lemma X21_label_and_icon_witness :
  fst (getWeatherIcon 73) = CloudSnow /\ mapWmoCode 100 = "Unknown".
Proof.
  destruct (X21_label_and_icon 73) as (_ & _ & _ & _ & Hs & _).
  destruct (X21_label_and_icon 100) as (_ & _ & _ & _ & _ & _ & Hu & _).
  split.
  - apply Hs. reflexivity.
  - apply Hu. lia.
Defined.

Lemma toF_integer (c : Z) : toF (inject_Z c) = (18 * c + 325) / 10.
Proof.
  unfold toF, Math_round, Qfloor, Qdiv, Qplus, Qmult, Qinv, inject_Z. cbn.
  f_equal; lia.
Qed.

(** X22.  [toF] on whole Celsius readings: a higher reading shows a higher
    Fahrenheit value, one degree more shows one or two degrees more, five
    degrees more show exactly nine more, and the value shown is within two
    fifths of a degree of the exact conversion. *)
Theorem X22_fahrenheit (c c' : Z) :
  (c < c' -> toF (inject_Z c) < toF (inject_Z c'))
  /\ 1 <= toF (inject_Z (c + 1)) - toF (inject_Z c) <= 2
  /\ toF (inject_Z (c + 5)) = toF (inject_Z c) + 9
  /\ -2 <= 5 * toF (inject_Z c) - (9 * c + 160) <= 2.
Proof.
  rewrite !toF_integer.
  assert (Hc := Z.div_mod (18 * c + 325) 10 ltac:(lia)).
  assert (Hr := Z.mod_pos_bound (18 * c + 325) 10 ltac:(lia)).
  assert (Hc' := Z.div_mod (18 * c' + 325) 10 ltac:(lia)).
  assert (Hr' := Z.mod_pos_bound (18 * c' + 325) 10 ltac:(lia)).
  assert (H1 := Z.div_mod (18 * (c + 1) + 325) 10 ltac:(lia)).
  assert (Hr1 := Z.mod_pos_bound (18 * (c + 1) + 325) 10 ltac:(lia)).
  assert (H5 := Z.div_mod (18 * (c + 5) + 325) 10 ltac:(lia)).
  assert (Hr5 := Z.mod_pos_bound (18 * (c + 5) + 325) 10 ltac:(lia)).
  assert (Hpar : exists h, (18 * c + 325) mod 10 = 2 * h + 1).
  { exists (9 * c + 162 - 5 * ((18 * c + 325) / 10)). lia. }
  destruct Hpar as [h Hh].
  repeat split; try lia.
Qed.

Lemma X22_fahrenheit_witness :
  toF (inject_Z (-40)) < toF (inject_Z 37).
Proof.
  destruct (X22_fahrenheit (-40) 37) as (Hlt & _).
  apply Hlt. lia.
Defined.

(** ** The drag-to-dismiss gesture of the card *)

Lemma Qle_bool_true (a b : Q) : (a <= b)%Q -> Qle_bool a b = true.
Proof. intros H. apply Qle_bool_iff. exact H. Qed.

Lemma Qle_bool_false (a b : Q) : (b < a)%Q -> Qle_bool a b = false.
Proof.
  intros H. destruct (Qle_bool a b) eqn:E; [| reflexivity].
  apply Qle_bool_iff in E. exfalso. apply (Qlt_not_le _ _ H E).
Qed.

Lemma Qltb_true (a b : Q) : (a < b)%Q -> Qltb a b = true.
Proof. intros H. unfold Qltb. rewrite (Qle_bool_false _ _ H). reflexivity. Qed.

Lemma Qltb_false (a b : Q) : (b <= a)%Q -> Qltb a b = false.
Proof. intros H. unfold Qltb. rewrite (Qle_bool_true _ _ H). reflexivity. Qed.

(** X23.  A touch that starts on an overlay card scrolled to its top, moves
    to height [y] and ends: the card is dismissed exactly when the finger
    went down so far that 1.05 times its travel exceeds 75 px.  Then the
    card is marked as dismissing, moved down by the height of the window,
    and one timer is started; otherwise it snaps back to offset 0 and no
    timer is started.  While a card is dismissing, no touch event changes
    anything. *)
Theorem X23_dismiss_threshold (props : CardProps) (top s y h : Q)
    (l : CardLocal) (a : App) :
  isPreview props || isExpanded props = true ->
  isDismissing l = false ->
  (top <= 2)%Q ->
  let r := cardRun props [TouchStart top s; TouchMove top y; TouchEnd h]
             (l, a, 0%nat) in
  let l' := fst (fst r) in
  touchStart l' = None
  /\ ((75 < (y - s) * 1.05)%Q ->
      isDismissing l' = true /\ dragOffset l' = h /\ snd r = 1%nat)
  /\ (((y - s) * 1.05 <= 75)%Q ->
      isDismissing l' = false /\ dragOffset l' = 0%Q /\ snd r = 0%nat)
  /\ (forall (e : CardEvent) (l0 : CardLocal) (n : nat),
        isDismissing l0 = true ->
        (forall t, e <> ScrollTo t) ->
        cardStep props e (l0, a, n) = (l0, a, n)).
Proof.
  intros Hp Hd Ht. cbv zeta.
  assert (Hnoop : forall (e : CardEvent) (l0 : CardLocal) (n : nat),
            isDismissing l0 = true ->
            (forall t, e <> ScrollTo t) ->
            cardStep props e (l0, a, n) = (l0, a, n)).
  { intros e l0 n H0 Hnot.
    destruct e; cbn [cardStep]; unfold onTouchStart, onTouchMove, onTouchEnd;
      rewrite ?H0; try reflexivity.
    exfalso. eapply Hnot. reflexivity. }
  assert (Hrun :
    cardRun props [TouchStart top s; TouchMove top y; TouchEnd h] (l, a, 0%nat)
    = let '(l', a', started) :=
        onTouchEnd props h
          (onTouchMove props top y (setTouchStart (Some s) l, a)) in
      (l', a', if started then 1%nat else 0%nat)).
  { unfold cardRun. cbn [foldl]. unfold cardStep at 3.
    unfold onTouchStart. rewrite Hd, (Qle_bool_true _ _ Ht).
    unfold cardStep at 2.
    destruct (onTouchMove props top y (setTouchStart (Some s) l, a)) as [l2 a2].
    unfold cardStep.
    destruct (onTouchEnd props h (l2, a2)) as [[l3 a3] st]. reflexivity. }
  rewrite Hrun. clear Hrun.
  unfold onTouchMove. cbn [isDismissing setTouchStart touchStart].
  rewrite Hd, Hp, (Qle_bool_true _ _ Ht). cbn [andb].
  unfold onTouchEnd.
  destruct (Qltb 0 (y - s)) eqn:Hpos;
    cbn [isDismissing setTouchStart setDragOffset touchStart dragOffset];
    rewrite Hd.
  - destruct (Qltb 75 ((y - s) * 1.05)) eqn:Hover;
      cbn [fst snd isDismissing setTouchStart setDragOffset setIsDismissing
           touchStart dragOffset].
    + split; [reflexivity |]. split; [intros _; auto |].
      split; [| exact Hnoop].
      intros Hle. rewrite (Qltb_false _ _ Hle) in Hover. discriminate.
    + split; [reflexivity |]. split; [| split; [intros _; auto | exact Hnoop]].
      intros Hlt. rewrite (Qltb_true _ _ Hlt) in Hover. discriminate.
  - apply Qltb_ge in Hpos.
    rewrite (Qltb_false 75 0) by discriminate.
    cbn [fst snd isDismissing setTouchStart setDragOffset setIsDismissing
         touchStart dragOffset].
    split; [reflexivity |]. split; [| split; [intros _; auto | exact Hnoop]].
    intros Hlt. exfalso. lra.
Qed.

Lemma X23_dismiss_threshold_witness :
  let r := cardRun previewProps
             [TouchStart 0 100; TouchMove 0 180; TouchEnd 800]
             (initialCardLocal, previewing cardA [], 0%nat) in
  isDismissing (fst (fst r)) = true /\ snd r = 1%nat.
Proof.
  destruct (X23_dismiss_threshold previewProps 0 100 180 800
              initialCardLocal (previewing cardA []) eq_refl eq_refl)
    as (_ & Hover & _).
  - discriminate.
  - destruct Hover as (Hd & _ & Hn); [reflexivity |].
    split; [exact Hd | exact Hn].
Defined.

Lemma cardRun_cons (props : CardProps) (e : CardEvent) (es : list CardEvent)
    (s : CardLocal * App * nat) :
  cardRun props (e :: es) s = cardRun props es (cardStep props e s).
Proof. reflexivity. Qed.

Lemma previewStep_tracks (e : CardEvent) (l : CardLocal) (a : App) (n : nat) :
  previewDragOffset a = dragOffset l ->
  let r := cardStep previewProps e (l, a, n) in
  previewDragOffset (snd (fst r)) = dragOffset (fst (fst r))
  /\ (forall b d, setIsScrolled b (setPreviewDragOffset d (snd (fst r)))
                  = setIsScrolled b (setPreviewDragOffset d a)).
Proof.
  intros Hs. cbv zeta.
  destruct e; cbn [cardStep].
  - unfold onTouchStart. repeat case_match; cbn; auto.
  - unfold onTouchMove. repeat case_match; simplify_eq; cbn; auto.
  - unfold onTouchEnd. repeat case_match; simplify_eq; cbn; auto.
  - unfold handleScroll. repeat case_match; simplify_eq; cbn; auto.
Qed.

(** X24.  On the preview card the offset that [App] keeps for the search
    bar always equals the drag offset of the card: whatever touch and
    scroll events the card receives, the two stay equal, and no cell of
    [App] other than [previewDragOffset] and [isScrolled] is written.  The
    timer of a dismissal then clears the preview and puts the offset back
    to 0. *)
Theorem X24_preview_offset_tracks (es : list CardEvent) (l : CardLocal)
    (a : App) (n : nat) :
  previewDragOffset a = dragOffset l ->
  let r := cardRun previewProps es (l, a, n) in
  let a' := snd (fst r) in
  previewDragOffset a' = dragOffset (fst (fst r))
  /\ (forall b d, setIsScrolled b (setPreviewDragOffset d a')
                  = setIsScrolled b (setPreviewDragOffset d a))
  /\ previewCard (dismissTimer previewProps a') = None
  /\ previewDragOffset (dismissTimer previewProps a') = 0%Q
  /\ savedCards (dismissTimer previewProps a') = savedCards a.
Proof.
  intros Hs. cbv zeta.
  assert (Hinv : previewDragOffset (cardRun previewProps es (l, a, n)).1.2
                 = dragOffset (cardRun previewProps es (l, a, n)).1.1
                 /\ (forall b d,
                       setIsScrolled b (setPreviewDragOffset d
                         (cardRun previewProps es (l, a, n)).1.2)
                       = setIsScrolled b (setPreviewDragOffset d a))).
  { revert l a n Hs. induction es as [| e es IH]; intros l a n Hs.
    - cbn. auto.
    - rewrite cardRun_cons.
      destruct (previewStep_tracks e l a n Hs) as [H1 H2].
      destruct (cardStep previewProps e (l, a, n)) as [[l1 a1] n1].
      cbn [fst snd] in H1, H2.
      destruct (IH l1 a1 n1 H1) as [H3 H4].
      split; [exact H3 |]. intros b d. rewrite H4. apply H2. }
  destruct Hinv as [H1 H2].
  split; [exact H1 |]. split; [exact H2 |].
  repeat split.
  change (savedCards (dismissTimer previewProps (cardRun previewProps es (l, a, n)).1.2))
    with (savedCards (setIsScrolled false (setPreviewDragOffset 0%Q
            (cardRun previewProps es (l, a, n)).1.2))).
  rewrite H2. reflexivity.
Qed.

Lemma X24_preview_offset_tracks_witness :
  let r := cardRun previewProps
             [TouchStart 0 100; TouchMove 0 180; TouchMove 0 130]
             (initialCardLocal, previewing cardA [cardB], 0%nat) in
  previewDragOffset (snd (fst r)) = dragOffset (fst (fst r)).
Proof.
  apply (X24_preview_offset_tracks
           [TouchStart 0 100; TouchMove 0 180; TouchMove 0 130]
           initialCardLocal (previewing cardA [cardB]) 0%nat).
  reflexivity.
Defined.

Lemma stackStep_inert (e : CardEvent) (l : CardLocal) (a : App) (n : nat) :
  dragOffset l = 0%Q -> isDismissing l = false -> hasScrolledDown l = false ->
  exists l', cardStep stackItemProps e (l, a, n) = (l', a, n)
             /\ dragOffset l' = 0%Q /\ isDismissing l' = false
             /\ hasScrolledDown l' = false.
Proof.
  intros H0 Hd Hs.
  destruct e; cbn [cardStep].
  - unfold onTouchStart. rewrite Hd.
    destruct (Qle_bool scrollTop 2); eexists; (split; [reflexivity |]);
      cbn; auto.
  - unfold onTouchMove. rewrite Hd. cbn.
    destruct (touchStart l); eexists; (split; [reflexivity |]); auto.
  - unfold onTouchEnd. rewrite Hd, H0. cbn.
    destruct (touchStart l); eexists; (split; [reflexivity |]); cbn; auto.
  - unfold handleScroll. cbn. eexists. split; [reflexivity |]. auto.
Qed.

Lemma expandedStep_frame (e : CardEvent) (l : CardLocal) (a : App) (n : nat) :
  forall b, setIsScrolled b (snd (fst (cardStep expandedProps e (l, a, n))))
            = setIsScrolled b a.
Proof.
  intros b. destruct e; cbn [cardStep].
  - reflexivity.
  - unfold onTouchMove. repeat case_match; simplify_eq; cbn; auto.
  - unfold onTouchEnd. repeat case_match; simplify_eq; cbn; auto.
  - unfold handleScroll. repeat case_match; simplify_eq; cbn; auto.
Qed.

(** X25.  A card of the stack never takes part in the dismiss gesture:
    whatever touch and scroll events it receives, its drag offset stays 0,
    it never starts dismissing, it starts no timer and it writes no cell of
    [App].  The expanded card writes no cell of [App] but [isScrolled]
    until its timer fires, and the timer closes the overlay and leaves the
    collection and the active index as they were. *)
Theorem X25_stack_and_expanded_gestures (es : list CardEvent) (a : App)
    (n : nat) :
  (let r := cardRun stackItemProps es (initialCardLocal, a, n) in
   snd (fst r) = a /\ snd r = n
   /\ dragOffset (fst (fst r)) = 0%Q /\ isDismissing (fst (fst r)) = false)
  /\ (forall l : CardLocal,
        let a' := snd (fst (cardRun expandedProps es (l, a, n))) in
        (forall b, setIsScrolled b a' = setIsScrolled b a)
        /\ expandedCardId (dismissTimer expandedProps a') = None
        /\ savedCards (dismissTimer expandedProps a') = savedCards a
        /\ activeIndex (dismissTimer expandedProps a') = activeIndex a).
Proof.
  split.
  - cbv zeta.
    assert (Hgen : forall l, dragOffset l = 0%Q -> isDismissing l = false ->
              hasScrolledDown l = false ->
              exists l', cardRun stackItemProps es (l, a, n) = (l', a, n)
                         /\ dragOffset l' = 0%Q /\ isDismissing l' = false).
    { induction es as [| e es IH]; intros l H0 Hd Hs.
      - exists l. cbn. auto.
      - rewrite cardRun_cons.
        destruct (stackStep_inert e l a n H0 Hd Hs) as (l1 & -> & H1 & H2 & H3).
        apply IH; assumption. }
    destruct (Hgen initialCardLocal eq_refl eq_refl eq_refl)
      as (l' & -> & H1 & H2).
    cbn [fst snd]. auto.
  - intros l. cbv zeta.
    assert (Hf : forall b,
              setIsScrolled b (cardRun expandedProps es (l, a, n)).1.2
              = setIsScrolled b a).
    { revert l a n. induction es as [| e es IH]; intros l a n b.
      - reflexivity.
      - rewrite cardRun_cons.
        assert (H1 := expandedStep_frame e l a n b).
        destruct (cardStep expandedProps e (l, a, n)) as [[l1 a1] n1].
        cbn [fst snd] in H1. rewrite IH. exact H1. }
    split; [exact Hf |].
    split; [reflexivity |].
    set (a' := (cardRun expandedProps es (l, a, n)).1.2) in *.
    assert (H := Hf false).
    split.
    + change (savedCards (setIsScrolled false a')
              = savedCards (setIsScrolled false a)).
      rewrite H. reflexivity.
    + change (activeIndex (setIsScrolled false a')
              = activeIndex (setIsScrolled false a)).
      rewrite H. reflexivity.
Qed.

Lemma X25_stack_and_expanded_gestures_witness :
  let r := cardRun stackItemProps
             [TouchStart 0 100; TouchMove 0 300; TouchEnd 800]
             (initialCardLocal, stackOf [cardA; cardB], 0%nat) in
  snd (fst r) = stackOf [cardA; cardB] /\ snd r = 0%nat.
Proof.
  destruct (X25_stack_and_expanded_gestures
              [TouchStart 0 100; TouchMove 0 300; TouchEnd 800]
              (stackOf [cardA; cardB]) 0%nat) as [(Ha & Hn & _) _].
  split; [exact Ha | exact Hn].
Defined.

Lemma dismissScale_cases (h : Q) (l : CardLocal) :
  (0 < h)%Q ->
  (dragOffset l <= 0 /\ dismissScale h l = 1)%Q
  \/ exists t : Q,
       (0 < dragOffset l)%Q /\ (0 <= t)%Q
       /\ (t == dragOffset l * / (h * 1.5))%Q
       /\ dismissScale h l = Qmax 0.93 (1 - t).
Proof.
  intros Hh. unfold dismissScale.
  destruct (Qltb 0 (dragOffset l)) eqn:E.
  - right. apply Qltb_lt in E.
    exists (dragOffset l * / (h * 1.5))%Q.
    split; [exact E |]. split; [| split; reflexivity].
    apply Qmult_le_0_compat; [lra |].
    apply Qinv_le_0_compat. lra.
  - left. apply Qltb_ge in E. split; [exact E | reflexivity].
Qed.

(** X26.  The style of a card being dragged down, in a window of positive
    height: its scale stays between 0.93 and 1, is exactly 1 when the card
    is not dragged, and never grows when the card is dragged further; its
    corner radius stays between 0 and 40 px. *)
Theorem X26_dismiss_style (props : CardProps) (h : Q) (l l' : CardLocal) :
  (0 < h)%Q ->
  (0.93 <= dismissScale h l <= 1)%Q
  /\ ((dragOffset l <= 0)%Q -> dismissScale h l = 1%Q)
  /\ ((dragOffset l <= dragOffset l')%Q ->
      (dismissScale h l' <= dismissScale h l)%Q)
  /\ (0 <= dismissBorderRadius props l <= 40)%Q.
Proof.
  intros Hh.
  assert (Hrange : forall k, (0.93 <= dismissScale h k <= 1)%Q).
  { intros k. destruct (dismissScale_cases h k Hh) as [[_ ->] | (t & _ & Ht & _ & ->)].
    - lra.
    - destruct (Q.max_spec 0.93 (1 - t)) as [[? ->] | [? ->]]; lra. }
  split; [apply Hrange |]. split; [| split].
  - intros Hle. unfold dismissScale. rewrite (Qltb_false _ _ Hle). reflexivity.
  - intros Hle.
    destruct (dismissScale_cases h l Hh) as [[_ ->] | (t & Hpos & Ht & Heq & ->)].
    + apply Hrange.
    + destruct (dismissScale_cases h l' Hh)
        as [[Hneg _] | (t' & Hpos' & Ht' & Heq' & ->)]; [lra |].
      assert (Htt : (t <= t')%Q).
      { rewrite Heq, Heq'. apply Qmult_le_compat_r; [exact Hle |].
        apply Qinv_le_0_compat. lra. }
      destruct (Q.max_spec 0.93 (1 - t)) as [[? ->] | [? ->]];
        destruct (Q.max_spec 0.93 (1 - t')) as [[? ->] | [? ->]]; lra.
  - unfold dismissBorderRadius.
    destruct (Qltb 0 (dragOffset l)) eqn:E.
    + apply Qltb_lt in E.
      destruct (Q.min_spec (dragOffset l / 5) 40) as [[? ->] | [? ->]];
        unfold Qdiv in *; change (/ 5)%Q with (1 # 5)%Q in *; lra.
    + destruct (isExpanded props); lra.
Qed.

Lemma X26_dismiss_style_witness :
  (0.93 <= dismissScale 800 (setDragOffset 84 initialCardLocal) <= 1)%Q.
Proof.
  apply (X26_dismiss_style previewProps 800
           (setDragOffset 84 initialCardLocal) initialCardLocal).
  reflexivity.
Defined.

(** ** The full-screen image viewer *)

(** X27.  Wheel zoom of the image viewer: the scale it sets is always
    between 1 and 8; whenever that scale is 1 the image is put back at the
    origin, and otherwise its position is kept; turning the wheel up on an
    image at scale 8 or less never zooms out, and turning it down on an
    image at scale 1 leaves the image at the origin at scale 1. *)
Theorem X27_wheel_zoom (deltaY : Q) (t : ViewConfig) :
  let t' := handleWheel deltaY t in
  (1 <= view_scale t' <= 8)%Q
  /\ ((view_scale t' == 1)%Q -> view_x t' = 0%Q /\ view_y t' = 0%Q)
  /\ (~ (view_scale t' == 1)%Q ->
      view_x t' = view_x t /\ view_y t' = view_y t)
  /\ ((view_scale t <= 8)%Q -> (deltaY <= 0)%Q ->
      (view_scale t <= view_scale t')%Q)
  /\ ((view_scale t == 1)%Q -> (0 <= deltaY)%Q ->
      view_x t' = 0%Q /\ view_y t' = 0%Q /\ (view_scale t' == 1)%Q).
Proof.
  cbv zeta. unfold handleWheel.
  set (amount := (- deltaY * 0.001)%Q).
  assert (Ha : (amount == - deltaY * (1 # 1000))%Q) by reflexivity.
  set (raw := (view_scale t + amount)%Q).
  assert (Hr : (raw == view_scale t + amount)%Q) by reflexivity.
  set (ns := Qmin (Qmax 1 raw) 8).
  assert (Hns : (1 <= ns <= 8)%Q
                /\ ((raw <= 8)%Q -> (raw <= ns)%Q)
                /\ ((raw <= 1)%Q -> (ns == 1)%Q)
                /\ ((8 <= raw)%Q -> (ns == 8)%Q)).
  { subst ns.
    destruct (Q.max_spec 1 raw) as [[H1 E1] | [H1 E1]];
      destruct (Q.min_spec (Qmax 1 raw) 8) as [[H2 E2] | [H2 E2]];
      rewrite E2; rewrite ?E1 in *; repeat split; intros; lra. }
  clearbody ns raw amount.
  destruct Hns as (Hb & Hup & Hdown & Htop).
  destruct (Qeq_bool ns 1) eqn:E; cbn [view_x view_y view_scale].
  - apply Qeq_bool_iff in E.
    split; [exact Hb |]. split; [auto |]. split; [intros Hn; contradiction |].
    split; [intros; lra |]. auto.
  - apply Qeq_bool_neq in E.
    split; [exact Hb |]. split; [intros Hn; contradiction |].
    split; [auto |]. split.
    + intros H8 Hd. assert (raw <= 8 -> raw <= ns)%Q by exact Hup.
      destruct (Qlt_le_dec 8 raw) as [Hbig | Hsmall].
      * assert (Hm : (ns == 8)%Q) by (apply Htop; lra).
        lra.
      * specialize (Hup Hsmall). lra.
    + intros H1 Hd. exfalso. apply E. apply Hdown. lra.
Qed.

Lemma X27_wheel_zoom_witness :
  view_x (handleWheel 120 {| view_x := 35; view_y := -12; view_scale := 1 |})
  = 0%Q.
Proof.
  destruct (X27_wheel_zoom 120
              {| view_x := 35; view_y := -12; view_scale := 1 |})
    as (_ & _ & _ & _ & Hout).
  apply Hout; [reflexivity | discriminate].
Defined.

Lemma editSettled_history (closed : Editor) (new : GeneratedImage) :
  editorOk closed ->
  history (editSettled closed new)
  = take (Z.to_nat (historyIndex closed + 1)) (history closed) ++ [new]
  /\ length (take (Z.to_nat (historyIndex closed + 1)) (history closed))
     = (if decide (history closed = []) then 0%nat
        else Z.to_nat (historyIndex closed + 1)).
Proof.
  intros Hok. unfold editSettled, js_slice0. cbn [history].
  destruct Hok as [[He Hi] | Hi].
  - rewrite He, Hi. cbn. auto.
  - replace (historyIndex closed + 1 <? 0) with false by lia.
    split; [reflexivity |].
    rewrite length_take.
    destruct (decide (history closed = [])) as [He | _].
    + rewrite He in Hi. cbn in Hi. lia.
    + lia.
Qed.

Lemma last_shown (img new : GeneratedImage) (pre : list GeneratedImage) :
  (if 0 <? Z.of_nat (length (pre ++ [new]))
   then js_index (pre ++ [new]) (Z.of_nat (length (pre ++ [new])) - 1)
   else Some img) = Some new.
Proof.
  rewrite length_app. cbn [length]. unfold js_index.
  replace (0 <? Z.of_nat (length pre + 1)) with true
    by (symmetry; apply Z.ltb_lt; lia).
  replace (Z.of_nat (length pre + 1) - 1 <? 0) with false
    by (symmetry; apply Z.ltb_ge; lia).
  replace (Z.to_nat (Z.of_nat (length pre + 1) - 1)) with (length pre) by lia.
  apply list_lookup_middle. reflexivity.
Qed.

(** X28.  The edit history of the image viewer.  Its index always points
    at an entry of the history (or the history is empty, before the viewer
    opens): opening the viewer, undo, redo and the arrival of an edited
    image all keep this, so the image shown is never [undefined].  When an
    edit arrives, the history becomes the entries up to the one that was
    shown when the edit was submitted, followed by the new image, which is
    then shown, and redo does nothing; redo after an undo gives back the
    editor as it was. *)
Theorem X28_edit_history (img new : GeneratedImage) (ed closed : Editor) :
  editorOk ed ->
  editorOk closed ->
  editorOk (openViewer img ed) /\ editorOk (undo ed) /\ editorOk (redo ed)
  /\ editorOk (editSettled closed new)
  /\ is_Some (activeImage img ed)
  /\ activeImage img (editSettled closed new) = Some new
  /\ redo (editSettled closed new) = editSettled closed new
  /\ history (editSettled closed new)
     = take (Z.to_nat (historyIndex closed + 1)) (history closed) ++ [new]
  /\ (history closed <> [] ->
      Z.of_nat (length (history (editSettled closed new)))
      = historyIndex closed + 2)
  /\ (0 < historyIndex ed -> redo (undo ed) = ed)
  /\ activeImage img (openViewer img closeViewer) = Some img.
Proof.
  intros Hok Hc.
  destruct (editSettled_history closed new Hc) as [Hh Hl].
  assert (Hidx : historyIndex (editSettled closed new)
                 = Z.of_nat (length (history (editSettled closed new))) - 1)
    by reflexivity.
  assert (Hlen : length (history (editSettled closed new))
                 = S (length (take (Z.to_nat (historyIndex closed + 1))
                                (history closed)))).
  { rewrite Hh, length_app. cbn. lia. }
  split; [| split; [| split; [| split; [| split; [| split;
    [| split; [| split; [| split; [| split]]]]]]]]].
  - unfold openViewer.
    destruct (Z.of_nat (length (history ed)) =? 0);
      [right; cbn [history historyIndex length]; lia | exact Hok].
  - unfold undo.
    destruct (_ && _) eqn:E; [| exact Hok].
    apply andb_true_iff in E. destruct E as [E1 E2].
    apply Z.ltb_lt in E1. apply negb_true_iff, Z.eqb_neq in E2.
    right. cbn [history historyIndex]. destruct Hok as [[He _] | Hi]; [rewrite He in *; cbn [length] in *; lia |].
    lia.
  - unfold redo.
    destruct (_ && _) eqn:E; [| exact Hok].
    apply andb_true_iff in E. destruct E as [E1 E2].
    apply Z.ltb_lt in E1. apply negb_true_iff, Z.eqb_neq in E2.
    right. cbn [history historyIndex]. destruct Hok as [[He _] | Hi]; [rewrite He in *; cbn [length] in *; lia |].
    lia.
  - right. rewrite Hidx, Hlen. lia.
  - unfold activeImage, js_index.
    destruct Hok as [[He _] | Hi].
    + rewrite He. cbn. eexists. reflexivity.
    + replace (0 <? Z.of_nat (length (history ed))) with true by lia.
      replace (historyIndex ed <? 0) with false by lia.
      apply lookup_lt_is_Some_2. lia.
  - unfold activeImage. rewrite Hidx, Hh. apply last_shown.
  - unfold redo. rewrite Hidx, Z.eqb_refl, andb_false_r. reflexivity.
  - exact Hh.
  - intros Hne. rewrite Hlen, Hl.
    destruct (decide (history closed = [])) as [He | _]; [contradiction |].
    destruct Hc as [[He _] | Hi]; [contradiction |]. lia.
  - intros Hpos. destruct Hok as [[_ Hi] | Hi]; [lia |].
    unfold undo.
    replace (1 <? Z.of_nat (length (history ed))) with true by lia.
    replace (historyIndex ed =? 0) with false by lia.
    unfold redo. cbn [history historyIndex andb negb].
    replace (1 <? Z.of_nat (length (history ed))) with true by lia.
    replace (historyIndex ed - 1 =? Z.of_nat (length (history ed)) - 1)
      with false by lia.
    cbn [andb negb]. destruct ed as [hs i]. cbn. f_equal. lia.
  - reflexivity.
Qed.

Lemma X28_edit_history_witness :
  activeImage (image cardA)
    (editSettled (openViewer (image cardA) closeViewer) (image cardB))
  = Some (image cardB).
Proof.
  apply (X28_edit_history (image cardA) (image cardB)
           (openViewer (image cardA) closeViewer)
           (openViewer (image cardA) closeViewer)).
  - right. vm_compute. split; [discriminate | reflexivity].
  - right. vm_compute. split; [discriminate | reflexivity].
Defined.

Lemma targetCard_expanded (a : App) (t : WeatherCardData) :
  targetCard a = Some t ->
  previewCard a = None ->
  exists eid i, expandedCardId a = Some eid /\ truthy (Some eid) = true
                /\ cardId t = eid
                /\ list_find (fun c => cardId c = eid) (savedCards a)
                   = Some (i, t).
Proof.
  intros Ht Hp. unfold targetCard in Ht. rewrite Hp in Ht.
  destruct (expandedCardId a) as [eid |] eqn:He; [| discriminate].
  destruct (truthy (Some eid)) eqn:Htr; [| discriminate].
  unfold expandedCard in Ht. rewrite He in Ht.
  destruct (list_find _ (savedCards a)) as [[i c'] |] eqn:Hf; [| discriminate].
  cbn in Ht. simplify_eq.
  assert (Hid := Hf). apply list_find_Some in Hid as (_ & Hid & _).
  exists eid, i. auto.
Qed.

Lemma list_find_replaceCard (eid : string) (u t : WeatherCardData)
    (cards : list WeatherCardData) (i : nat) :
  cardId u = eid ->
  list_find (fun c => cardId c = eid) cards = Some (i, t) ->
  list_find (fun c => cardId c = eid) (replaceCard eid u cards) = Some (i, u).
Proof.
  intros Hu Hf. unfold replaceCard. rewrite list_find_fmap.
  rewrite (list_find_ext _ (fun c => cardId c = eid)).
  - rewrite Hf. cbn.
    apply list_find_Some in Hf as (_ & Heq & _).
    destruct (decide (cardId t = eid)); [reflexivity | contradiction].
  - intros c. cbn. destruct (decide (cardId c = eid)); split; congruence.
Qed.

Lemma replaceCard_twice (eid : string) (u1 u2 : WeatherCardData)
    (cards : list WeatherCardData) :
  cardId u1 = eid ->
  replaceCard eid u2 (replaceCard eid u1 cards) = replaceCard eid u2 cards.
Proof.
  intros Hu. unfold replaceCard. rewrite <- list_fmap_compose.
  apply list_fmap_ext. intros i c _. cbn.
  destruct (decide (cardId c = eid)) as [Hc | Hc].
  - destruct (decide (cardId u1 = eid)); [reflexivity | contradiction].
  - destruct (decide (cardId c = eid)); [contradiction | reflexivity].
Qed.

Lemma applyCardUpdate_target (a : App) (t u : WeatherCardData) :
  targetCard a = Some t ->
  cardId u = cardId t ->
  targetCard (applyCardUpdate u a) = Some u.
Proof.
  intros Ht Hu. unfold applyCardUpdate.
  destruct (previewCard a) as [p |] eqn:Hp; cbn [nonNull].
  - unfold targetCard. cbn. reflexivity.
  - destruct (targetCard_expanded a t Ht Hp) as (eid & i & He & Htr & Hid & Hf).
    rewrite He, Htr.
    unfold targetCard, expandedCard. cbn. rewrite Hp, He, Htr.
    rewrite (list_find_replaceCard eid u t _ i); [reflexivity | congruence | exact Hf].
Qed.

Lemma applyCardUpdate_twice (a : App) (t u1 u2 : WeatherCardData) :
  targetCard a = Some t ->
  cardId u1 = cardId t ->
  applyCardUpdate u2 (applyCardUpdate u1 a) = applyCardUpdate u2 a.
Proof.
  intros Ht Hu. unfold applyCardUpdate at 2.
  destruct (previewCard a) as [p |] eqn:Hp; cbn [nonNull].
  - unfold applyCardUpdate. cbn. rewrite Hp. reflexivity.
  - destruct (targetCard_expanded a t Ht Hp) as (eid & i & He & Htr & Hid & Hf).
    rewrite He, Htr. unfold applyCardUpdate. cbn -[replaceCard truthy].
    rewrite Hp, He, Htr. cbn -[replaceCard truthy].
    rewrite replaceCard_twice by congruence. reflexivity.
Qed.

(** X29.  Closing the image viewer of the expanded or the preview card,
    with a pan and zoom to commit.  If the image shown is the one the card
    came with, the card keeps its image and gets the pan and zoom as its
    view.  If an edited image is shown, the card gets exactly that image
    instead, its view included, so the pan and zoom made in the viewer are
    not stored; the outcome is that of the image update alone. *)
Theorem X29_close_viewer (props : CardProps) (img active : GeneratedImage)
    (vc : ViewConfig) (ed : Editor) (a : App) (t : WeatherCardData) :
  onUpdateView props = Some handleUpdateView ->
  onUpdateImage props = Some handleImageUpdate ->
  targetCard a = Some t ->
  activeImage img ed = Some active ->
  let a' := handleCloseFullImage props img (Some vc) ed a in
  (url active = url img ->
   a' = handleUpdateView vc a
   /\ targetCard a'
      = Some {| weather := weather t;
                image := {| url := url (image t);
                            prompt := prompt (image t);
                            generatedAt := generatedAt (image t);
                            viewConfig := Some vc |} |})
  /\ (url active <> url img ->
      a' = handleImageUpdate active a
      /\ targetCard a' = Some {| weather := weather t; image := active |}).
Proof.
  intros Hv Hi Ht Ha. cbv zeta.
  unfold handleCloseFullImage. rewrite Hv, Hi, Ha.
  assert (Hview : handleUpdateView vc a
                  = applyCardUpdate
                      {| weather := weather t;
                         image := {| url := url (image t);
                                     prompt := prompt (image t);
                                     generatedAt := generatedAt (image t);
                                     viewConfig := Some vc |} |} a).
  { unfold handleUpdateView. rewrite Ht. reflexivity. }
  assert (Himg : handleImageUpdate active a
                 = applyCardUpdate {| weather := weather t; image := active |} a).
  { unfold handleImageUpdate. rewrite Ht. reflexivity. }
  split.
  - intros Hu. rewrite Hu, String.eqb_refl. cbn [negb].
    split; [reflexivity |]. rewrite Hview.
    apply (applyCardUpdate_target a t); [exact Ht | reflexivity].
  - intros Hu. apply String.eqb_neq in Hu. rewrite Hu. cbn [negb].
    assert (Heq : handleImageUpdate active (handleUpdateView vc a)
                  = handleImageUpdate active a).
    { rewrite Himg, Hview. unfold handleImageUpdate.
      rewrite (applyCardUpdate_target a t) by (exact Ht || reflexivity).
      cbn [weather]. apply (applyCardUpdate_twice a t); [exact Ht | reflexivity]. }
    rewrite Heq. split; [reflexivity |]. rewrite Himg.
    apply (applyCardUpdate_target a t); [exact Ht | reflexivity].
Qed.

Lemma X29_close_viewer_witness :
  targetCard
    (handleCloseFullImage expandedProps (image cardA)
       (Some {| view_x := 10; view_y := 4; view_scale := 2 |})
       (editSettled (openViewer (image cardA) closeViewer) (image cardB))
       (setExpandedCardId (Some "a") (stackOf [cardA; cardB])))
  = Some {| weather := weather cardA; image := image cardB |}.
Proof.
  destruct (X29_close_viewer expandedProps (image cardA) (image cardB)
              {| view_x := 10; view_y := 4; view_scale := 2 |}
              (editSettled (openViewer (image cardA) closeViewer) (image cardB))
              (setExpandedCardId (Some "a") (stackOf [cardA; cardB]))
              cardA eq_refl eq_refl eq_refl eq_refl) as [_ Hedit].
  apply Hedit. discriminate.
Defined.
